(** * The agentic RAG query pipeline of polly-ai, embedded in Rocq

    A shallow embedding of the Python sources

      - [adapters/llm/constraints.py]   (component constraint validators)
      - [adapters/llm/components.py]    ([TYPE_ALIASES], [parse_component])
      - [adapters/agents/composer.py]   (layout assembly)
      - [adapters/agents/retriever.py]  (the four retrieval strategies)
      - [domain/usage/entities.py]      ([CostBreakdown])
      - [domain/rag/use_cases.py]       ([ExecuteQuery])

    Python values that arrive as decoded JSON are modelled by the dynamically
    typed [pyval]; a Python exception is a value of [exn]; Python floats are
    IEEE binary64 numbers, the kernel's primitive [float]; calls to the outside
    world (cache, LLM agents, embedder, vector store, [uuid4], the clock) are
    the nodes of a program tree [Prog], whose runs are lists of events.

    Strings are Rocq strings: sequences of bytes, the UTF-8 encoding of a
    Python [str]. [lower], [strip] and [split] are the ASCII parts of
    Python's methods: they agree with Python on ASCII text, and a theorem
    that rests on them is stated for ASCII text ([is_ascii]), by a hypothesis
    of its own or because its hypotheses pin the text to an ASCII literal. *)

From Stdlib Require Import ZArith String Ascii List Lia Permutation Sorted.
From Stdlib Require Import Floats.
From stdpp Require Import base option list strings gmap pretty.

Set Warnings "-inexact-float,-register-all".
Set Default Proof Using "Type".

Local Open Scope string_scope.
Local Open Scope list_scope.
Local Open Scope Z_scope.

(** ** Python exceptions and the exception monad *)

Inductive exn : Type :=
| AttributeError
| TypeError
| ValueError
| KeyError
| IndexError
| OverflowError
| ZeroDivisionError
| JSONDecodeError
| ExternalError (msg : string).

(** [Exc A]: a pure Python computation that returns an [A] or raises. *)
Definition Exc (A : Type) : Type := (exn + A)%type.

Definition ok {A} (a : A) : Exc A := inr a.
Definition throw {A} (e : exn) : Exc A := inl e.

Definition exc_bind {A B} (m : Exc A) (f : A -> Exc B) : Exc B :=
  match m with
  | inl e => inl e
  | inr a => f a
  end.

Arguments exc_bind {A B} !m f /.

Notation "'let?' x ':=' m 'in' k" := (exc_bind m (fun x => k))
  (at level 10, x pattern, m at level 100, k at level 200).

Fixpoint exc_map {A B} (f : A -> Exc B) (l : list A) : Exc (list B) :=
  match l with
  | [] => ok []
  | a :: r => let? b := f a in let? bs := exc_map f r in ok (b :: bs)
  end.

(** [for x in l: if raises(f x): raise]: the first exception wins. *)
Fixpoint exc_iter {A} (f : A -> Exc unit) (l : list A) : Exc unit :=
  match l with
  | [] => ok tt
  | a :: r => let? _ := f a in exc_iter f r
  end.

(** ** Python values: what [json.loads] can produce *)

Inductive pyval : Type :=
| PNone
| PBool (b : bool)
| PInt (z : Z)
| PFloat (f : float)
| PStr (s : string)
| PList (l : list pyval)
| PDict (d : list (string * pyval)).

Module Py.

(** [bool(v)] *)
Definition truthy (v : pyval) : bool :=
  match v with
  | PNone => false
  | PBool b => b
  | PInt z => negb (z =? 0)
  | PFloat f => negb (PrimFloat.eqb f 0%float)
  | PStr s => negb (String.eqb s "")
  | PList l => match l with [] => false | _ => true end
  | PDict d => match d with [] => false | _ => true end
  end.

Fixpoint assoc {V} (k : string) (d : list (string * V)) : option V :=
  match d with
  | [] => None
  | (k', v) :: r => if String.eqb k k' then Some v else assoc k r
  end.

(** [d.get(k, default)]: only a dict has the method. *)
Definition get (d : pyval) (k : string) (default : pyval) : Exc pyval :=
  match d with
  | PDict kv => ok (match assoc k kv with Some v => v | None => default end)
  | _ => throw AttributeError
  end.

Fixpoint chars (s : string) : list pyval :=
  match s with
  | EmptyString => []
  | String c r => PStr (String c EmptyString) :: chars r
  end.

(** [iter(v)]: a list yields its items, a str its characters, a dict its keys. *)
Definition iter (v : pyval) : Exc (list pyval) :=
  match v with
  | PList l => ok l
  | PStr s => ok (chars s)
  | PDict d => ok (map (fun kv => PStr (fst kv)) d)
  | _ => throw TypeError
  end.

(** [len(v)] *)
Definition len (v : pyval) : Exc Z :=
  match v with
  | PList l => ok (Z.of_nat (length l))
  | PStr s => ok (Z.of_nat (String.length s))
  | PDict d => ok (Z.of_nat (length d))
  | _ => throw TypeError
  end.

(** [isinstance(v, dict)] *)
Definition is_dict (v : pyval) : bool :=
  match v with PDict _ => true | _ => false end.

(** *** Numbers *)

Definition is_inf (f : float) : bool :=
  match Prim2SF f with S754_infinity _ => true | _ => false end.

(** [float(z)] for an int: correctly rounded, [OverflowError] past the range. *)
Definition float_of_int (z : Z) : Exc float :=
  let f := SF2Prim (binary_normalize prec emax z 0 false) in
  if is_inf f then throw OverflowError else ok f.

(** [a / b] on ints (true division): the correctly rounded quotient. *)
Definition int_truediv (a b : Z) : Exc float :=
  match b with
  | 0 => throw ZeroDivisionError
  | _ =>
    match a with
    | 0 => ok (if b <? 0 then (-0)%float else 0%float)
    | _ =>
      let sf z := S754_finite (z <? 0) (Z.to_pos (Z.abs z)) 0 in
      let f := SF2Prim (SFdiv prec emax (sf a) (sf b)) in
      if is_inf f then throw OverflowError else ok f
    end
  end.

(** [int(f)] for a float: truncation towards zero. *)
Definition int_of_float (f : float) : Exc Z :=
  match Prim2SF f with
  | S754_zero _ => ok 0
  | S754_infinity _ => throw OverflowError
  | S754_nan => throw ValueError
  | S754_finite s m e =>
    let a := if 0 <=? e then Z.pos m * 2 ^ e else Z.pos m / 2 ^ (- e) in
    ok (if s then - a else a)
  end.

(** [a / d] rounded to the nearest integer, ties to even. *)
Definition round_half_even (a d : Z) : Z :=
  let q := a / d in
  let r := a mod d in
  if 2 * r <? d then q
  else if d <? 2 * r then q + 1
  else if Z.even q then q else q + 1.

(** [m * 2^e] rounded to the nearest integer, ties to even. *)
Definition round_magnitude (m : positive) (e : Z) : Z :=
  if 0 <=? e then Z.pos m * 2 ^ e else round_half_even (Z.pos m) (2 ^ (- e)).

(** [round(f)] for a float, to an int: nearest, ties to even. *)
Definition round (f : float) : Exc Z :=
  match Prim2SF f with
  | S754_zero _ => ok 0
  | S754_infinity _ => throw OverflowError
  | S754_nan => throw ValueError
  | S754_finite s m e =>
    let a := round_magnitude m e in
    ok (if s then - a else a)
  end.

(** *** Strings

    The methods below are Python's on ASCII text: the whitespace of
    [is_space] is the ASCII whitespace, and [lower_char] changes the ASCII
    capitals only. *)

(** [c.isspace()] for an ASCII character *)
Definition is_space (c : ascii) : bool :=
  let n := nat_of_ascii c in
  ((9 <=? n)%nat && (n <=? 13)%nat) || ((28 <=? n)%nat && (n <=? 32)%nat).

Definition lower_char (c : ascii) : ascii :=
  let n := nat_of_ascii c in
  if ((65 <=? n)%nat && (n <=? 90)%nat)%bool then ascii_of_nat (n + 32) else c.

Fixpoint smap (f : ascii -> ascii) (s : string) : string :=
  match s with
  | EmptyString => EmptyString
  | String c r => String (f c) (smap f r)
  end.

(** [s.lower()], for ASCII text *)
Definition lower (s : string) : string := smap lower_char s.

(** [s.replace("-", "_")] *)
Definition replace_hyphens (s : string) : string :=
  smap (fun c => if Ascii.eqb c "-"%char then "_"%char else c) s.

Fixpoint lstrip (s : string) : string :=
  match s with
  | EmptyString => EmptyString
  | String c r => if is_space c then lstrip r else s
  end.

Fixpoint rstrip (s : string) : string :=
  match s with
  | EmptyString => EmptyString
  | String c r =>
    match rstrip r with
    | EmptyString => if is_space c then EmptyString else String c EmptyString
    | r' => String c r'
    end
  end.

(** [s.strip()], for ASCII text *)
Definition strip (s : string) : string := rstrip (lstrip s).

(** [len(s.split())] for ASCII text: the number of maximal runs of
    non-blank characters. *)
Fixpoint count_words (in_word : bool) (s : string) : Z :=
  match s with
  | EmptyString => 0
  | String c r =>
    if is_space c then count_words false r
    else (if in_word then 0 else 1) + count_words true r
  end.

(** [sep.join(l)] *)
Fixpoint join (sep : string) (l : list string) : string :=
  match l with
  | [] => ""
  | [s] => s
  | s :: r => s +:+ sep +:+ join sep r
  end.

End Py.

(** [len(l)] for a list *)
Definition length_Z {A} (l : list A) : Z := Z.of_nat (length l).

(** ** Domain entities ([domain/rag/entities.py])

    A field annotated [str | None] that the parser fills with [data.get(..)]
    holds whatever the JSON held: it is a [pyval] here, as at run time. *)

Inductive TextFormat := PLAIN | MARKDOWN.

Inductive ChartType := BAR | LINE | PIE | DOUGHNUT | HORIZONTAL_BAR | STACKED_BAR.

Inductive NoticeLevel := INFO | WARNING | IMPORTANT.

Module SourceReference.
Record t := mk
  { document_id : string;
    source_name : string;
    source_url : option string;
    source_date : option string;
    section_ref : option string }.
End SourceReference.

Module TextBlock.
Record t := mk
  { content : string;
    title : pyval;
    format : TextFormat;
    sources : list SourceReference.t }.
End TextBlock.

Module ChartDataPoint.
Record t := mk { label : string; value : float; category : pyval }.
End ChartDataPoint.

Module ChartSeries.
Record t := mk { name : pyval; data : list ChartDataPoint.t }.
End ChartSeries.

Module Chart.
Record t := mk
  { chart_type : ChartType;
    series : list ChartSeries.t;
    title : pyval;
    x_axis_label : pyval;
    y_axis_label : pyval;
    caption : pyval;
    sources : list SourceReference.t }.
End Chart.

Module TimelineEvent.
Record t := mk
  { date : string;
    label : string;
    description : pyval;
    reference_url : pyval;
    significance : Z }.
End TimelineEvent.

Module Timeline.
Record t := mk
  { events : list TimelineEvent.t;
    title : pyval;
    caption : pyval;
    sources : list SourceReference.t }.
End Timeline.

Module ComparisonItem.
Record t := mk { name : string; description : pyval }.
End ComparisonItem.

Module ComparisonAttribute.
Record t := mk { name : string; values : list string }.
End ComparisonAttribute.

Module Comparison.
Record t := mk
  { items : list ComparisonItem.t;
    attributes : list ComparisonAttribute.t;
    title : pyval;
    caption : pyval;
    sources : list SourceReference.t }.
End Comparison.

Module TableColumn.
Record t := mk { header : string; key : string; sortable : bool; align : string }.
End TableColumn.

Module DataTable.
Record t := mk
  { columns : list TableColumn.t;
    rows : list (list (string * string));
    title : pyval;
    caption : pyval;
    sources : list SourceReference.t }.
End DataTable.

Module Notice.
Record t := mk { message : string; level : NoticeLevel; title : pyval }.
End Notice.

Module MemberProfile.
Record t := mk
  { member_id : string;
    name : string;
    party : string;
    constituency : pyval;
    roles : list pyval;
    photo_url : pyval;
    biography : pyval;
    profile_url : pyval }.
End MemberProfile.

Module MemberProfiles.
Record t := mk
  { members : list MemberProfile.t;
    title : pyval;
    caption : pyval;
    sources : list SourceReference.t }.
End MemberProfiles.

Module PartyVote.
Record t := mk
  { party : string;
    votes_for : Z;
    votes_against : Z;
    abstentions : Z;
    not_voting : Z }.
End PartyVote.

Module VotingBreakdown.
Record t := mk
  { total_for : Z;
    total_against : Z;
    party_breakdown : list PartyVote.t;
    title : pyval;
    date : pyval;
    total_abstentions : Z;
    result : pyval;
    caption : pyval;
    sources : list SourceReference.t }.
End VotingBreakdown.

(** [ComponentContent]: the union of the eight payloads. *)
Inductive ComponentContent :=
| CTextBlock (c : TextBlock.t)
| CChart (c : Chart.t)
| CTimeline (c : Timeline.t)
| CComparison (c : Comparison.t)
| CDataTable (c : DataTable.t)
| CNotice (c : Notice.t)
| CMemberProfiles (c : MemberProfiles.t)
| CVotingBreakdown (c : VotingBreakdown.t).

Module Component.
Record t := mk { id : string; content : ComponentContent; size : pyval }.
End Component.

Module Section_.
Record t := mk { component_ids : list string; title : pyval; layout : pyval }.
End Section_.

Module Layout.
Record t := mk { sections : list Section_.t; title : pyval; subtitle : pyval }.
End Layout.

Module QueryFilters.
Record t := mk
  { document_types : option (list string);
    date_from : option string;
    date_to : option string;
    sources : option (list string);
    member_ids : option (list string) }.
End QueryFilters.

Module Query.
Record t := mk
  { text : string;
    session_id : option string;
    filters : option QueryFilters.t }.
End Query.

Module QueryMetadata.
Record t := mk
  { documents_retrieved : Z;
    chunks_used : Z;
    processing_time_ms : Z;
    model : string }.
End QueryMetadata.

(** ** Cost model ([domain/usage/entities.py]) *)

Module CostBreakdown.

Record t := mk
  { embedding_tokens : Z;
    embedding_cost_cents : Z;
    llm_input_tokens : Z;
    llm_output_tokens : Z;
    llm_cost_cents : Z;
    vector_queries : Z;
    vector_cost_cents : Z;
    margin_cents : Z;
    total_cents : Z;
    total_credits : Z }.

(** Cost rates (per 1K tokens, in cents) *)
Definition EMBEDDING_RATE_CENTS : float := 0.01%float.
Definition LLM_INPUT_RATE_CENTS : float := 1.0%float.
Definition LLM_OUTPUT_RATE_CENTS : float := 3.0%float.
Definition VECTOR_QUERY_RATE_CENTS : float := 0.01%float.

Definition zero : t := mk 0 0 0 0 0 0 0 0 0 0.

(** [max(1, round(x)) if cond else 0] *)
Definition floor_cent (cond : bool) (x : float) : Exc Z :=
  if cond then let? r := Py.round x in ok (Z.max 1 r) else ok 0.

Definition calculate (embedding_tokens llm_input_tokens llm_output_tokens
                      vector_queries : Z) (margin : float) : Exc t :=
  let? e := Py.int_truediv embedding_tokens 1000 in
  let embedding_cost_f := (e * EMBEDDING_RATE_CENTS)%float in
  let? i := Py.int_truediv llm_input_tokens 1000 in
  let llm_input_cost_f := (i * LLM_INPUT_RATE_CENTS)%float in
  let? o := Py.int_truediv llm_output_tokens 1000 in
  let llm_output_cost_f := (o * LLM_OUTPUT_RATE_CENTS)%float in
  let llm_cost_f := (llm_input_cost_f + llm_output_cost_f)%float in
  let? v := Py.float_of_int vector_queries in
  let vector_cost_f := (v * VECTOR_QUERY_RATE_CENTS)%float in
  let subtotal_f := (embedding_cost_f + llm_cost_f + vector_cost_f)%float in
  let margin_f := (subtotal_f * margin)%float in
  let total_f := (subtotal_f + margin_f)%float in
  let? embedding_cost := floor_cent (0 <? embedding_tokens) embedding_cost_f in
  let? llm_cost :=
    floor_cent (0 <? llm_input_tokens + llm_output_tokens) llm_cost_f in
  let? vector_cost := floor_cent (0 <? vector_queries) vector_cost_f in
  let? margin_cents :=
    floor_cent (PrimFloat.ltb 0 margin && PrimFloat.ltb 0 subtotal_f) margin_f in
  let? total := if PrimFloat.ltb 0 total_f then Py.round total_f else ok 0 in
  ok (mk embedding_tokens embedding_cost llm_input_tokens llm_output_tokens
         llm_cost vector_queries vector_cost margin_cents total total).

(** The float subtotal [calculate] works with: the sum of the three costs
    before the margin. *)
Definition subtotal (embedding_tokens llm_input_tokens llm_output_tokens
                     vector_queries : Z) : Exc float :=
  let? e := Py.int_truediv embedding_tokens 1000 in
  let embedding_cost_f := (e * EMBEDDING_RATE_CENTS)%float in
  let? i := Py.int_truediv llm_input_tokens 1000 in
  let llm_input_cost_f := (i * LLM_INPUT_RATE_CENTS)%float in
  let? o := Py.int_truediv llm_output_tokens 1000 in
  let llm_output_cost_f := (o * LLM_OUTPUT_RATE_CENTS)%float in
  let llm_cost_f := (llm_input_cost_f + llm_output_cost_f)%float in
  let? v := Py.float_of_int vector_queries in
  let vector_cost_f := (v * VECTOR_QUERY_RATE_CENTS)%float in
  ok (embedding_cost_f + llm_cost_f + vector_cost_f)%float.

End CostBreakdown.

Module RAGResult.
Record t := mk
  { layout : Layout.t;
    components : list Component.t;
    metadata : QueryMetadata.t;
    sources : list SourceReference.t;
    cached : bool;
    cost : option CostBreakdown.t }.

Definition set_metadata (r : t) (m : QueryMetadata.t) : t :=
  mk (layout r) (components r) m (sources r) (cached r) (cost r).

Definition set_cost (r : t) (c : CostBreakdown.t) : t :=
  mk (layout r) (components r) (metadata r) (sources r) (cached r) (Some c).
End RAGResult.

(** [Chunk] of [domain/ingestion/entities.py]; a UUID is its canonical text. *)
Module Chunk.
Record t := mk
  { id : string;
    document_id : string;
    text : string;
    position : Z;
    embedding : option (list float);
    metadata : gmap string string }.
End Chunk.

Module RetrievalResult.
Record t := mk
  { chunks : list Chunk.t;
    strategy_used : string;
    coverage : gmap string float;
    is_sufficient : bool;
    warnings : list string }.

Definition context_texts (r : t) : list string := map Chunk.text (chunks r).

Definition insufficient (reason : string) : t :=
  mk [] "single_focus" ∅ false [reason].
End RetrievalResult.

(** ** Agent entities

    Modelled from the spec: [domain/agents/entities.py] is not part of the
    sources; the records below follow section 3 of the specification and the
    way [test_agents.py], the retriever, the composer and the orchestrator
    construct and read them. *)

Inductive QueryType := FACTUAL | COMPARATIVE | TIMELINE | VOTING | ANALYTICAL.

Inductive ResponseDepth := BRIEF | STANDARD | COMPREHENSIVE.

Inductive RetrievalStrategy := SINGLE_FOCUS | MULTI_ENTITY | CHRONOLOGICAL | BROAD.

Module RetrievalStrategy_.
Definition value (s : RetrievalStrategy) : string :=
  match s with
  | SINGLE_FOCUS => "single_focus"
  | MULTI_ENTITY => "multi_entity"
  | CHRONOLOGICAL => "chronological"
  | BROAD => "broad"
  end.
End RetrievalStrategy_.

Module ExtractedEntities.
Record t := mk
  { parties : list string;
    members : list string;
    bills : list string;
    topics : list string;
    date_from : option string;
    date_to : option string;
    document_types : list string }.
End ExtractedEntities.

Module IntentResult.
Record t := mk
  { query_type : QueryType;
    entities : ExtractedEntities.t;
    expected_components : list string;
    retrieval_strategy : RetrievalStrategy;
    rewritten_queries : list string;
    response_depth : ResponseDepth;
    confidence : float }.
End IntentResult.

Module ExtractionResult.
Record t := mk
  { component_type : string;
    extracted_data : pyval;
    source_quotes : list string;
    completeness : float;
    warnings : list string }.

(** [extracted_data] non-empty and [completeness >= 0.5] *)
Definition is_complete (e : t) : bool :=
  Py.truthy (extracted_data e) && PrimFloat.leb 0.5%float (completeness e).
End ExtractionResult.

Module UnsupportedClaim.
Record t := mk
  { claim_text : string;
    component_id : option string;
    severity : string }.
End UnsupportedClaim.

Module VerificationResult.
Record t := mk
  { is_valid : bool;
    unsupported_claims : list UnsupportedClaim.t;
    confidence_score : float;
    warnings : list string }.
End VerificationResult.

(** The composer's token-usage dictionary; [None] is an absent key. *)
Module TokenUsage.
Record t := mk
  { input_tokens : option Z;
    output_tokens : option Z;
    model : option string }.
End TokenUsage.

(** Search filters: the dictionary built by [_build_filters]. *)
Module Filters.
Record t := mk
  { document_type : option (list string);
    date_from : option string;
    date_to : option string }.
End Filters.

(** The reply of the chat model: [response.content], [response.usage_metadata]. *)
Module LLMResponse.
Record t := mk
  { content : string;
    usage_metadata : option (option Z * option Z) }.
End LLMResponse.

(** ** Programs over the pipeline's capabilities

    Every call that leaves the process is an event: [Eff X] is a call answered
    by an [X]. A capability that can fail answers with an [Exc]. *)

Inductive Eff : Type -> Type :=
| Uuid4 : Eff string
| TimeTime : Eff float
| CacheGet (key : string) : Eff (Exc (option RAGResult.t))
| CacheSet (key : string) (value : RAGResult.t) (ttl_seconds : Z) : Eff (Exc unit)
| PlannerAnalyze (query : string) : Eff (Exc IntentResult.t)
| RetrieverRetrieve (query : string) (intent : IntentResult.t)
    : Eff (Exc RetrievalResult.t)
| ExtractorExtract (component_type : string) (context : list string)
    (intent : IntentResult.t) : Eff (Exc ExtractionResult.t)
| ComposerCompose (query : string) (intent : IntentResult.t)
    (extractions : list ExtractionResult.t)
    : Eff (Exc (Layout.t * list Component.t * TokenUsage.t))
| VerifierVerify (layout : Layout.t) (components : list Component.t)
    (context : list string) : Eff (Exc VerificationResult.t)
| EmbedSingle (text : string) : Eff (Exc (list float))
| VectorSearch (vector : list float) (k : Z) (filters : option Filters.t)
    : Eff (Exc (list Chunk.t))
| LLMInvoke (system human : string) : Eff (Exc LLMResponse.t).

Inductive Prog (A : Type) : Type :=
| Ret (a : A)
| Vis {X : Type} (e : Eff X) (k : X -> Prog A).

Arguments Ret {A} a.
Arguments Vis {A X} e k.

Fixpoint bind {A B} (p : Prog A) (f : A -> Prog B) : Prog B :=
  match p with
  | Ret a => f a
  | Vis e k => Vis e (fun x => bind (k x) f)
  end.

Definition call {X} (e : Eff X) : Prog X := Vis e Ret.

(** [M A]: an effectful Python computation that returns an [A] or raises. *)
Definition M (A : Type) : Type := Prog (Exc A).

Definition mret {A} (a : A) : M A := Ret (ok a).
Definition raise {A} (e : exn) : M A := Ret (throw e).
Definition lift {A} (m : Exc A) : M A := Ret m.

Definition mbind {A B} (p : M A) (f : A -> M B) : M B :=
  bind p (fun r => match r with inl e => Ret (inl e) | inr a => f a end).

(** [try: p except Exception as e: h e] *)
Definition try_except {A} (p : M A) (h : exn -> M A) : M A :=
  bind p (fun r => match r with inl e => h e | inr a => Ret (inr a) end).

(** A call to an infallible capability inside [M]. *)
Definition perform {X} (e : Eff X) : M X := Vis e (fun x => Ret (ok x)).

(** [await capability(..)]: the answer is a value or a raised exception. *)
Definition await {X} (e : Eff (Exc X)) : M X := Vis e Ret.

Notation "'let!' x ':=' m 'in' k" := (mbind m (fun x => k))
  (at level 10, x pattern, m at level 100, k at level 200).

(** [for a in l: acc = f acc a] *)
Fixpoint foldM {A S} (f : S -> A -> M S) (s : S) (l : list A) : M S :=
  match l with
  | [] => mret s
  | a :: r => let! s' := f s a in foldM f s' r
  end.

(** [asyncio.gather] with [return_exceptions=True]: every task runs to
    its end and contributes its value or its exception, in task order. *)
Fixpoint gather_exceptions {A} (tasks : list (M A)) : M (list (Exc A)) :=
  match tasks with
  | [] => mret []
  | t :: r =>
    bind t (fun x => let! xs := gather_exceptions r in mret (x :: xs))
  end.

(** [asyncio.gather] in its default mode: the first exception propagates. *)
Fixpoint gather {A} (tasks : list (M A)) : M (list A) :=
  match tasks with
  | [] => mret []
  | t :: r => let! x := t in let! xs := gather r in mret (x :: xs)
  end.

(** *** Runs

    An [Event] is a call together with its answer; [runs p tr a] says that the
    program [p], answered as the trace [tr] records, ends with [a]. *)

Inductive Event : Type :=
| Ev {X : Type} (e : Eff X) (x : X).

Fixpoint runs {A} (p : Prog A) (tr : list Event) (a : A) : Prop :=
  match p with
  | Ret a' => tr = [] /\ a = a'
  | Vis e k => exists x tr', tr = Ev e x :: tr' /\ runs (k x) tr' a
  end.

(** ** Builtins of the Python runtime that are kept abstract

    What [float(str)], [int(str)], [repr], [str(exception)], [json.loads],
    SHA-256 and a dataclass's [repr] compute is the runtime's business, and
    the text of the composer's prompt (its template is not among the sources)
    only travels to the language model; the pipeline's logic is proved for
    every reading of them. *)

Class Builtins := {
  float_of_str : string -> option float;
  int_of_str : string -> option Z;
  repr : pyval -> string;
  str_of_exn : exn -> string;
  json_loads : string -> option pyval;
  sha256_hexdigest : string -> string;
  repr_filters : QueryFilters.t -> string;
  build_prompt : string -> IntentResult.t -> list ExtractionResult.t -> string;
}.

Section Dynamic.

Context `{B : Builtins}.

(** [float(v)] *)
Definition py_float (v : pyval) : Exc float :=
  match v with
  | PBool b => ok (if b then 1%float else 0%float)
  | PInt z => Py.float_of_int z
  | PFloat f => ok f
  | PStr s => match float_of_str s with Some f => ok f | None => throw ValueError end
  | PNone | PList _ | PDict _ => throw TypeError
  end.

(** [int(v)] *)
Definition py_int (v : pyval) : Exc Z :=
  match v with
  | PBool b => ok (if b then 1 else 0)
  | PInt z => ok z
  | PFloat f => Py.int_of_float f
  | PStr s => match int_of_str s with Some z => ok z | None => throw ValueError end
  | PNone | PList _ | PDict _ => throw TypeError
  end.

(** [str(v)] *)
Definition py_str (v : pyval) : string :=
  match v with
  | PStr s => s
  | PNone => "None"
  | PBool b => if b then "True" else "False"
  | PInt z => pretty z
  | PFloat _ | PList _ | PDict _ => repr v
  end.

(** [v.strip()]: a method of [str] only. *)
Definition py_strip (v : pyval) : Exc string :=
  match v with
  | PStr s => ok (Py.strip s)
  | _ => throw AttributeError
  end.

(** [v[0]] *)
Definition py_first (v : pyval) : Exc pyval :=
  match v with
  | PList (x :: _) => ok x
  | PList [] => throw IndexError
  | PStr (String c _) => ok (PStr (String c EmptyString))
  | PStr EmptyString => throw IndexError
  | PDict _ => throw KeyError
  | _ => throw TypeError
  end.

(** [v == s] for a string literal [s] *)
Definition py_eq_str (v : pyval) (s : string) : bool :=
  match v with
  | PStr s' => String.eqb s' s
  | _ => false
  end.

(** [[x for x in l if f x]] *)
Fixpoint exc_filter {A} (f : A -> Exc bool) (l : list A) : Exc (list A) :=
  match l with
  | [] => ok []
  | a :: r =>
    let? b := f a in
    let? r' := exc_filter f r in
    ok (if b then a :: r' else r')
  end.

(** [any(f x for x in l)]: stops at the first hit. *)
Fixpoint exc_any {A} (f : A -> Exc bool) (l : list A) : Exc bool :=
  match l with
  | [] => ok false
  | a :: r => let? b := f a in if b then ok true else exc_any f r
  end.

(** A loop whose body may [return]: the first [Some] ends it. *)
Fixpoint exc_first {A R} (f : A -> Exc (option R)) (l : list A) : Exc (option R) :=
  match l with
  | [] => ok None
  | a :: r =>
    let? o := f a in
    match o with
    | Some x => ok (Some x)
    | None => exc_first f r
    end
  end.

Definition sum_Z (l : list Z) : Z := fold_left Z.add l 0.

End Dynamic.

(** ** Component constraints ([adapters/llm/constraints.py]) *)

Inductive ConstraintViolation := INSUFFICIENT_DATA | INVALID_STRUCTURE | POOR_FIT.

Module ValidationResult.
Record t := mk
  { is_valid : bool;
    violation : option ConstraintViolation;
    reason : option string;
    suggestion : option string }.

Definition valid : t := mk true None None None.

Definition invalid (v : ConstraintViolation) (reason : string)
           (suggestion : option string) : t :=
  mk false (Some v) (Some reason) suggestion.
End ValidationResult.

Module Constraints.
Section Validators.

Context `{B : Builtins}.

Definition CHART_MIN_DATA_POINTS := 2.
Definition CHART_MAX_DATA_POINTS := 20.
Definition PIE_MAX_SLICES := 7.
Definition LINE_MIN_DATA_POINTS := 3.
Definition COMPARISON_MIN_ITEMS := 2.
Definition COMPARISON_MAX_ITEMS := 5.
Definition COMPARISON_MIN_ATTRIBUTES := 1.
Definition TIMELINE_MIN_EVENTS := 2.
Definition TABLE_MIN_ROWS := 2.
Definition TABLE_MIN_COLUMNS := 2.
Definition VOTING_MIN_TOTAL_VOTES := 1.
Definition MEMBERS_MIN_COUNT := 1.

(** [len(s.get("data", []))] *)
Definition series_len (s : pyval) : Exc Z :=
  let? d := Py.get s "data" (PList []) in Py.len d.

(** The body of the numeric-value loop of [validate_chart], for one point. *)
Definition check_point_numeric (point : pyval) : Exc (option ValidationResult.t) :=
  let? value := Py.get point "value" PNone in
  match value with
  | PNone =>
    ok (Some (ValidationResult.invalid INVALID_STRUCTURE
                "Chart data point missing value" None))
  | _ =>
    match py_float value with
    | inr _ => ok None
    | inl TypeError | inl ValueError =>
      ok (Some (ValidationResult.invalid INVALID_STRUCTURE
                  ("Chart data point has non-numeric value: " +:+ py_str value) None))
    | inl e => throw e
    end
  end.

Definition check_series_numeric (s : pyval) : Exc (option ValidationResult.t) :=
  let? d := Py.get s "data" (PList []) in
  let? points := Py.iter d in
  exc_first check_point_numeric points.

(** The body of the negative-value loop, for one slice of a pie. *)
Definition check_point_negative (point : pyval) : Exc (option ValidationResult.t) :=
  let? value := Py.get point "value" (PInt 0) in
  let? f := py_float value in
  if PrimFloat.ltb f 0%float then
    ok (Some (ValidationResult.invalid POOR_FIT
                "Pie chart cannot display negative values" (Some "bar")))
  else ok None.

Definition check_line_series (s : pyval) : Exc (option ValidationResult.t) :=
  let? n := series_len s in
  if n <? LINE_MIN_DATA_POINTS then
    ok (Some (ValidationResult.invalid POOR_FIT
                ("Line chart series has only " +:+ pretty n +:+
                 " points, minimum is " +:+ pretty LINE_MIN_DATA_POINTS)
                (Some "bar")))
  else ok None.

(** The result of a block that may [return] early, else falls through. *)
Definition or_else (r : Exc (option ValidationResult.t))
           (k : Exc ValidationResult.t) : Exc ValidationResult.t :=
  let? o := r in
  match o with
  | Some v => ok v
  | None => k
  end.

Definition validate_chart (data : pyval) : Exc ValidationResult.t :=
  let? series := Py.get data "series" (PList []) in
  let? chart_type := Py.get data "chart_type" (PStr "bar") in
  if negb (Py.truthy series) then
    ok (ValidationResult.invalid INSUFFICIENT_DATA "Chart has no series data"
          (Some "text_block"))
  else
    (* Count total data points across all series *)
    let? ss := Py.iter series in
    let? lens := exc_map series_len ss in
    let total_points := sum_Z lens in
    if total_points <? CHART_MIN_DATA_POINTS then
      ok (ValidationResult.invalid INSUFFICIENT_DATA
            ("Chart has only " +:+ pretty total_points +:+
             " data point(s), minimum is " +:+ pretty CHART_MIN_DATA_POINTS)
            (Some "text_block"))
    else
      (* Check for valid numeric values *)
      or_else (exc_first check_series_numeric ss)
        ((* Chart-type-specific constraints *)
         if py_eq_str chart_type "pie" || py_eq_str chart_type "doughnut" then
           let? first_series :=
             (if Py.truthy series then py_first series else ok (PDict [])) in
           let? points := Py.get first_series "data" (PList []) in
           let? n := Py.len points in
           if PIE_MAX_SLICES <? n then
             ok (ValidationResult.invalid POOR_FIT
                   ("Pie chart has " +:+ pretty n +:+
                    " slices, maximum recommended is " +:+ pretty PIE_MAX_SLICES)
                   (Some "bar"))
           else
             let? ps := Py.iter points in
             or_else (exc_first check_point_negative ps) (ok ValidationResult.valid)
         else if py_eq_str chart_type "line" then
           or_else (exc_first check_line_series ss) (ok ValidationResult.valid)
         else ok ValidationResult.valid).

(** [v.get(k)] is truthy *)
Definition has (v : pyval) (k : string) : Exc bool :=
  let? x := Py.get v k PNone in ok (Py.truthy x).

(** [v.get(k1) and v.get(k2)], [v.get(k1) or v.get(k2)] as conditions *)
Definition has_both (k1 k2 : string) (v : pyval) : Exc bool :=
  let? b := has v k1 in if b then has v k2 else ok false.

Definition has_either (k1 k2 : string) (v : pyval) : Exc bool :=
  let? b := has v k1 in if b then ok true else has v k2.

Definition validate_comparison (data : pyval) : Exc ValidationResult.t :=
  let? items := Py.get data "items" (PList []) in
  let? attributes := Py.get data "attributes" (PList []) in
  (* Filter to items with names *)
  let? items_l := Py.iter items in
  let? valid_items := exc_filter (fun i => has i "name") items_l in
  let? attributes_l := Py.iter attributes in
  let? valid_attributes := exc_filter (has_both "name" "values") attributes_l in
  if length_Z valid_items <? COMPARISON_MIN_ITEMS then
    ok (ValidationResult.invalid INSUFFICIENT_DATA
          ("Comparison has only " +:+ pretty (length_Z valid_items) +:+
           " item(s), minimum is " +:+ pretty COMPARISON_MIN_ITEMS)
          (Some "text_block"))
  else if length_Z valid_attributes <? COMPARISON_MIN_ATTRIBUTES then
    ok (ValidationResult.invalid INSUFFICIENT_DATA
          "Comparison has no attributes to compare" (Some "text_block"))
  else
    (* Check that attribute values align with item count: a mismatch is
       logged as a warning, nothing more; [len(values)] may still raise. *)
    let? _ := exc_iter
                (fun attr =>
                   let? values := Py.get attr "values" (PList []) in
                   let? _ := Py.len values in ok tt)
                valid_attributes in
    ok ValidationResult.valid.

Definition validate_timeline (data : pyval) : Exc ValidationResult.t :=
  let? events := Py.get data "events" (PList []) in
  (* Filter to events with date or label *)
  let? es := Py.iter events in
  let? valid_events := exc_filter (has_either "date" "label") es in
  if length_Z valid_events <? TIMELINE_MIN_EVENTS then
    ok (ValidationResult.invalid INSUFFICIENT_DATA
          ("Timeline has only " +:+ pretty (length_Z valid_events) +:+
           " event(s), minimum is " +:+ pretty TIMELINE_MIN_EVENTS)
          (Some "text_block"))
  else ok ValidationResult.valid.

Definition validate_data_table (data : pyval) : Exc ValidationResult.t :=
  let? columns := Py.get data "columns" (PList []) in
  let? rows := Py.get data "rows" (PList []) in
  (* Filter to valid columns and rows *)
  let? cs := Py.iter columns in
  let? valid_columns := exc_filter (has_either "header" "key") cs in
  let? rs := Py.iter rows in
  let valid_rows := List.filter (fun r => Py.is_dict r && Py.truthy r) rs in
  if length_Z valid_columns <? TABLE_MIN_COLUMNS then
    ok (ValidationResult.invalid INSUFFICIENT_DATA
          ("Table has only " +:+ pretty (length_Z valid_columns) +:+
           " column(s), minimum is " +:+ pretty TABLE_MIN_COLUMNS)
          (Some "text_block"))
  else if length_Z valid_rows <? TABLE_MIN_ROWS then
    ok (ValidationResult.invalid INSUFFICIENT_DATA
          ("Table has only " +:+ pretty (length_Z valid_rows) +:+
           " row(s), minimum is " +:+ pretty TABLE_MIN_ROWS)
          (Some "text_block"))
  else ok ValidationResult.valid.

(** [int(p.get(k, 0)) > 0] *)
Definition positive_count (p : pyval) (k : string) : Exc bool :=
  let? v := Py.get p k (PInt 0) in
  let? n := py_int v in
  ok (0 <? n).

Definition validate_voting_breakdown (data : pyval) : Exc ValidationResult.t :=
  let? tf := Py.get data "total_for" (PInt 0) in
  let? total_for := py_int tf in
  let? ta := Py.get data "total_against" (PInt 0) in
  let? total_against := py_int ta in
  let? party_breakdown := Py.get data "party_breakdown" (PList []) in
  (* Check if we have meaningful vote totals *)
  let has_totals := (0 <? total_for) || (0 <? total_against) in
  (* Check if we have meaningful party breakdown *)
  let? ps := Py.iter party_breakdown in
  let? has_party_votes :=
    exc_any (fun p =>
               let? named := has p "party" in
               if named then
                 let? f := positive_count p "votes_for" in
                 if f then ok true else positive_count p "votes_against"
               else ok false)
            ps in
  if negb has_totals && negb has_party_votes then
    ok (ValidationResult.invalid INSUFFICIENT_DATA
          "Voting breakdown has no vote data" (Some "text_block"))
  else
    (* Validate party breakdown if present (a warning only) *)
    let? valid_parties := exc_filter (fun p => has p "party") ps in
    ok ValidationResult.valid.

Definition validate_member_profiles (data : pyval) : Exc ValidationResult.t :=
  let? members := Py.get data "members" (PList []) in
  (* Filter to members with names *)
  let? ms := Py.iter members in
  let? valid_members := exc_filter (fun m => has m "name") ms in
  if length_Z valid_members <? MEMBERS_MIN_COUNT then
    ok (ValidationResult.invalid INSUFFICIENT_DATA
          "Member profiles has no valid members" None)
  else ok ValidationResult.valid.

Definition validate_text_block (data : pyval) : Exc ValidationResult.t :=
  let? c := Py.get data "content" (PStr "") in
  let? content := py_strip c in
  if String.eqb content "" then
    ok (ValidationResult.invalid INSUFFICIENT_DATA "Text block has no content" None)
  else ok ValidationResult.valid.

Definition validate_notice (data : pyval) : Exc ValidationResult.t :=
  let? m := Py.get data "message" (PStr "") in
  let? message := py_strip m in
  if String.eqb message "" then
    ok (ValidationResult.invalid INSUFFICIENT_DATA "Notice has no message" None)
  else ok ValidationResult.valid.

(** Validator registry *)
Definition COMPONENT_VALIDATORS
  : list (string * (pyval -> Exc ValidationResult.t)) :=
  [ ("chart", validate_chart);
    ("comparison", validate_comparison);
    ("timeline", validate_timeline);
    ("data_table", validate_data_table);
    ("voting_breakdown", validate_voting_breakdown);
    ("member_profiles", validate_member_profiles);
    ("text_block", validate_text_block);
    ("notice", validate_notice) ].

Definition validate_component (component_type : string) (data : pyval)
  : ValidationResult.t :=
  match Py.assoc component_type COMPONENT_VALIDATORS with
  | None =>
    (* Unknown component type - let parse_component handle it *)
    ValidationResult.valid
  | Some validator =>
    match validator data with
    | inr v => v
    | inl e =>
      ValidationResult.invalid INVALID_STRUCTURE
        ("Validation error: " +:+ str_of_exn e) None
    end
  end.

End Validators.
End Constraints.

(** [Component.create]: a component with a fresh [uuid4] identifier. *)
Module Component_.
Definition create (content : ComponentContent) (size : pyval) : M Component.t :=
  let! u := perform Uuid4 in
  mret (Component.mk u content size).
End Component_.

(** ** Component parsing ([adapters/llm/components.py]) *)

Module Components.
Section Parsing.

Context `{B : Builtins}.

(** Type aliases for more lenient parsing *)
Definition TYPE_ALIASES : list (string * string) :=
  [ ("text", "text_block");
    ("textblock", "text_block");
    ("text-block", "text_block");
    ("paragraph", "text_block");
    ("voting", "voting_breakdown");
    ("vote", "voting_breakdown");
    ("vote_breakdown", "voting_breakdown");
    ("votes", "voting_breakdown");
    ("table", "data_table");
    ("datatable", "data_table");
    ("data-table", "data_table");
    ("compare", "comparison");
    ("members", "member_profiles");
    ("member", "member_profiles");
    ("profiles", "member_profiles");
    ("memberprofiles", "member_profiles");
    ("member-profiles", "member_profiles");
    ("graph", "chart");
    ("bar_chart", "chart");
    ("pie_chart", "chart");
    ("line_chart", "chart");
    ("events", "timeline");
    ("history", "timeline");
    ("alert", "notice");
    ("warning", "notice");
    ("info", "notice") ].

(** [ChartType(v)]: the member whose value equals [v], else [ValueError]. *)
Definition ChartType_of (v : pyval) : Exc ChartType :=
  match v with
  | PStr s =>
    if String.eqb s "bar" then ok BAR
    else if String.eqb s "line" then ok LINE
    else if String.eqb s "pie" then ok PIE
    else if String.eqb s "doughnut" then ok DOUGHNUT
    else if String.eqb s "horizontal_bar" then ok HORIZONTAL_BAR
    else if String.eqb s "stacked_bar" then ok STACKED_BAR
    else throw ValueError
  | _ => throw ValueError
  end.

(** [raw_type.lower().replace("-", "_").strip()] followed by the alias table *)
Definition normalize_type (raw_type : pyval) : Exc string :=
  match raw_type with
  | PStr s =>
    let normalized_type := Py.strip (Py.replace_hyphens (Py.lower s)) in
    ok (match Py.assoc normalized_type TYPE_ALIASES with
        | Some t => t
        | None => normalized_type
        end)
  | _ => throw AttributeError
  end.

(** [[f x for x in l if c x]]: the condition, then the element, item by item. *)
Fixpoint comprehension {A C} (c : A -> Exc bool) (f : A -> Exc C) (l : list A)
  : Exc (list C) :=
  match l with
  | [] => ok []
  | a :: r =>
    let? b := c a in
    if b then
      let? x := f a in
      let? xs := comprehension c f r in
      ok (x :: xs)
    else comprehension c f r
  end.

(** [str(d.get(k, default))] *)
Definition get_str (d : pyval) (k default : string) : Exc string :=
  let? v := Py.get d k (PStr default) in ok (py_str v).

(** [int(d.get(k, default))] *)
Definition get_int (d : pyval) (k : string) (default : Z) : Exc Z :=
  let? v := Py.get d k (PInt default) in py_int v.

(** [d.get(k)] *)
Definition get_opt (d : pyval) (k : string) : Exc pyval := Py.get d k PNone.

Definition parse_data_point (d : pyval) : Exc ChartDataPoint.t :=
  let? label := get_str d "label" "" in
  let? v := Py.get d "value" (PInt 0) in
  let? value := py_float v in
  let? category := get_opt d "category" in
  ok (ChartDataPoint.mk label value category).

(** The loop over [series_data]: a series with no data point is left out. *)
Fixpoint parse_series (series_data : list pyval) : Exc (list ChartSeries.t) :=
  match series_data with
  | [] => ok []
  | s :: r =>
    let? d := Py.get s "data" (PList []) in
    let? ds := Py.iter d in
    let? data_points := exc_map parse_data_point ds in
    match data_points with
    | [] => parse_series r
    | _ =>
      let? name := Py.get s "name" (PStr "") in
      let? rest := parse_series r in
      ok (ChartSeries.mk name data_points :: rest)
    end
  end.

Definition parse_chart (data : pyval) : Exc (option ComponentContent) :=
  let? chart_type_str := Py.get data "chart_type" (PStr "bar") in
  let chart_type :=
    match ChartType_of chart_type_str with
    | inr t => t
    | inl _ => BAR
    end in
  let? series_data := Py.get data "series" (PList []) in
  let? ss := Py.iter series_data in
  let? series := parse_series ss in
  match series with
  | [] =>
    (* This shouldn't happen if constraints passed, but handle gracefully *)
    ok None
  | _ =>
    let? title := get_opt data "title" in
    let? x_axis_label := get_opt data "x_axis_label" in
    let? y_axis_label := get_opt data "y_axis_label" in
    let? caption := get_opt data "caption" in
    ok (Some (CChart
                (Chart.mk chart_type series title x_axis_label y_axis_label
                          caption [])))
  end.

Definition parse_text_block (data : pyval) : Exc (option ComponentContent) :=
  let? c := Py.get data "content" (PStr "") in
  let? content := py_strip c in
  let? title := get_opt data "title" in
  ok (Some (CTextBlock (TextBlock.mk content title MARKDOWN []))).

Definition parse_notice (data : pyval) : Exc (option ComponentContent) :=
  let? m := Py.get data "message" (PStr "") in
  let? message := py_strip m in
  let? level_str := Py.get data "level" (PStr "info") in
  let level :=
    if py_eq_str level_str "warning" then WARNING
    else if py_eq_str level_str "important" then IMPORTANT
    else INFO in
  let? title := get_opt data "title" in
  ok (Some (CNotice (Notice.mk message level title))).

Definition parse_event (e : pyval) : Exc TimelineEvent.t :=
  let? date := get_str e "date" "" in
  let? label := get_str e "label" "" in
  let? description := get_opt e "description" in
  let? reference_url := get_opt e "reference_url" in
  let? significance := get_int e "significance" 3 in
  ok (TimelineEvent.mk date label description reference_url significance).

Definition parse_timeline (data : pyval) : Exc (option ComponentContent) :=
  let? events_data := Py.get data "events" (PList []) in
  let? es := Py.iter events_data in
  let? events :=
    comprehension (Constraints.has_either "date" "label") parse_event es in
  match events with
  | [] => ok None
  | _ =>
    let? title := get_opt data "title" in
    let? caption := get_opt data "caption" in
    ok (Some (CTimeline (Timeline.mk events title caption [])))
  end.

Definition parse_column (c : pyval) : Exc TableColumn.t :=
  let? header := get_str c "header" "" in
  let? key := get_str c "key" "" in
  let? sortable := Py.get c "sortable" (PBool false) in
  let? align := get_str c "align" "left" in
  ok (TableColumn.mk header key (Py.truthy sortable) align).

(** The loop over [rows]: only non-empty dictionaries are kept. *)
Definition parse_rows (rows : list pyval) : list (list (string * string)) :=
  omap (fun row =>
          match row with
          | PDict (kv :: r) =>
            Some (map (fun p => (fst p, py_str (snd p))) (kv :: r))
          | _ => None
          end) rows.

Definition parse_data_table (data : pyval) : Exc (option ComponentContent) :=
  let? columns_data := Py.get data "columns" (PList []) in
  let? cs := Py.iter columns_data in
  let? columns :=
    comprehension (Constraints.has_either "header" "key") parse_column cs in
  let? rows := Py.get data "rows" (PList []) in
  let? rs := Py.iter rows in
  let parsed_rows := parse_rows rs in
  match columns, parsed_rows with
  | [], _ | _, [] => ok None
  | _, _ =>
    let? title := get_opt data "title" in
    let? caption := get_opt data "caption" in
    ok (Some (CDataTable (DataTable.mk columns parsed_rows title caption [])))
  end.

Definition parse_item (i : pyval) : Exc ComparisonItem.t :=
  let? name := get_str i "name" "" in
  let? description := get_opt i "description" in
  ok (ComparisonItem.mk name description).

Definition parse_attribute (a : pyval) : Exc ComparisonAttribute.t :=
  let? name := get_str a "name" "" in
  let? v := Py.get a "values" (PList []) in
  let? vs := Py.iter v in
  ok (ComparisonAttribute.mk name (map py_str vs)).

Definition parse_comparison (data : pyval) : Exc (option ComponentContent) :=
  let? items_data := Py.get data "items" (PList []) in
  let? items_l := Py.iter items_data in
  let? items :=
    comprehension (fun i => Constraints.has i "name") parse_item items_l in
  let? attributes_data := Py.get data "attributes" (PList []) in
  let? attributes_l := Py.iter attributes_data in
  let? attributes :=
    comprehension (Constraints.has_both "name" "values") parse_attribute
                  attributes_l in
  match items, attributes with
  | [], _ | _, [] => ok None
  | _, _ =>
    let? title := get_opt data "title" in
    let? caption := get_opt data "caption" in
    ok (Some (CComparison (Comparison.mk items attributes title caption [])))
  end.

Definition parse_member (m : pyval) : Exc MemberProfile.t :=
  let? member_id := get_str m "member_id" "" in
  let? name := get_str m "name" "" in
  let? party := get_str m "party" "" in
  let? constituency := get_opt m "constituency" in
  let? r := Py.get m "roles" (PList []) in
  let? roles := Py.iter r in
  let? photo_url := get_opt m "photo_url" in
  let? biography := get_opt m "biography" in
  let? profile_url := get_opt m "profile_url" in
  ok (MemberProfile.mk member_id name party constituency roles photo_url
                       biography profile_url).

Definition parse_member_profiles (data : pyval) : Exc (option ComponentContent) :=
  let? members_data := Py.get data "members" (PList []) in
  let? ms := Py.iter members_data in
  let? members :=
    comprehension (fun m => Constraints.has m "name") parse_member ms in
  match members with
  | [] => ok None
  | _ =>
    let? title := get_opt data "title" in
    let? caption := get_opt data "caption" in
    ok (Some (CMemberProfiles (MemberProfiles.mk members title caption [])))
  end.

Definition parse_party_vote (p : pyval) : Exc PartyVote.t :=
  let? party := get_str p "party" "" in
  let? votes_for := get_int p "votes_for" 0 in
  let? votes_against := get_int p "votes_against" 0 in
  let? abstentions := get_int p "abstentions" 0 in
  let? not_voting := get_int p "not_voting" 0 in
  ok (PartyVote.mk party votes_for votes_against abstentions not_voting).

Definition parse_voting_breakdown (data : pyval) : Exc (option ComponentContent) :=
  let? party_data := Py.get data "party_breakdown" (PList []) in
  let? ps := Py.iter party_data in
  let? party_breakdown :=
    comprehension (fun p => Constraints.has p "party") parse_party_vote ps in
  let? total_for := get_int data "total_for" 0 in
  let? total_against := get_int data "total_against" 0 in
  let? title := get_opt data "title" in
  let? date := get_opt data "date" in
  let? total_abstentions := get_int data "total_abstentions" 0 in
  let? result := get_opt data "result" in
  let? caption := get_opt data "caption" in
  ok (Some (CVotingBreakdown
              (VotingBreakdown.mk total_for total_against party_breakdown title
                                  date total_abstentions result caption []))).

(** The branch of [parse_component] for a normalized type; [None] is
    [return None]. *)
Definition parse_content (comp_type : string) (data : pyval)
  : Exc (option ComponentContent) :=
  if String.eqb comp_type "text_block" then parse_text_block data
  else if String.eqb comp_type "notice" then parse_notice data
  else if String.eqb comp_type "chart" then parse_chart data
  else if String.eqb comp_type "timeline" then parse_timeline data
  else if String.eqb comp_type "data_table" then parse_data_table data
  else if String.eqb comp_type "comparison" then parse_comparison data
  else if String.eqb comp_type "member_profiles" then parse_member_profiles data
  else if String.eqb comp_type "voting_breakdown" then parse_voting_breakdown data
  else ok None.

(** Parse a component dictionary into a domain [Component]; [None] if the
    component data is insufficient or invalid. *)
Definition parse_component (data : pyval) : M (option Component.t) :=
  let! raw_type := lift (Py.get data "type" (PStr "")) in
  let! size := lift (Py.get data "size" PNone) in
  let! comp_type := lift (normalize_type raw_type) in
  (* Validate component data against constraints *)
  let validation := Constraints.validate_component comp_type data in
  if negb (ValidationResult.is_valid validation) then mret None
  else
    let! content := lift (parse_content comp_type data) in
    match content with
    | Some c => let! component := Component_.create c size in mret (Some component)
    | None => mret None
    end.

End Parsing.
End Components.

(** [l.insert(i, x)] for [0 <= i] *)
Definition py_insert {A} (i : Z) (x : A) (l : list A) : list A :=
  take (Z.to_nat i) l ++ x :: drop (Z.to_nat i) l.

(** [s.split(sep)[0]] and, when [sep] occurs in [s], the rest after its
    first occurrence. *)
Definition split_first (sep s : string) : string * option string :=
  match String.index 0 sep s with
  | Some i =>
    (String.substring 0 i s,
     Some (String.substring (i + String.length sep)
                            (String.length s - (i + String.length sep)) s))
  | None => (s, None)
  end.

(** ** The composer ([adapters/agents/composer.py]) *)

Module Composer.
Section Composer.

Context `{B : Builtins}.

(** [self.model] *)
Variable model : string.

Definition SYSTEM_MESSAGE : string :=
"You are a response composer. Format the extracted data into a structured response. Output JSON only.".

(** Extract JSON from response, handling markdown code blocks. *)
Definition _extract_json (content : string) : string :=
  match split_first "```json" content with
  | (_, Some rest) => fst (split_first "```" rest)
  | (_, None) =>
    match split_first "```" content with
    | (_, Some rest) => fst (split_first "```" rest)
    | (_, None) => content
    end
  end.

(** The loop over one section's raw components. *)
Definition add_component (acc : list Component.t * list string) (comp_data : pyval)
  : M (list Component.t * list string) :=
  let '(components, component_ids) := acc in
  let! component := Components.parse_component comp_data in
  match component with
  | Some c => mret (components ++ [c], component_ids ++ [Component.id c])
  | None => mret (components, component_ids)
  end.

(** The loop over the sections. *)
Definition add_section (acc : list Component.t * list Section_.t)
           (section_data : pyval) : M (list Component.t * list Section_.t) :=
  let '(components, sections) := acc in
  let! raw := lift (Py.get section_data "components" (PList [])) in
  let! comps := lift (Py.iter raw) in
  let! r := foldM add_component (components, []) comps in
  let '(components', component_ids) := r in
  match component_ids with
  | [] =>
    (* Skip sections with no valid components *)
    let! section_title := lift (Py.get section_data "title" (PStr "untitled")) in
    mret (components', sections)
  | _ =>
    let! title := lift (Py.get section_data "title" PNone) in
    let! layout := lift (Py.get section_data "layout" PNone) in
    mret (components', sections ++ [Section_.mk component_ids title layout])
  end.

(** Build Layout and Components from parsed JSON data. *)
Definition _build_layout_from_data (data : pyval)
  : M (Layout.t * list Component.t) :=
  let! raw := lift (Py.get data "sections" (PList [])) in
  let! section_datas := lift (Py.iter raw) in
  let! r := foldM add_section ([], []) section_datas in
  let '(components, sections) := r in
  let! title := lift (Py.get data "title" PNone) in
  let! subtitle := lift (Py.get data "subtitle" PNone) in
  mret (Layout.mk sections title subtitle, components).

(** Create a fallback layout with the raw content. *)
Definition _fallback_layout (content : string) : M (Layout.t * list Component.t) :=
  let! text :=
    Component_.create (CTextBlock (TextBlock.mk content PNone MARKDOWN [])) PNone in
  let section := Section_.mk [Component.id text] PNone PNone in
  let layout := Layout.mk [section] PNone PNone in
  mret (layout, [text]).

(** Parse LLM response into Layout and Components. *)
Definition _parse_response (content : string) : M (Layout.t * list Component.t) :=
  try_except
    (let json_str := _extract_json content in
     let! data :=
       lift (match json_loads json_str with
             | Some d => ok d
             | None => throw JSONDecodeError
             end) in
     _build_layout_from_data data)
    (fun e =>
       match e with
       | JSONDecodeError | IndexError | KeyError => _fallback_layout content
       | _ => raise e
       end).

(** Add notice components for extraction warnings if significant. *)
Definition _add_extraction_warnings (components : list Component.t)
           (extractions : list ExtractionResult.t) : M (list Component.t) :=
  let low_completeness :=
    map ExtractionResult.component_type
        (List.filter (fun e => PrimFloat.ltb (ExtractionResult.completeness e) 0.5%float)
                extractions) in
  match low_completeness with
  | [] => mret components
  | _ =>
    let warning_msg :=
      "Limited data available for: " +:+ Py.join ", " low_completeness +:+
      ". Some information may be incomplete." in
    let! notice :=
      Component_.create
        (CNotice (Notice.mk warning_msg INFO (PStr "Data Availability"))) PNone in
    (* Add notice near the beginning *)
    mret (py_insert (Z.min 1 (length_Z components)) notice components)
  end.

(** Generate a response when insufficient data is available. *)
Definition _insufficient_data_response (query : string)
           (extractions : list ExtractionResult.t)
  : M (Layout.t * list Component.t * TokenUsage.t) :=
  let warnings := concat (map ExtractionResult.warnings extractions) in
  let warning_text :=
    match warnings with
    | [] => "No relevant information found in the available documents."
    | _ => Py.join "; " warnings
    end in
  let! notice :=
    Component_.create
      (CNotice (Notice.mk ("Unable to answer this query: " +:+ warning_text)
                          WARNING (PStr "Insufficient Information"))) PNone in
  let! text :=
    Component_.create
      (CTextBlock
         (TextBlock.mk
            ("The query '" +:+ query +:+
             "' could not be answered with the available information. Try refining your search or using different keywords.")
            PNone MARKDOWN [])) PNone in
  let section := Section_.mk [Component.id notice; Component.id text] PNone PNone in
  let layout :=
    Layout.mk [section] (PStr "Unable to Answer Query")
              (PStr "Insufficient information available") in
  mret (layout, [notice; text], TokenUsage.mk (Some 0) (Some 0) (Some model)).

(** Generate a fallback response when composition fails. *)
Definition _fallback_response (query error : string)
  : M (Layout.t * list Component.t * TokenUsage.t) :=
  let! text :=
    Component_.create
      (CTextBlock
         (TextBlock.mk
            "An error occurred while generating the response. Please try again."
            PNone MARKDOWN [])) PNone in
  let section := Section_.mk [Component.id text] PNone PNone in
  let layout := Layout.mk [section] (PStr "Error") PNone in
  mret (layout, [text], TokenUsage.mk (Some 0) (Some 0) (Some model)).

(** Compose extracted data into a structured response. *)
Definition compose (query : string) (intent : IntentResult.t)
           (extractions : list ExtractionResult.t)
  : M (Layout.t * list Component.t * TokenUsage.t) :=
  (* Check if we have any usable extractions *)
  let valid_extractions := List.filter ExtractionResult.is_complete extractions in
  match valid_extractions with
  | [] => _insufficient_data_response query extractions
  | _ =>
    let prompt := build_prompt query intent valid_extractions in
    try_except
      (let! response := await (LLMInvoke SYSTEM_MESSAGE prompt) in
       let content := LLMResponse.content response in
       let usage :=
         match LLMResponse.usage_metadata response with
         | Some u => u
         | None => (None, None)
         end in
       let token_usage :=
         TokenUsage.mk (Some (default 0 (fst usage))) (Some (default 0 (snd usage)))
                       (Some model) in
       let! r := _parse_response content in
       let '(layout, components) := r in
       (* Add warnings from extractions if needed *)
       let! components' := _add_extraction_warnings components extractions in
       mret (layout, components', token_usage))
      (fun e => _fallback_response query (str_of_exn e))
  end.

End Composer.
End Composer.

(** [l[:n]]: a slice with a stop index; a negative [n] counts from the end. *)
Definition py_slice_to {A} (n : Z) (l : list A) : list A :=
  if 0 <=? n then take (Z.to_nat n) l
  else take (Z.to_nat (length_Z l + n)) l.

(** [sorted(l, key=key)] for string keys: stable, ascending by code point. *)
Fixpoint insert_by {A} (key : A -> string) (x : A) (l : list A) : list A :=
  match l with
  | [] => [x]
  | y :: r =>
    if String.ltb (key y) (key x) then y :: insert_by key x r
    else x :: y :: r
  end.

Definition py_sorted {A} (key : A -> string) (l : list A) : list A :=
  foldr (insert_by key) [] l.

(** ** The retriever ([adapters/agents/retriever.py]) *)

Module IntentDrivenRetriever.
Section Retriever.

Variable default_top_k : Z.
Variable min_chunks_for_sufficiency : Z.

(** Build vector store filters from intent entities. *)
Definition _build_filters (intent : IntentResult.t) : option Filters.t :=
  let e := IntentResult.entities intent in
  let document_type :=
    match ExtractedEntities.document_types e with
    | [] => None
    | ts => Some ts
    end in
  let nonempty (o : option string) :=
    match o with
    | Some s => if String.eqb s "" then None else Some s
    | None => None
    end in
  let date_from := nonempty (ExtractedEntities.date_from e) in
  let date_to := nonempty (ExtractedEntities.date_to e) in
  match document_type, date_from, date_to with
  | None, None, None => None
  | _, _, _ => Some (Filters.mk document_type date_from date_to)
  end.

Definition sufficient (chunks : list Chunk.t) : bool :=
  min_chunks_for_sufficiency <=? length_Z chunks.

(** Standard single embedding search. *)
Definition _retrieve_single_focus (query : string) (intent : IntentResult.t)
  : M RetrievalResult.t :=
  let! embedding := await (EmbedSingle query) in
  let filters := _build_filters intent in
  let! chunks := await (VectorSearch embedding default_top_k filters) in
  let is_sufficient := sufficient chunks in
  mret (RetrievalResult.mk chunks (RetrievalStrategy_.value SINGLE_FOCUS) ∅
          is_sufficient
          (if is_sufficient then [] else ["Few relevant documents found"])).

(** Execute a single search for a rewritten query. *)
Definition _search_single (query : string) (intent : IntentResult.t)
  : M (list Chunk.t) :=
  let! embedding := await (EmbedSingle query) in
  let filters := _build_filters intent in
  await (VectorSearch embedding (default_top_k / 2) filters).

(** The inner loop of the merge: a chunk whose id was seen is skipped. *)
Definition merge_chunk (acc : list Chunk.t * gset string) (chunk : Chunk.t)
  : list Chunk.t * gset string :=
  let '(all_chunks, seen_ids) := acc in
  let chunk_id := Chunk.id chunk in
  if decide (chunk_id ∈ seen_ids) then acc
  else (all_chunks ++ [chunk], {[chunk_id]} ∪ seen_ids).

(** The outer loop of the merge, over [zip(rewritten_queries, results)]. *)
Fixpoint merge_results (rqs : list string) (results : list (Exc (list Chunk.t)))
         (acc : list Chunk.t * gset string * gmap string float)
  : Exc (list Chunk.t * gset string * gmap string float) :=
  match rqs, results with
  | rq :: rqs', result :: results' =>
    match result with
    | inl _ => merge_results rqs' results' acc
    | inr query_chunks =>
      let '(chunks_seen, coverage) := acc in
      let? c := Py.int_truediv (length_Z query_chunks) default_top_k in
      let coverage' := <[rq := c]> coverage in
      merge_results rqs' results'
                    (fold_left merge_chunk query_chunks chunks_seen, coverage')
    end
  | _, _ => ok acc
  end.

(** Parallel searches for multiple entities, then merge and dedupe. *)
Definition _retrieve_multi_entity (query : string) (intent : IntentResult.t)
  : M RetrievalResult.t :=
  let rewritten_queries :=
    match IntentResult.rewritten_queries intent with
    | [] => [query]
    | rqs => rqs
    end in
  (* Execute parallel searches *)
  let search_tasks := map (fun rq => _search_single rq intent) rewritten_queries in
  let! results := gather_exceptions search_tasks in
  (* Merge and dedupe chunks *)
  let! merged := lift (merge_results rewritten_queries results ([], ∅, ∅)) in
  let '(all_chunks, _, coverage) := merged in
  let chunks := py_slice_to (default_top_k * 2) all_chunks in
  let is_sufficient := sufficient chunks in
  mret (RetrievalResult.mk chunks (RetrievalStrategy_.value MULTI_ENTITY) coverage
          is_sufficient
          (if is_sufficient then [] else ["Limited coverage for some entities"])).

Definition date_key (c : Chunk.t) : string :=
  default "9999-99-99" (Chunk.metadata c !! "date").

(** Date-filtered search for chronological queries. *)
Definition _retrieve_chronological (query : string) (intent : IntentResult.t)
  : M RetrievalResult.t :=
  let! embedding := await (EmbedSingle query) in
  let filters := _build_filters intent in
  let! chunks := await (VectorSearch embedding default_top_k filters) in
  (* Sort chunks by date if available in metadata *)
  let sorted_chunks := py_sorted date_key chunks in
  let is_sufficient := sufficient sorted_chunks in
  mret (RetrievalResult.mk sorted_chunks (RetrievalStrategy_.value CHRONOLOGICAL) ∅
          is_sufficient
          (if is_sufficient then [] else ["Few chronological events found"])).

(** Broader search with diversity for analytical queries. *)
Definition _retrieve_broad (query : string) (intent : IntentResult.t)
  : M RetrievalResult.t :=
  let! embedding := await (EmbedSingle query) in
  (* Don't apply strict filters for broad search *)
  let filters :=
    match ExtractedEntities.document_types (IntentResult.entities intent) with
    | [] => None
    | ts => Some (Filters.mk (Some ts) None None)
    end in
  (* Retrieve more chunks for diversity *)
  let! chunks := await (VectorSearch embedding (default_top_k + 10) filters) in
  let is_sufficient := sufficient chunks in
  mret (RetrievalResult.mk chunks (RetrievalStrategy_.value BROAD) ∅
          is_sufficient
          (if is_sufficient then [] else ["Limited diverse content found"])).

(** Retrieve context chunks based on query and classified intent. *)
Definition retrieve (query : string) (intent : IntentResult.t)
  : M RetrievalResult.t :=
  match IntentResult.retrieval_strategy intent with
  | MULTI_ENTITY => _retrieve_multi_entity query intent
  | CHRONOLOGICAL => _retrieve_chronological query intent
  | BROAD => _retrieve_broad query intent
  | SINGLE_FOCUS => _retrieve_single_focus query intent
  end.

End Retriever.
End IntentDrivenRetriever.

(** ** The Redis cache adapter's key ([adapters/cache/redis.py]) *)

Module RedisCache.
Section RedisCache.

Context `{B : Builtins}.

Definition query_key (query : Query.t) : string :=
  let key_parts :=
    match Query.filters query with
    | Some f => [Query.text query; repr_filters f]
    | None => [Query.text query]
    end in
  let key_str := Py.join "|" key_parts in
"rag:query:" +:+ String.substring 0 16 (sha256_hexdigest key_str).

End RedisCache.
End RedisCache.

(** ** The orchestrator ([domain/rag/use_cases.py]) *)

Module ExecuteQueryResult.
Record t := mk { result : RAGResult.t; cost : CostBreakdown.t }.
End ExecuteQueryResult.

Module ExecuteQuery.
Section ExecuteQuery.

Context `{B : Builtins}.

(** [self.cache.query_key], [self.verifier is not None], [self.cache_ttl_seconds],
    [self.cost_margin] *)
Variable query_key : Query.t -> string.
Variable verifier : bool.
Variable cache_ttl_seconds : Z.
Variable cost_margin : float.

(** [int((time.time() - start_time) * 1000)] *)
Definition elapsed_ms (start_time : float) : M Z :=
  let! now := perform TimeTime in
  lift (Py.int_of_float ((now - start_time) * 1000)%float).

(** Generate a response when insufficient context is available. *)
Definition _insufficient_data_response (query : Query.t) (intent : IntentResult.t)
           (warnings : list string) : M RAGResult.t :=
  let warning_text :=
    match warnings with
    | [] => "Limited relevant information found."
    | _ => Py.join "; " warnings
    end in
  let! notice :=
    Component_.create
      (CNotice (Notice.mk ("Unable to fully answer this query: " +:+ warning_text)
                          WARNING (PStr "Limited Information"))) PNone in
  let suggestion_text :=
    "The query '" +:+ Query.text query +:+ "' could not be fully answered. " +:+
    "Try:
" +:+
    "- Using different keywords
" +:+
    "- Narrowing the date range
" +:+
    "- Specifying particular politicians or parties" in
  let! text :=
    Component_.create
      (CTextBlock (TextBlock.mk suggestion_text PNone MARKDOWN [])) PNone in
  let section := Section_.mk [Component.id notice; Component.id text] PNone PNone in
  let layout :=
    Layout.mk [section] (PStr "Unable to Answer Query")
              (PStr "Insufficient information available") in
  mret (RAGResult.mk layout [notice; text]
          (QueryMetadata.mk 0 0 0 "none") [] false None).

(** Add a notice about verification issues without removing components. *)
Definition _filter_unsupported_claims (components : list Component.t)
           (verification : VerificationResult.t) : M (list Component.t) :=
  match VerificationResult.unsupported_claims verification with
  | [] => mret components
  | claims =>
    (* Count severity *)
    let errors :=
      List.filter (fun c => String.eqb (UnsupportedClaim.severity c) "error") claims in
    match errors with
    | [] => mret components
    | _ =>
      let! notice :=
        Component_.create
          (CNotice
             (Notice.mk
                "Some information could not be fully verified against source documents. Please verify critical facts independently."
                WARNING (PStr "Verification Warning"))) PNone in
      (* Insert at position 1 (after first component) *)
      mret (py_insert (Z.min 1 (length_Z components)) notice components)
    end
  end.

(** Generate a response when the pipeline encounters an error. *)
Definition _error_response (query : Query.t) (error : string) (start_time : float)
  : M ExecuteQueryResult.t :=
  let! processing_time_ms := elapsed_ms start_time in
  let! notice :=
    Component_.create
      (CNotice
         (Notice.mk
            "An error occurred while processing your query. Please try again."
            WARNING (PStr "Error"))) PNone in
  let section := Section_.mk [Component.id notice] PNone PNone in
  let layout := Layout.mk [section] (PStr "Error Processing Query") PNone in
  let result :=
    RAGResult.mk layout [notice]
      (QueryMetadata.mk 0 0 processing_time_ms "error") [] false None in
  mret (ExecuteQueryResult.mk result CostBreakdown.zero).

(** [x or None] for an optional string *)
Definition or_None (o : option string) : option string :=
  match o with
  | Some s => if String.eqb s "" then None else Some s
  | None => None
  end.

(** Aggregate unique document sources from retrieved chunks. *)
Definition _aggregate_sources (chunks : list Chunk.t) : list SourceReference.t :=
  fold_left
    (fun seen_docs chunk =>
       let doc_id := Chunk.document_id chunk in
       if existsb (fun s => String.eqb (SourceReference.document_id s) doc_id)
                  seen_docs
       then seen_docs
       else
         seen_docs ++
         [SourceReference.mk doc_id
            (default "Unknown" (Chunk.metadata chunk !! "source_name"))
            (or_None (Chunk.metadata chunk !! "source_url"))
            (or_None (Chunk.metadata chunk !! "source_date"))
            None])
    chunks [].

(** Step 6 of [execute]: verify (optional), check claims against context. *)
Definition verify_step (layout : Layout.t) (components : list Component.t)
           (context_texts : list string) : M (list Component.t) :=
  if verifier && match context_texts with [] => false | _ => true end then
    let! verification := await (VerifierVerify layout components context_texts) in
    if negb (VerificationResult.is_valid verification) then
      _filter_unsupported_claims components verification
    else mret components
  else mret components.

(** [asyncio.gather] of the extractions: all of them are started; the first
    exception, if any, is what the [await] raises. *)
Definition gather_all {A} (tasks : list (M A)) : M (list A) :=
  let! results := gather_exceptions tasks in
  lift (exc_map (fun r => r) results).

(** The body of the [try] block of [execute]. *)
Definition pipeline (query : Query.t) (start_time : float) (cache_key : string)
  : M ExecuteQueryResult.t :=
  let total_input_tokens := 0 in
  let total_output_tokens := 0 in
  let model_used := "unknown" in
  (* Step 1: Plan - Classify intent and extract entities *)
  let! intent := await (PlannerAnalyze (Query.text query)) in
  (* Step 2: Retrieve - Get context using intent-driven strategy *)
  let! retrieval := await (RetrieverRetrieve (Query.text query) intent) in
  (* Step 3: Check sufficiency *)
  if negb (RetrievalResult.is_sufficient retrieval) then
    let! result :=
      _insufficient_data_response query intent
        (RetrievalResult.warnings retrieval) in
    let! processing_time_ms := elapsed_ms start_time in
    let result' :=
      RAGResult.set_metadata result
        (QueryMetadata.mk 0 (length_Z (RetrievalResult.chunks retrieval))
                          processing_time_ms model_used) in
    mret (ExecuteQueryResult.mk result' CostBreakdown.zero)
  else
    (* Step 4: Extract - Grounded extraction for each component type *)
    let context_texts := RetrievalResult.context_texts retrieval in
    let extraction_tasks :=
      map (fun component_type =>
             await (ExtractorExtract component_type context_texts intent))
          (IntentResult.expected_components intent) in
    let! extractions := gather_all extraction_tasks in
    (* Step 5: Compose - Format extracted data into response *)
    let! composed :=
      await (ComposerCompose (Query.text query) intent extractions) in
    let '(layout, components, token_usage) := composed in
    let total_input_tokens :=
      total_input_tokens + default 0 (TokenUsage.input_tokens token_usage) in
    let total_output_tokens :=
      total_output_tokens + default 0 (TokenUsage.output_tokens token_usage) in
    let model_used := default model_used (TokenUsage.model token_usage) in
    (* Step 6: Verify (optional) - Check claims against context *)
    let! components := verify_step layout components context_texts in
    let! processing_time_ms := elapsed_ms start_time in
    (* Aggregate sources from retrieved chunks *)
    let sources := _aggregate_sources (RetrievalResult.chunks retrieval) in
    (* Build result *)
    let document_ids : gset string :=
      list_to_set (map Chunk.document_id (RetrievalResult.chunks retrieval)) in
    let result :=
      RAGResult.mk layout components
        (QueryMetadata.mk (Z.of_nat (size document_ids))
                          (length_Z (RetrievalResult.chunks retrieval))
                          processing_time_ms model_used)
        sources false None in
    (* Calculate cost (approximate tokens for planner/extractor) *)
    let embedding_tokens :=
      Py.count_words false (Query.text query) *
      length_Z (IntentResult.rewritten_queries intent) in
    let vector_queries :=
      if String.eqb (RetrievalStrategy_.value (IntentResult.retrieval_strategy intent))
                    "multi_entity"
      then length_Z (IntentResult.rewritten_queries intent)
      else 1 in
    let! cost :=
      lift (CostBreakdown.calculate embedding_tokens total_input_tokens
              total_output_tokens vector_queries cost_margin) in
    let result := RAGResult.set_cost result cost in
    (* Cache result *)
    let! _ := await (CacheSet cache_key result cache_ttl_seconds) in
    mret (ExecuteQueryResult.mk result cost).

(** Execute the agent-based RAG pipeline. *)
Definition execute (query : Query.t) : M ExecuteQueryResult.t :=
  let! start_time := perform TimeTime in
  let cache_key := query_key query in
  (* Check cache *)
  let! cached := await (CacheGet cache_key) in
  match cached with
  | Some cached => mret (ExecuteQueryResult.mk cached CostBreakdown.zero)
  | None =>
    try_except (pipeline query start_time cache_key)
      (fun e => _error_response query (str_of_exn e) start_time)
  end.

End ExecuteQuery.
End ExecuteQuery.

(** ** Reading a trace *)

(** The answers a trace records, per capability. *)
Definition cache_answer (ev : Event) : option (Exc (option RAGResult.t)) :=
  match ev with
  | Ev e x =>
    match e in Eff X return X -> option (Exc (option RAGResult.t)) with
    | CacheGet _ => fun x => Some x
    | _ => fun _ => None
    end x
  end.

Definition retriever_answer (ev : Event) : option (Exc RetrievalResult.t) :=
  match ev with
  | Ev e x =>
    match e in Eff X return X -> option (Exc RetrievalResult.t) with
    | RetrieverRetrieve _ _ => fun x => Some x
    | _ => fun _ => None
    end x
  end.

Definition verifier_answer (ev : Event) : option (Exc VerificationResult.t) :=
  match ev with
  | Ev e x =>
    match e in Eff X return X -> option (Exc VerificationResult.t) with
    | VerifierVerify _ _ _ => fun x => Some x
    | _ => fun _ => None
    end x
  end.

Definition time_answer (ev : Event) : option float :=
  match ev with
  | Ev e x =>
    match e in Eff X return X -> option float with
    | TimeTime => fun x => Some x
    | _ => fun _ => None
    end x
  end.

(** The text of an embedder call. *)
Definition embed_call (ev : Event) : option string :=
  match ev with
  | Ev (EmbedSingle text) _ => Some text
  | _ => None
  end.

(** The chunks a vector search answered with, when it did not fail. *)
Definition search_result (ev : Event) : option (list Chunk.t) :=
  match ev with
  | Ev e x =>
    match e in Eff X return X -> option (list Chunk.t) with
    | VectorSearch _ _ _ =>
      fun x => match x with inr chunks => Some chunks | inl _ => None end
    | _ => fun _ => None
    end x
  end.

(** What kind of capability an event calls. *)
Inductive EventKind :=
| KUuid4 | KTime | KCacheGet | KCacheSet | KPlanner | KRetriever | KExtractor
| KComposer | KVerifier | KEmbed | KSearch | KLLM.

Definition kind_of {X} (e : Eff X) : EventKind :=
  match e with
  | Uuid4 => KUuid4
  | TimeTime => KTime
  | CacheGet _ => KCacheGet
  | CacheSet _ _ _ => KCacheSet
  | PlannerAnalyze _ => KPlanner
  | RetrieverRetrieve _ _ => KRetriever
  | ExtractorExtract _ _ _ => KExtractor
  | ComposerCompose _ _ _ => KComposer
  | VerifierVerify _ _ _ => KVerifier
  | EmbedSingle _ => KEmbed
  | VectorSearch _ _ _ => KSearch
  | LLMInvoke _ _ => KLLM
  end.

Definition event_kind (ev : Event) : EventKind :=
  match ev with Ev e _ => kind_of e end.

Definition kinds (tr : list Event) : list EventKind := map event_kind tr.

(** ** A sample runtime and sample data

    One reading of the abstract builtins, to run the model on concrete inputs. *)

Definition sample_runtime : Builtins :=
  {| float_of_str := fun _ => None;
     int_of_str := fun _ => None;
     repr := fun _ => "<repr>";
     str_of_exn := fun _ => "<exception>";
     json_loads := fun _ => None;
     sha256_hexdigest := fun s => s;
     repr_filters := fun _ => "QueryFilters()";
     build_prompt := fun query _ _ => query |}.

Definition sample_query : Query.t := Query.mk "What is a money bill?" None None.

Definition sample_key : string :=
  @RedisCache.query_key sample_runtime sample_query.

Definition sample_intent : IntentResult.t :=
  IntentResult.mk FACTUAL (ExtractedEntities.mk [] [] [] [] None None [])
                  ["text_block"] SINGLE_FOCUS ["What is a money bill?"]
                  STANDARD 0.8%float.

Definition sample_chunk (id date : string) : Chunk.t :=
  Chunk.mk id ("doc-" +:+ id) ("text of " +:+ id) 0 None {[ "date" := date ]}.

Definition sample_text (id content : string) : Component.t :=
  Component.mk id (CTextBlock (TextBlock.mk content PNone MARKDOWN [])) PNone.

(** A result as the pipeline stores it after a cache miss. *)
Definition sample_result : RAGResult.t :=
  RAGResult.mk
    (Layout.mk [Section_.mk ["c1"] PNone PNone] (PStr "Money bills") PNone)
    [sample_text "c1" "A money bill deals with taxation or spending."]
    (QueryMetadata.mk 1 3 120 "gpt-4o") [] false (Some CostBreakdown.zero).


(** The retriever found a single chunk: below the sufficiency threshold. *)
Definition sample_insufficient : RetrievalResult.t :=
  RetrievalResult.mk [sample_chunk "x" "2024-01-15"] "single_focus" ∅ false
                     ["Few relevant documents found"].

Definition sample_insufficient_trace : list Event :=
  [Ev TimeTime 100%float;
   Ev (CacheGet sample_key) (ok None);
   Ev (PlannerAnalyze "What is a money bill?") (ok sample_intent);
   Ev (RetrieverRetrieve "What is a money bill?" sample_intent)
      (ok sample_insufficient);
   Ev Uuid4 "n1"; Ev Uuid4 "t1"; Ev TimeTime 100.25%float].

Definition sample_insufficient_result : RAGResult.t :=
  RAGResult.mk
    (Layout.mk [Section_.mk ["n1"; "t1"] PNone PNone]
               (PStr "Unable to Answer Query")
               (PStr "Insufficient information available"))
    [Component.mk "n1"
       (CNotice
          (Notice.mk
             "Unable to fully answer this query: Few relevant documents found"
             WARNING (PStr "Limited Information"))) PNone;
     Component.mk "t1"
       (CTextBlock
          (TextBlock.mk
             ("The query 'What is a money bill?' could not be fully answered. " +:+
              "Try:
" +:+
              "- Using different keywords
" +:+
              "- Narrowing the date range
" +:+
              "- Specifying particular politicians or parties")
             PNone MARKDOWN [])) PNone]
    (QueryMetadata.mk 0 1 250 "unknown") [] false None.


(** Some unsupported claim has severity ["error"]. *)
Definition has_error_claim (verification : VerificationResult.t) : bool :=
  existsb (fun c => String.eqb (UnsupportedClaim.severity c) "error")
          (VerificationResult.unsupported_claims verification).

(** The warning notice of [_filter_unsupported_claims], with identifier [id]. *)
Definition verification_notice (id : string) : Component.t :=
  Component.mk id
    (CNotice
       (Notice.mk
          "Some information could not be fully verified against source documents. Please verify critical facts independently."
          WARNING (PStr "Verification Warning"))) PNone.

(** Three components as a composer returns them, and their layout. *)
Definition sample_components : list Component.t :=
  [sample_text "c1" "Summary."; sample_text "c2" "Details."; sample_text "c3" "Outlook."].

Definition sample_layout : Layout.t :=
  Layout.mk [Section_.mk ["c1"; "c2"; "c3"] PNone PNone] (PStr "Answer") PNone.

Definition sample_error_claim : UnsupportedClaim.t :=
  UnsupportedClaim.mk "Wrong fact" (Some "c2") "error".

(** ** Specification-level notions for the retriever *)

(** The queries the multi-entity strategy searches for: the rewritten queries,
    or the query itself when there are none. *)
Definition effective_queries (query : string) (intent : IntentResult.t)
  : list string :=
  match IntentResult.rewritten_queries intent with
  | [] => [query]
  | rqs => rqs
  end.

(** A list of chunks with every chunk whose id was already seen removed. *)
Fixpoint first_occurrences (l : list Chunk.t) : list Chunk.t :=
  match l with
  | [] => []
  | c :: r =>
    c :: List.filter (fun d => negb (String.eqb (Chunk.id d) (Chunk.id c)))
                     (first_occurrences r)
  end.

(** The date of a chunk: [metadata["date"]], when the key is present. *)
Definition chunk_date (c : Chunk.t) : option string := Chunk.metadata c !! "date".

(** [a] may come before [b] in chronological order: their dates ascend as
    strings, a missing date counting as ["9999-99-99"]. *)
Definition chronological (a b : Chunk.t) : Prop :=
  match chunk_date a, chunk_date b with
  | Some da, Some db => String.leb da db = true
  | Some da, None => String.leb da "9999-99-99" = true
  | None, Some db => String.leb "9999-99-99" db = true
  | None, None => True
  end.

Definition undated (c : Chunk.t) : Prop := chunk_date c = None.

(** Every date that is present sorts strictly before the sentinel. *)
Definition dates_below_sentinel (l : list Chunk.t) : Prop :=
  Forall (fun c => forall d, chunk_date c = Some d ->
                             String.ltb d "9999-99-99" = true) l.

(** Chunks for the two examples of the specification. *)
Definition chunk_x := sample_chunk "x" "2024-03".
Definition chunk_y := sample_chunk "y" "2024-01".
Definition chunk_z := sample_chunk "z" "2024-02".
Definition chunk_u : Chunk.t := Chunk.mk "u" "doc-u" "text of u" 0 None ∅.

(** A chunk whose date sorts above the sentinel. *)
Definition chunk_ad := sample_chunk "ad" "A.D. 2024".

Definition comparative_intent : IntentResult.t :=
  IntentResult.mk COMPARATIVE
    (ExtractedEntities.mk ["Labor"; "Liberal"] [] [] [] None None [])
    ["text_block"; "comparison"] MULTI_ENTITY
    ["Labor climate policy"; "Liberal climate policy"] STANDARD 0.9%float.

Definition timeline_intent : IntentResult.t :=
  IntentResult.mk TIMELINE (ExtractedEntities.mk [] [] [] [] None None [])
    ["timeline"] CHRONOLOGICAL ["housing bill history"] STANDARD 0.9%float.

Definition sample_vector : list float := [0.1%float; 0.2%float].

(** What one search task did: the embedding failed, or the query was
    embedded and the store searched with the vector, with the store's answer. *)
Inductive search_outcome :=
| EmbedFailed (e : exn)
| Searched (vector : list float) (answer : Exc (list Chunk.t)).

(** The calls of a search task for [rq] with that outcome, when a search asks
    for [k] chunks under [filters]. *)
Definition search_events (k : Z) (filters : option Filters.t) (rq : string)
           (o : search_outcome) : list Event :=
  match o with
  | EmbedFailed e => [Ev (EmbedSingle rq) (throw e)]
  | Searched vector answer =>
    [Ev (EmbedSingle rq) (ok vector); Ev (VectorSearch vector k filters) answer]
  end.

(** What the task hands to [gather]: its result list, or the exception. *)
Definition outcome_result (o : search_outcome) : Exc (list Chunk.t) :=
  match o with
  | EmbedFailed e => throw e
  | Searched _ answer => answer
  end.

(** [tr] is an interleaving of the lists [ls]: it is made of their elements,
    each list in its own order. Of the order in which concurrent tasks make
    their calls, [asyncio.gather] fixes no more. *)
Inductive interleaving {A} : list (list A) -> list A -> Prop :=
| interleaving_done ls : Forall (fun l => l = []) ls -> interleaving ls []
| interleaving_step ls1 x l ls2 tr :
    interleaving (ls1 ++ l :: ls2) tr ->
    interleaving (ls1 ++ (x :: l) :: ls2) (x :: tr).

(** The result list of a task that succeeded. *)
Definition found (o : search_outcome) : option (list Chunk.t) :=
  match o with
  | Searched _ (inr chunks) => Some chunks
  | _ => None
  end.

(** The successful results among the outcomes of the search tasks. *)
Definition successes (results : list (Exc (list Chunk.t))) : list (list Chunk.t) :=
  omap (fun r => match r with inr chunks => Some chunks | inl _ => None end) results.

(** The chunk's id is not in the set of seen ids. *)
Definition unseen (seen : gset string) (d : Chunk.t) : bool :=
  negb (bool_decide (Chunk.id d ∈ seen)).

(** Ascending order of string keys. *)
Definition key_le {A} (key : A -> string) (a b : A) : Prop :=
  String.leb (key a) (key b) = true.

(** The two runs of the specification's retrieval examples. *)
Definition multi_entity_trace : list Event :=
  [Ev (EmbedSingle "Labor climate policy") (ok sample_vector);
   Ev (VectorSearch sample_vector 5 None) (ok [chunk_x; chunk_y]);
   Ev (EmbedSingle "Liberal climate policy") (ok sample_vector);
   Ev (VectorSearch sample_vector 5 None) (ok [chunk_y; chunk_z])].

Definition sample_multi_entity_result : RetrievalResult.t :=
  RetrievalResult.mk [chunk_x; chunk_y; chunk_z] "multi_entity"
                     {["Labor climate policy" := 0.2%float;
                       "Liberal climate policy" := 0.2%float]} true [].

Definition chronological_trace : list Event :=
  [Ev (EmbedSingle "housing bill history") (ok sample_vector);
   Ev (VectorSearch sample_vector 10 None)
      (ok [chunk_x; chunk_y; chunk_u; chunk_z])].

Definition sample_chronological_result : RetrievalResult.t :=
  RetrievalResult.mk [chunk_y; chunk_z; chunk_x; chunk_u] "chronological" ∅ true [].

(** A run in which the store answers with a chunk dated ["A.D. 2024"] and a
    chunk without a date, and what the strategy returns. *)
Definition anno_domini_trace : list Event :=
  [Ev (EmbedSingle "housing bill history") (ok sample_vector);
   Ev (VectorSearch sample_vector 10 None) (ok [chunk_ad; chunk_u])].

Definition anno_domini_result : RetrievalResult.t :=
  RetrievalResult.mk [chunk_u; chunk_ad] "chronological" ∅ false
                     ["Few chronological events found"].

(** ** Notions for the costs *)

(** The value of the positive float [m * 2 ^ e], in units of [2 ^ -1074]: an
    integer for every float of the binary64 format. *)
Definition scaled (m : positive) (e : Z) : Z := Z.pos m * 2 ^ (e + 1074).

(** ** Specification-level notions for the composer *)

(** A section has at least one component id, and each of its ids is the id of
    a component of the list. *)
Definition section_resolves (components : list Component.t) (s : Section_.t)
  : Prop :=
  Section_.component_ids s <> [] /\
  Forall (fun id => id ∈ map Component.id components) (Section_.component_ids s).

Definition layout_resolves (layout : Layout.t) (components : list Component.t)
  : Prop :=
  Forall (section_resolves components) (Layout.sections layout).

(** Raw components as a language model emits them. *)
Definition point (label : string) (value : Z) : pyval :=
  PDict [("label", PStr label); ("value", PInt value)].

Definition raw_text_block : pyval :=
  PDict [("type", PStr "text_block");
         ("content", PStr "The bill passed its third reading.")].

Definition raw_pie_8 : pyval :=
  PDict [("type", PStr "chart"); ("chart_type", PStr "pie");
         ("series",
          PList [PDict [("name", PStr "Seats");
                        ("data",
                         PList [point "A" 1; point "B" 2; point "C" 3; point "D" 4;
                                point "E" 5; point "F" 6; point "G" 7; point "H" 8])]])].

Definition raw_composer_output : pyval :=
  PDict [("title", PStr "Housing bill");
         ("sections",
          PList [PDict [("title", PStr "Summary");
                        ("components", PList [raw_text_block])];
                 PDict [("title", PStr "Seats");
                        ("components", PList [raw_pie_8])]])].

(** ** Specification-level notions for charts *)

(** The series of a raw chart, the data points of a series, and all the data
    points of the chart, as iteration yields them. *)
Definition chart_series (data : pyval) : Exc (list pyval) :=
  let? s := Py.get data "series" (PList []) in Py.iter s.

Definition series_points (s : pyval) : Exc (list pyval) :=
  let? d := Py.get s "data" (PList []) in Py.iter d.

Definition chart_points (data : pyval) : Exc (list pyval) :=
  let? ss := chart_series data in
  let? pss := exc_map series_points ss in
  ok (concat pss).

(** The chart types the data model knows. *)
Definition known_chart_types : list string :=
  ["bar"; "line"; "pie"; "doughnut"; "horizontal_bar"; "stacked_bar"].

Definition is_pie (chart_type : pyval) : bool :=
  py_eq_str chart_type "pie" || py_eq_str chart_type "doughnut".

Section ChartNotions.
Context `{B : Builtins}.

(** The point has a value, and [float] accepts it. *)
Definition numeric_point (p : pyval) : Prop :=
  exists v f, Py.get p "value" PNone = ok v /\ v <> PNone /\ py_float v = ok f.

(** The point's value, read as a float, is below zero. *)
Definition negative_point (p : pyval) : Prop :=
  exists v f,
    Py.get p "value" (PInt 0) = ok v /\ py_float v = ok f /\
    PrimFloat.ltb f 0%float = true.

(** The raw component's type string normalizes to [t]. *)
Definition has_type (data : pyval) (t : string) : Prop :=
  exists raw_type,
    Py.get data "type" (PStr "") = ok raw_type /\
    Components.normalize_type raw_type = ok t.

(** The constraint validator accepts the raw component as a [t]. *)
Definition passes (t : string) (data : pyval) : Prop :=
  ValidationResult.is_valid (Constraints.validate_component t data) = true.

End ChartNotions.

Section ChartNotions2.
Context `{B : Builtins}.

(** The general chart checks hold: the data points can be enumerated, there
    are at least two of them, and every value is coercible to a number. *)
Definition general_chart_checks (data : pyval) : Prop :=
  exists pts,
    chart_points data = ok pts /\ 2 <= length_Z pts /\ Forall numeric_point pts.

(** The verdict of the validator on a raw chart. *)
Definition chart_verdict (data : pyval) : ValidationResult.t :=
  Constraints.validate_component "chart" data.

End ChartNotions2.

(** The verdict does not admit the component. *)
Definition rejected (v : ValidationResult.t) : Prop :=
  ValidationResult.is_valid v = false.

(** ** Sample raw components and what they parse to *)

Definition raw_pie_negative_later : pyval :=
  PDict [("type", PStr "chart"); ("chart_type", PStr "pie");
         ("series",
          PList [PDict [("name", PStr "Seats");
                        ("data", PList [point "A" 1; point "B" 2])];
                 PDict [("name", PStr "Swing");
                        ("data", PList [point "C" (-1)])]])].

Definition raw_scatter : pyval :=
  PDict [("type", PStr "chart"); ("chart_type", PStr "scatter");
         ("series",
          PList [PDict [("name", PStr "Seats");
                        ("data", PList [point "A" 1; point "B" 2])]])].

Definition raw_comparison_ragged : pyval :=
  PDict [("type", PStr "comparison");
         ("items", PList [PDict [("name", PStr "Labour")];
                          PDict [("name", PStr "Greens")]]);
         ("attributes",
          PList [PDict [("name", PStr "Seats"); ("values", PList [PStr "34"])]])].

Definition chart_point (label : string) (value : float) : ChartDataPoint.t :=
  ChartDataPoint.mk label value PNone.

Definition pie_negative_later_component : Component.t :=
  Component.mk "c1"
    (CChart
       (Chart.mk PIE
          [ChartSeries.mk (PStr "Seats") [chart_point "A" 1; chart_point "B" 2];
           ChartSeries.mk (PStr "Swing") [chart_point "C" (-1)]]
          PNone PNone PNone PNone []))
    PNone.

Definition scatter_component : Component.t :=
  Component.mk "c1"
    (CChart
       (Chart.mk BAR
          [ChartSeries.mk (PStr "Seats") [chart_point "A" 1; chart_point "B" 2]]
          PNone PNone PNone PNone []))
    PNone.

Definition ragged_comparison : Comparison.t :=
  Comparison.mk
    [ComparisonItem.mk "Labour" PNone; ComparisonItem.mk "Greens" PNone]
    [ComparisonAttribute.mk "Seats" ["34"]]
    PNone PNone [].

Definition ragged_component : Component.t :=
  Component.mk "c1" (CComparison ragged_comparison) PNone.


(** ** Further notions for reading runs of the orchestrator *)

(** The cache write an event records: key, value, time to live and answer. *)
Definition cache_write (ev : Event) : option (string * RAGResult.t * Z * Exc unit) :=
  match ev with
  | Ev e x =>
    match e in Eff X return X -> option (string * RAGResult.t * Z * Exc unit) with
    | CacheSet key value ttl_seconds => fun x => Some (key, value, ttl_seconds, x)
    | _ => fun _ => None
    end x
  end.

(** The planner's answer, when an event is a planner call. *)
Definition planner_answer (ev : Event) : option (Exc IntentResult.t) :=
  match ev with
  | Ev e x =>
    match e in Eff X return X -> option (Exc IntentResult.t) with
    | PlannerAnalyze _ => fun x => Some x
    | _ => fun _ => None
    end x
  end.

(** [execute] from its first line ([use_cases.py], lines 72-83 and 196-198),
    with the key of the query as the call it is: [self.cache.query_key(query)]
    is made before the [try], and the adapter's [key_str.encode()] can raise.
    [query_key] gives the key or the exception raised; once the key is there,
    this is [ExecuteQuery.execute] for that key. *)
Definition execute_from_key `{B : Builtins} (query_key : Query.t -> Exc string)
           (verifier : bool) (cache_ttl_seconds : Z) (cost_margin : float)
           (query : Query.t) : M ExecuteQueryResult.t :=
  let! start_time := perform TimeTime in
  let! cache_key := lift (query_key query) in
  (* Check cache *)
  let! cached := await (CacheGet cache_key) in
  match cached with
  | Some cached => mret (ExecuteQueryResult.mk cached CostBreakdown.zero)
  | None =>
    try_except
      (ExecuteQuery.pipeline verifier cache_ttl_seconds cost_margin
                             query start_time cache_key)
      (fun e => ExecuteQuery._error_response query (str_of_exn e) start_time)
  end.

(** The result [_error_response] builds around a notice with identifier [id]. *)
Definition error_result (id : string) (processing_time_ms : Z) : RAGResult.t :=
  RAGResult.mk
    (Layout.mk [Section_.mk [id] PNone PNone] (PStr "Error Processing Query") PNone)
    [Component.mk id
       (CNotice
          (Notice.mk
             "An error occurred while processing your query. Please try again."
             WARNING (PStr "Error"))) PNone]
    (QueryMetadata.mk 0 0 processing_time_ms "error") [] false None.

(** The source reference [_aggregate_sources] builds from a chunk. *)
Definition source_of (chunk : Chunk.t) : SourceReference.t :=
  SourceReference.mk (Chunk.document_id chunk)
    (default "Unknown" (Chunk.metadata chunk !! "source_name"))
    (ExecuteQuery.or_None (Chunk.metadata chunk !! "source_url"))
    (ExecuteQuery.or_None (Chunk.metadata chunk !! "source_date"))
    None.

(** The calls the verification step may make. *)
Definition verification_kinds : list (list EventKind) :=
  [[]; [KVerifier]; [KVerifier; KUuid4]].

(** What the loop of [_aggregate_sources] keeps true of its dictionary. *)
Definition sources_of (done : list Chunk.t) (seen : list SourceReference.t) : Prop :=
  NoDup (map SourceReference.document_id seen) /\
  (forall d, d ∈ map SourceReference.document_id seen <->
             d ∈ map Chunk.document_id done) /\
  (forall s, s ∈ seen ->
     exists l1 c l2,
       done = l1 ++ c :: l2 /\ s = source_of c /\
       Forall (fun c' => Chunk.document_id c' <> Chunk.document_id c) l1).


(** ** A sample run of the whole pipeline *)

Definition sample_retrieval : RetrievalResult.t :=
  RetrievalResult.mk [chunk_x; chunk_y; chunk_z] "single_focus" ∅ true [].

Definition sample_extraction : ExtractionResult.t :=
  ExtractionResult.mk "text_block"
    (PDict [("content", PStr "A money bill deals with taxation or spending.")])
    ["A money bill deals with taxation"] 0.9%float [].

Definition sample_usage : TokenUsage.t :=
  TokenUsage.mk (Some 1000) (Some 500) (Some "gpt-4o").

Definition sample_verification : VerificationResult.t :=
  VerificationResult.mk true [] 1%float [].

Definition sample_cost : CostBreakdown.t :=
  CostBreakdown.mk 5 1 1000 500 2 1 1 1 4 4.

Definition sample_stored : RAGResult.t :=
  RAGResult.mk sample_layout sample_components
    (QueryMetadata.mk 3 3 250 "gpt-4o")
    [source_of chunk_x; source_of chunk_y; source_of chunk_z]
    false (Some sample_cost).

(** The calls of a run up to the cache write, and the write answered by [ans]. *)
Definition sample_stages : list Event :=
  [Ev TimeTime 100%float;
   Ev (CacheGet sample_key) (ok None);
   Ev (PlannerAnalyze "What is a money bill?") (ok sample_intent);
   Ev (RetrieverRetrieve "What is a money bill?" sample_intent) (ok sample_retrieval);
   Ev (ExtractorExtract "text_block" ["text of x"; "text of y"; "text of z"]
                        sample_intent) (ok sample_extraction);
   Ev (ComposerCompose "What is a money bill?" sample_intent [sample_extraction])
      (ok (sample_layout, sample_components, sample_usage));
   Ev (VerifierVerify sample_layout sample_components
                      ["text of x"; "text of y"; "text of z"])
      (ok sample_verification);
   Ev TimeTime 100.25%float].

Definition sample_write (ans : Exc unit) : Event :=
  Ev (CacheSet sample_key sample_stored 3600) ans.

Definition sample_success_trace : list Event :=
  sample_stages ++ [sample_write (ok tt)].

Definition sample_failed_write_trace : list Event :=
  sample_stages ++ [sample_write (throw (ExternalError "connection refused"));
                    Ev TimeTime 100.5%float; Ev Uuid4 "e1"].

(** A multi-entity run in which the first embedding and the second search fail. *)
Definition multi_entity_failed_trace : list Event :=
  [Ev (EmbedSingle "Labor climate policy") (throw (ExternalError "embedder down"));
   Ev (EmbedSingle "Liberal climate policy") (ok sample_vector);
   Ev (VectorSearch sample_vector 5 None) (throw (ExternalError "store down"))].


(** ** Specification-level notions for the other component types *)

(** The list a raw component holds under [key] (the empty list when the key
    is absent), as iteration yields it. *)
Definition raw_list (data : pyval) (key : string) : Exc (list pyval) :=
  let? v := Py.get data key (PList []) in Py.iter v.

(** The component types [parse_component] has a branch for. *)
Definition component_types : list string :=
  ["text_block"; "notice"; "chart"; "timeline"; "data_table"; "comparison";
   "member_profiles"; "voting_breakdown"].

(** Some vote is recorded: a positive total, or a party with a positive
    count for or against. *)
Definition has_votes (v : VotingBreakdown.t) : Prop :=
  0 < VotingBreakdown.total_for v \/ 0 < VotingBreakdown.total_against v \/
  Exists (fun p => 0 < PartyVote.votes_for p \/ 0 < PartyVote.votes_against p)
         (VotingBreakdown.party_breakdown v).

(** ASCII text: every byte is below 128. On such text [Py.strip], [Py.lower]
    and [Py.replace_hyphens] are Python's [strip], [lower] and [replace]. *)
Definition is_ascii_char (c : ascii) : bool := (nat_of_ascii c <? 128)%nat.

Fixpoint is_ascii (s : string) : bool :=
  match s with
  | EmptyString => true
  | String c r => is_ascii_char c && is_ascii r
  end.

(** What [lower] followed by [replace("-", "_")] does to one character. *)
Definition canonical_char (c : ascii) : ascii :=
  let l := Py.lower_char c in
  if Ascii.eqb l "-" then "_"%char else l.

(** Sample raw components of the other types, and what they parse to. *)
Definition raw_timeline : pyval :=
  PDict [("type", PStr "Timeline");
         ("events",
          PList [PDict [("date", PStr "2023-05-01")];
                 PDict [("label", PStr "Royal assent")];
                 PDict [("description", PStr "undated and unlabelled")]])].

Definition sample_timeline : Timeline.t :=
  Timeline.mk [TimelineEvent.mk "2023-05-01" "" PNone PNone 3;
               TimelineEvent.mk "" "Royal assent" PNone PNone 3]
              PNone PNone [].

Definition raw_data_table : pyval :=
  PDict [("type", PStr "table");
         ("columns", PList [PDict [("header", PStr "Party")];
                            PDict [("key", PStr "seats")];
                            PDict [("align", PStr "right")]]);
         ("rows", PList [PDict [("party", PStr "Labour"); ("seats", PStr "34")];
                         PDict [];
                         PDict [("party", PStr "Greens"); ("seats", PStr "15")]])].

Definition sample_data_table : DataTable.t :=
  DataTable.mk [TableColumn.mk "Party" "" false "left";
                TableColumn.mk "" "seats" false "left"]
               [[("party", "Labour"); ("seats", "34")];
                [("party", "Greens"); ("seats", "15")]]
               PNone PNone [].

Definition raw_member_profiles : pyval :=
  PDict [("type", PStr "members");
         ("members", PList [PDict [("name", PStr "A. Member");
                                   ("party", PStr "Greens")];
                            PDict [("party", PStr "Labour")]])].

Definition sample_member_profiles : MemberProfiles.t :=
  MemberProfiles.mk
    [MemberProfile.mk "" "A. Member" "Greens" PNone [] PNone PNone PNone]
    PNone PNone [].

Definition raw_padded_text : pyval :=
  PDict [("type", PStr "text"); ("content", PStr "  Two bills passed.  ")].

Definition raw_notice : pyval :=
  PDict [("type", PStr "alert"); ("message", PStr "Check the sources");
         ("level", PStr "critical")].

Definition sample_notice : Component.t :=
  Component.mk "n1" (CNotice (Notice.mk "Check the sources" INFO PNone)) PNone.

Definition raw_voting_breakdown : pyval :=
  PDict [("type", PStr "votes");
         ("party_breakdown",
          PList [PDict [("party", PStr "Labour")];
                 PDict [("party", PStr "Greens"); ("votes_against", PInt 8)]])].

Definition sample_voting_breakdown : VotingBreakdown.t :=
  VotingBreakdown.mk 0 0 [PartyVote.mk "Labour" 0 0 0 0;
                          PartyVote.mk "Greens" 0 8 0 0]
                     PNone PNone 0 PNone PNone [].

Definition raw_map : pyval :=
  PDict [("type", PStr "Map"); ("regions", PList [PStr "Otago"])].

(** ** Notions for the composer's runs *)

(** A program whose only calls draw identifiers. *)
Fixpoint draws_only_ids {A} (p : Prog A) : Prop :=
  match p with
  | Ret _ => True
  | Vis e k => kind_of e = KUuid4 /\ forall x, draws_only_ids (k x)
  end.

(** The token usage of a response made without the language model. *)
Definition zero_usage (model : string) : TokenUsage.t :=
  TokenUsage.mk (Some 0) (Some 0) (Some model).

(** What [_fallback_response] returns around a text block with identifier [id]. *)
Definition composer_error_response (model id : string)
  : Layout.t * list Component.t * TokenUsage.t :=
  (Layout.mk [Section_.mk [id] PNone PNone] (PStr "Error") PNone,
   [Component.mk id
      (CTextBlock
         (TextBlock.mk
            "An error occurred while generating the response. Please try again."
            PNone MARKDOWN [])) PNone],
   zero_usage model).

(** The layout [_fallback_layout] builds around a text block with identifier [id]. *)
Definition raw_content_layout (id : string) : Layout.t :=
  Layout.mk [Section_.mk [id] PNone PNone] PNone PNone.

(** Some extraction is less than half complete. *)
Definition low_completeness (extractions : list ExtractionResult.t) : bool :=
  existsb (fun e => PrimFloat.ltb (ExtractionResult.completeness e) 0.5%float)
          extractions.

Definition sample_reply : LLMResponse.t :=
  LLMResponse.mk "A money bill deals with taxation." (Some (Some 1000, Some 500)).

Definition sample_reply_trace : list Event :=
  [Ev (LLMInvoke Composer.SYSTEM_MESSAGE "What is a money bill?") (ok sample_reply);
   Ev Uuid4 "t1"].

Definition sample_raw_content_response
  : Layout.t * list Component.t * TokenUsage.t :=
  (raw_content_layout "t1",
   [sample_text "t1" "A money bill deals with taxation."],
   TokenUsage.mk (Some 1000) (Some 500) (Some "gpt-4o")).

(** ** Anonymous sessions ([domain/usage/entities.py])

    The clock is read by [utc_now()]; the reading a method makes is its
    argument [now]. Datetimes are kept abstract, with their order and the
    midnight that follows a datetime
    ([now.replace(hour=0, minute=0, second=0, microsecond=0) + timedelta(days=1)]). *)

Module AnonymousSession.
Section AnonymousSession.

Variable datetime : Type.
(** [a >= b] *)
Variable ge : datetime -> datetime -> bool.
Variable next_midnight : datetime -> datetime.

Record t := mk
  { session_id : string;
    free_tier_remaining : Z;
    free_tier_reset_at : option datetime;
    created_at : datetime;
    updated_at : datetime }.

Definition create (now : datetime) (session_id : string) (daily_limit : Z) : t :=
  (* Reset at midnight UTC *)
  let tomorrow := next_midnight now in
  mk session_id daily_limit (Some tomorrow) now now.

Definition can_query (self : t) : bool := 0 <? free_tier_remaining self.

(** Consume one query from the free tier: the answer and the session after. *)
Definition consume_query (now : datetime) (self : t) : bool * t :=
  if free_tier_remaining self <=? 0 then (false, self)
  else
    (true,
     mk (session_id self) (free_tier_remaining self - 1) (free_tier_reset_at self)
        (created_at self) now).

(** Check if the daily limit should be reset: whether a reset was performed,
    and the session after. *)
Definition check_and_reset (now : datetime) (self : t) : bool * t :=
  match free_tier_reset_at self with
  | Some reset_at =>
    if ge now reset_at then
      (* Set next reset to tomorrow midnight UTC *)
      let tomorrow := next_midnight now in
      (true, mk (session_id self) 10 (Some tomorrow) (created_at self) now)
    else (false, self)
  | None => (false, self)
  end.

(** A call on a session, with the reading of the clock it makes. *)
Inductive call :=
| ConsumeQuery (now : datetime)
| CheckAndReset (now : datetime).

Definition perform_call (c : call) (self : t) : bool * t :=
  match c with
  | ConsumeQuery now => consume_query now self
  | CheckAndReset now => check_and_reset now self
  end.

(** The calls of a list made in turn: their answers and the session after. *)
Fixpoint perform_calls (cs : list call) (self : t) : list bool * t :=
  match cs with
  | [] => ([], self)
  | c :: r =>
    let '(b, self') := perform_call c self in
    let '(bs, self'') := perform_calls r self' in
    (b :: bs, self'')
  end.

End AnonymousSession.

Arguments mk {datetime}.
Arguments session_id {datetime}.
Arguments free_tier_remaining {datetime}.
Arguments free_tier_reset_at {datetime}.
Arguments created_at {datetime}.
Arguments updated_at {datetime}.
Arguments create {datetime}.
Arguments can_query {datetime}.
Arguments consume_query {datetime}.
Arguments check_and_reset {datetime}.
Arguments ConsumeQuery {datetime}.
Arguments CheckAndReset {datetime}.
Arguments perform_call {datetime}.
Arguments perform_calls {datetime}.

End AnonymousSession.

(** ** Notions for the composer's reading of a reply *)

(** The text holds no backquote. *)
Fixpoint no_backtick (s : string) : bool :=
  match s with
  | EmptyString => true
  | String c r => negb (Ascii.eqb c "`") && no_backtick r
  end.

(** A timeline whose first event carries a significance that is no number. *)
Definition raw_timeline_bad_significance : pyval :=
  PDict [("type", PStr "timeline");
         ("events",
          PList [PDict [("date", PStr "2023-05-01"); ("significance", PStr "high")];
                 PDict [("label", PStr "Royal assent")]])].
(** * Reasoning about runs *)

Lemma runs_bind {A C} (p : Prog A) (f : A -> Prog C) tr c :
  runs (bind p f) tr c <->
  exists a tr1 tr2, runs p tr1 a /\ runs (f a) tr2 c /\ tr = tr1 ++ tr2.
Proof.
  revert tr. induction p as [a | X e k IH]; intros tr; simpl.
  - split.
    + intros H. exists a, [], tr. auto.
    + intros (a' & tr1 & tr2 & [-> ->] & H & ->). exact H.
  - split.
    + intros (x & tr' & -> & H). apply IH in H as (a & tr1 & tr2 & H1 & H2 & ->).
      exists a, (Ev e x :: tr1), tr2. split; [|auto]. exists x, tr1. auto.
    + intros (a & tr1 & tr2 & (x & tr' & -> & H1) & H2 & ->).
      exists x, (tr' ++ tr2). split; [reflexivity|]. apply IH. eauto 6.
Qed.

Lemma runs_mbind {A C} (p : M A) (f : A -> M C) tr c :
  runs (mbind p f) tr c <->
  (exists e, runs p tr (inl e) /\ c = inl e) \/
  (exists a tr1 tr2, runs p tr1 (inr a) /\ runs (f a) tr2 c /\ tr = tr1 ++ tr2).
Proof.
  unfold mbind. rewrite runs_bind. split.
  - intros ([e | a] & tr1 & tr2 & H1 & H2 & ->); simpl in H2.
    + destruct H2 as [-> ->]. rewrite app_nil_r. eauto.
    + right. eauto 6.
  - intros [(e & H & ->) | (a & tr1 & tr2 & H1 & H2 & ->)].
    + exists (inl e), tr, []. rewrite app_nil_r. simpl. auto.
    + exists (inr a), tr1, tr2. auto.
Qed.

Lemma runs_try_except {A} (p : M A) (h : exn -> M A) tr c :
  runs (try_except p h) tr c <->
  (exists a, runs p tr (inr a) /\ c = inr a) \/
  (exists e tr1 tr2, runs p tr1 (inl e) /\ runs (h e) tr2 c /\ tr = tr1 ++ tr2).
Proof.
  unfold try_except. rewrite runs_bind. split.
  - intros ([e | a] & tr1 & tr2 & H1 & H2 & ->); simpl in H2.
    + right. eauto 6.
    + destruct H2 as [-> ->]. rewrite app_nil_r. eauto.
  - intros [(a & H & ->) | (e & tr1 & tr2 & H1 & H2 & ->)].
    + exists (inr a), tr, []. rewrite app_nil_r. simpl. auto.
    + exists (inl e), tr1, tr2. auto.
Qed.

Lemma runs_lift {A} (m : Exc A) tr c : runs (lift m) tr c <-> tr = [] /\ c = m.
Proof. reflexivity. Qed.

Lemma runs_mret {A} (a : A) tr c : runs (mret a) tr c <-> tr = [] /\ c = inr a.
Proof. reflexivity. Qed.

Lemma runs_perform {X} (e : Eff X) tr c :
  runs (perform e) tr c <-> exists x, tr = [Ev e x] /\ c = inr x.
Proof.
  simpl. split.
  - intros (x & tr' & -> & -> & ->). eauto.
  - intros (x & -> & ->). eauto 6.
Qed.

Lemma runs_await {X} (e : Eff (Exc X)) tr c :
  runs (await e) tr c <-> tr = [Ev e c].
Proof.
  simpl. split.
  - intros (x & tr' & -> & -> & ->). reflexivity.
  - intros ->. eauto 6.
Qed.

Ltac inv_runs :=
  repeat match goal with
  | H : runs (mbind _ _) _ _ |- _ =>
    apply runs_mbind in H as [(? & H & ?) | (? & ? & ? & ? & H & ?)]
  | H : runs (try_except _ _) _ _ |- _ =>
    apply runs_try_except in H as [(? & H & ?) | (? & ? & ? & ? & H & ?)]
  | H : runs (perform _) _ _ |- _ => apply runs_perform in H as (? & ? & ?)
  | H : runs (await _) _ _ |- _ => apply runs_await in H
  | H : runs (mret _) _ _ |- _ => apply runs_mret in H as [? ?]
  | H : runs (lift _) _ _ |- _ => apply runs_lift in H as [? ?]
  | H : runs (raise _) _ _ |- _ => apply runs_lift in H as [? ?]
  | H : ?tr = _ |- _ => is_var tr; subst tr
  | H : runs (Component_.create _ _) _ _ |- _ => unfold Component_.create in H
  | H : @eq (sum _ _) (inl _) (inr _) |- _ => discriminate H
  | H : @eq (sum _ _) (inr _) (inl _) |- _ => discriminate H
  | H : @eq (Exc _) (inl _) (inr _) |- _ => discriminate H
  | H : @eq (Exc _) (inr _) (inl _) |- _ => discriminate H
  | H : inr ?a = inr ?b |- _ =>
    first [subst a | subst b | injection H as -> | injection H as <- | injection H as H]
  | H : inl ?a = inl ?b |- _ =>
    first [subst a | subst b | injection H as -> | injection H as <- | injection H as H]
  | _ => progress unfold ok, throw in *
  end.

Lemma ok_inj {A} (a b : A) : ok a = ok b -> a = b.
Proof. intros [= H]. exact H. Qed.

(** Proving that a concrete trace is a run. *)
Ltac run_trace :=
  repeat (lazy head; eexists; eexists; split; [reflexivity|]);
  lazy head; split; reflexivity.

(** * The orchestrator: cache hit and insufficient retrieval *)

Section Orchestrator.

Context `{B : Builtins}.
Variable query_key : Query.t -> string.
Variable verifier : bool.
Variable cache_ttl_seconds : Z.
Variable cost_margin : float.

Local Abbreviation execute :=
  (ExecuteQuery.execute query_key verifier cache_ttl_seconds cost_margin).
Local Abbreviation pipeline :=
  (ExecuteQuery.pipeline verifier cache_ttl_seconds cost_margin).

(** C1 (as amended). When the cache lookup of [execute] answers with a stored
    result, the run consists of reading the clock and that one lookup, under
    the key computed from the query: no planner, retriever, embedder,
    vector-store, extractor, composer or verifier call and no cache write.
    [execute] returns exactly the stored result, so its [cached] flag is the
    stored one, with the zero cost breakdown ([total_cents = 0]). *)
Theorem execute_cache_hit (query : Query.t) tr out stored :
  runs (execute query) tr out ->
  head (omap cache_answer tr) = Some (ok (Some stored)) ->
  (exists t0,
      tr = [Ev TimeTime t0; Ev (CacheGet (query_key query)) (ok (Some stored))]) /\
  kinds tr = [KTime; KCacheGet] /\
  (exists r, out = ok r /\
     ExecuteQueryResult.result r = stored /\
     RAGResult.cached (ExecuteQueryResult.result r) = RAGResult.cached stored /\
     CostBreakdown.total_cents (ExecuteQueryResult.cost r) = 0).
Proof.
  intros Hrun Hhit. unfold ExecuteQuery.execute in Hrun.
  inv_runs.
  - simpl in Hhit. discriminate.
  - simpl in Hhit. injection Hhit as ->. simpl in Hrun. inv_runs.
    destruct Hrun as [-> ->]. repeat split; eauto.
Qed.

Lemma error_response_no_retrieval query msg t0 tr out :
  runs (ExecuteQuery._error_response query msg t0) tr out ->
  omap retriever_answer tr = [].
Proof.
  unfold ExecuteQuery._error_response, ExecuteQuery.elapsed_ms. intros H.
  inv_runs; reflexivity.
Qed.

Lemma pipeline_insufficient query t0 key tr res retrieval :
  runs (pipeline query t0 key) tr res ->
  head (omap retriever_answer tr) = Some (ok retrieval) ->
  RetrievalResult.is_sufficient retrieval = false ->
  exists intent id1 id2 t1,
    tr = [Ev (PlannerAnalyze (Query.text query)) (ok intent);
          Ev (RetrieverRetrieve (Query.text query) intent) (ok retrieval);
          Ev Uuid4 id1; Ev Uuid4 id2; Ev TimeTime t1] /\
    match Py.int_of_float ((t1 - t0) * 1000)%float with
    | inl e => res = inl e
    | inr ms =>
      exists notice text r,
        res = ok r /\
        RAGResult.components (ExecuteQueryResult.result r) =
          [Component.mk id1 (CNotice notice) PNone;
           Component.mk id2 (CTextBlock text) PNone] /\
        Notice.level notice = WARNING /\
        RAGResult.metadata (ExecuteQueryResult.result r) =
          QueryMetadata.mk 0 (length_Z (RetrievalResult.chunks retrieval)) ms
                           "unknown" /\
        ExecuteQueryResult.cost r = CostBreakdown.zero
    end.
Proof.
  intros Hrun Hret Hins. unfold ExecuteQuery.pipeline in Hrun.
  apply runs_mbind in Hrun as [(? & Hrun & ->) | (intent & ? & ? & Hi & Hrun & ->)].
  { inv_runs. discriminate Hret. }
  apply runs_await in Hi as ->.
  apply runs_mbind in Hrun as [(? & Hrun & ->) | (r' & ? & ? & Hr & Hrun & ->)].
  { inv_runs. discriminate Hret. }
  apply runs_await in Hr as ->. simpl in Hret. injection Hret as ->.
  rewrite Hins in Hrun. simpl negb in Hrun. cbv iota in Hrun.
  unfold ExecuteQuery._insufficient_data_response, ExecuteQuery.elapsed_ms in Hrun.
  inv_runs;
    do 4 eexists; (split; [reflexivity|]);
    match goal with H : _ = Py.int_of_float _ |- _ => rewrite <- H end.
  - reflexivity.
  - do 3 eexists. repeat split.
Qed.

(** C2 (as amended). Whenever the retriever answers [execute] with a result
    whose [is_sufficient] is false, the run calls the clock, the cache lookup
    (a miss), the planner, the retriever, [uuid4] twice and the clock again:
    no extractor or composer call and no cache write. When the elapsed time
    converts to an integer, nothing else happens and [execute] returns exactly
    two components, a warning-level notice followed by a text block of
    suggestions, with the zero cost breakdown; [metadata.chunks_used] is the
    number of chunks the retriever returned (not necessarily 0) and
    [documents_retrieved] is 0. *)
Theorem execute_insufficient (query : Query.t) tr out retrieval :
  runs (execute query) tr out ->
  head (omap retriever_answer tr) = Some (ok retrieval) ->
  RetrievalResult.is_sufficient retrieval = false ->
  exists t0 intent id1 id2 t1 rest,
    tr = [Ev TimeTime t0;
          Ev (CacheGet (query_key query)) (ok None);
          Ev (PlannerAnalyze (Query.text query)) (ok intent);
          Ev (RetrieverRetrieve (Query.text query) intent) (ok retrieval);
          Ev Uuid4 id1; Ev Uuid4 id2; Ev TimeTime t1] ++ rest /\
    match Py.int_of_float ((t1 - t0) * 1000)%float with
    | inl _ => True
    | inr ms =>
      rest = [] /\
      exists notice text r,
        out = ok r /\
        RAGResult.components (ExecuteQueryResult.result r) =
          [Component.mk id1 (CNotice notice) PNone;
           Component.mk id2 (CTextBlock text) PNone] /\
        Notice.level notice = WARNING /\
        RAGResult.metadata (ExecuteQueryResult.result r) =
          QueryMetadata.mk 0 (length_Z (RetrievalResult.chunks retrieval)) ms
                           "unknown" /\
        ExecuteQueryResult.cost r = CostBreakdown.zero
    end.
Proof.
  intros Hrun Hret Hins. unfold ExecuteQuery.execute in Hrun.
  apply runs_mbind in Hrun as [(? & Hrun & ->) | (t0 & ? & ? & Ht0 & Hrun & ->)];
    [inv_runs|].
  apply runs_perform in Ht0 as (t0' & -> & [= <-]).
  apply runs_mbind in Hrun as [(? & Hrun & ->) | (c & ? & ? & Hc & Hrun & ->)].
  { inv_runs. discriminate Hret. }
  apply runs_await in Hc as ->.
  destruct c as [stored|].
  { inv_runs. discriminate Hret. }
  simpl in Hret.
  apply runs_try_except in Hrun
    as [(r & Hrun & ->) | (e & tr1 & tr2 & Hrun & Herr & ->)].
  - destruct (pipeline_insufficient _ _ _ _ _ _ Hrun Hret Hins)
      as (intent & id1 & id2 & t1 & -> & Hres).
    exists t0, intent, id1, id2, t1, []. split; [reflexivity|].
    destruct (Py.int_of_float _); [discriminate Hres|]. split; [reflexivity|].
    exact Hres.
  - assert (Hret' : head (omap retriever_answer tr1) = Some (ok retrieval)).
    { rewrite omap_app, (error_response_no_retrieval _ _ _ _ _ Herr), app_nil_r in Hret.
      exact Hret. }
    destruct (pipeline_insufficient _ _ _ _ _ _ Hrun Hret' Hins)
      as (intent & id1 & id2 & t1 & -> & Hres).
    exists t0, intent, id1, id2, t1, tr2. split; [reflexivity|].
    destruct (Py.int_of_float _); [exact I|].
    destruct Hres as (? & ? & ? & [=] & _).
Qed.

End Orchestrator.

Lemma execute_cache_hit_witness :
  exists r,
    ok r = ok (ExecuteQueryResult.mk sample_result CostBreakdown.zero) /\
    CostBreakdown.total_cents (ExecuteQueryResult.cost r) = 0.
Proof.
  destruct (execute_cache_hit (B := sample_runtime)
              (@RedisCache.query_key sample_runtime) true 3600 0.4%float
              sample_query
              [Ev TimeTime 0%float; Ev (CacheGet sample_key) (ok (Some sample_result))]
              (ok (ExecuteQueryResult.mk sample_result CostBreakdown.zero))
              sample_result)
    as (_ & _ & r & Hr & _ & _ & Hc).
  - run_trace.
  - reflexivity.
  - exists r. split; [symmetry; exact Hr | exact Hc].
Defined.

(** C1 (as stated) fails: the result stored after a cache miss carries
    [cached = false], and a later hit returns it as it is. *)
Lemma execute_cache_hit_not_flagged :
  let tr := [Ev TimeTime 0%float; Ev (CacheGet sample_key) (ok (Some sample_result))] in
  let out := ok (ExecuteQueryResult.mk sample_result CostBreakdown.zero) in
  runs (ExecuteQuery.execute (B := sample_runtime)
          (@RedisCache.query_key sample_runtime) true 3600 0.4%float sample_query)
       tr out /\
  head (omap cache_answer tr) = Some (ok (Some sample_result)) /\
  ~ (exists r, out = ok r /\
       RAGResult.cached (ExecuteQueryResult.result r) = true).
Proof.
  split; [run_trace|]. split; [reflexivity|].
  intros (r & Hr & Hc). injection Hr as <-. discriminate Hc.
Qed.

Lemma execute_insufficient_witness :
  exists r,
    ok r = ok (ExecuteQueryResult.mk sample_insufficient_result CostBreakdown.zero) /\
    QueryMetadata.chunks_used (RAGResult.metadata (ExecuteQueryResult.result r)) = 1.
Proof.
  destruct (execute_insufficient (B := sample_runtime)
              (@RedisCache.query_key sample_runtime) true 3600 0.4%float
              sample_query sample_insufficient_trace
              (ok (ExecuteQueryResult.mk sample_insufficient_result CostBreakdown.zero))
              sample_insufficient)
    as (t0 & intent & id1 & id2 & t1 & rest & Htr & H).
  - run_trace.
  - reflexivity.
  - reflexivity.
  - apply (f_equal (omap time_answer)) in Htr. simpl in Htr.
    injection Htr as <- <- _.
    change (Py.int_of_float ((100.25 - 100) * 1000)%float) with (@inr exn Z 250) in H.
    cbv iota beta in H.
    destruct H as (_ & _ & _ & r & Hr & _ & _ & Hm & _).
    exists r. split; [symmetry; exact Hr|]. rewrite Hm. reflexivity.
Defined.

(** C2 (as stated) fails on [chunks_used]: [execute] overwrites the metadata of
    the insufficient-data response with the number of chunks retrieved. *)
Lemma execute_insufficient_chunks_used :
  let out := ok (ExecuteQueryResult.mk sample_insufficient_result CostBreakdown.zero) in
  runs (ExecuteQuery.execute (B := sample_runtime)
          (@RedisCache.query_key sample_runtime) true 3600 0.4%float sample_query)
       sample_insufficient_trace out /\
  head (omap retriever_answer sample_insufficient_trace) = Some (ok sample_insufficient) /\
  RetrievalResult.is_sufficient sample_insufficient = false /\
  ~ (exists r, out = ok r /\
       QueryMetadata.chunks_used
         (RAGResult.metadata (ExecuteQueryResult.result r)) = 0).
Proof.
  split; [run_trace|]. split; [reflexivity|]. split; [reflexivity|].
  intros (r & Hr & Hc). injection Hr as <-. discriminate Hc.
Qed.

(** * Verification annotates, it does not censor *)

Section Verification.

Variable verifier : bool.

Local Abbreviation verify_step := (ExecuteQuery.verify_step verifier).

Lemma filter_nil_existsb {A} (f : A -> bool) (l : list A) :
  existsb f l = false <-> List.filter f l = [].
Proof.
  induction l as [|a l IH]; simpl; [tauto|].
  destruct (f a); simpl; [split; discriminate | exact IH].
Qed.

Lemma filter_unsupported_claims_runs components verification tr out :
  runs (ExecuteQuery._filter_unsupported_claims components verification) tr out ->
  if has_error_claim verification then
    exists id,
      tr = [Ev Uuid4 id] /\
      out = ok (py_insert (Z.min 1 (length_Z components))
                          (verification_notice id) components)
  else tr = [] /\ out = ok components.
Proof.
  unfold ExecuteQuery._filter_unsupported_claims, has_error_claim.
  destruct (VerificationResult.unsupported_claims verification) as [|c claims] eqn:E.
  - simpl. intros H. inv_runs. auto.
  - destruct (existsb _ (c :: claims)) eqn:Ex.
    + destruct (List.filter _ (c :: claims)) eqn:F.
      { apply filter_nil_existsb in F. congruence. }
      intros H. inv_runs. eexists. split; reflexivity.
    + apply filter_nil_existsb in Ex. rewrite Ex. intros H. inv_runs. auto.
Qed.

Lemma sublist_py_insert {A} (i : Z) (x : A) (l : list A) : sublist l (py_insert i x l).
Proof.
  unfold py_insert. rewrite <- (take_drop (Z.to_nat i) l) at 1.
  apply sublist_app; [reflexivity|]. apply sublist_cons. reflexivity.
Qed.

(** C4 (as amended). Verification never removes components: whatever the
    verifier answers, the final components list contains every component of
    the composer, unchanged and in order (it is the composer's list or that
    list with one element inserted). When the verifier's answer has
    [is_valid = false] and at least one unsupported claim of severity "error",
    exactly one warning notice is inserted at index [min(1, len(components))];
    in every other case (no error-severity claim, or [is_valid = true], or no
    verifier configured, or no context) nothing is inserted. *)
Theorem verification_keeps_components layout components context_texts tr out :
  runs (verify_step layout components context_texts) tr out ->
  match head (omap verifier_answer tr) with
  | Some (inl e) => out = inl e
  | Some (inr verification) =>
    if negb (VerificationResult.is_valid verification) && has_error_claim verification
    then
      exists id,
        tr = [Ev (VerifierVerify layout components context_texts) (ok verification);
              Ev Uuid4 id] /\
        out = ok (py_insert (Z.min 1 (length_Z components))
                            (verification_notice id) components)
    else out = ok components
  | None => out = ok components
  end /\
  forall final, out = ok final ->
    sublist components final /\ (length final <= S (length components))%nat.
Proof.
  intros Hrun.
  assert (Hsub : forall id final,
             ok (py_insert (Z.min 1 (length_Z components))
                           (verification_notice id) components) = ok final ->
             sublist components final /\ (length final <= S (length components))%nat).
  { intros id final [= <-]. split; [apply sublist_py_insert|].
    unfold py_insert. rewrite length_app. simpl. rewrite length_take, length_drop. lia. }
  assert (Hsame : forall final, ok components = ok final ->
             sublist components final /\ (length final <= S (length components))%nat).
  { intros final [= <-]. split; [reflexivity|lia]. }
  unfold ExecuteQuery.verify_step in Hrun.
  destruct (verifier && _) eqn:Hv.
  - apply runs_mbind in Hrun as [(e & Hrun & ->) | (v & ? & ? & Hver & Hrun & ->)].
    + inv_runs. simpl. split; [reflexivity|]. intros ? [=].
    + apply runs_await in Hver as ->. simpl.
      destruct (VerificationResult.is_valid v); simpl in *.
      * destruct Hrun as [-> ->]. simpl. split; [reflexivity | exact Hsame].
      * apply filter_unsupported_claims_runs in Hrun.
        destruct (has_error_claim v).
        -- destruct Hrun as (id & -> & ->). simpl. split; [eauto | apply Hsub].
        -- destruct Hrun as [-> ->]. simpl. split; [reflexivity | exact Hsame].
  - inv_runs. simpl. split; [reflexivity | exact Hsame].
Qed.

End Verification.

Lemma verification_keeps_components_witness :
  exists final,
    sublist sample_components final /\
    final = [sample_text "c1" "Summary."; verification_notice "n1";
             sample_text "c2" "Details."; sample_text "c3" "Outlook."].
Proof.
  pose (v := VerificationResult.mk false [sample_error_claim] 0.5%float []).
  destruct (verification_keeps_components true
              sample_layout sample_components ["context"]
              [Ev (VerifierVerify sample_layout sample_components ["context"]) (ok v);
               Ev Uuid4 "n1"]
              (ok (py_insert 1 (verification_notice "n1") sample_components)))
    as [_ Hsub].
  - run_trace.
  - eexists. split; [apply Hsub; reflexivity | reflexivity].
Defined.

(** C4 (as stated) fails: a verification that reports an error-severity claim
    but [is_valid = true] inserts nothing, because [execute] only looks at the
    claims when [is_valid] is false. *)
Lemma verification_valid_flag_gates_notice :
  let v := VerificationResult.mk true [sample_error_claim] 0.5%float [] in
  has_error_claim v = true /\
  runs (ExecuteQuery.verify_step true
          sample_layout sample_components ["context"])
       [Ev (VerifierVerify sample_layout sample_components ["context"]) (ok v)]
       (ok sample_components).
Proof. split; [reflexivity | run_trace]. Qed.

(** * String order *)

Lemma string_compare_refl (s : string) : String.compare s s = Eq.
Proof.
  induction s as [|a s IH]; simpl; [reflexivity|].
  unfold Ascii.compare. rewrite N.compare_refl. exact IH.
Qed.

Lemma string_leb_ltb (a b : string) : String.leb a b = negb (String.ltb b a).
Proof.
  unfold String.leb, String.ltb. rewrite (String.compare_antisym b a).
  destruct (String.compare a b); reflexivity.
Qed.

Lemma string_compare_not_gt_trans (x y z : string) :
  String.compare x y <> Gt -> String.compare y z <> Gt -> String.compare x z <> Gt.
Proof.
  revert y z. induction x as [|a x IH]; intros [|b y] [|c z]; simpl;
    try congruence.
  unfold Ascii.compare.
  destruct (N.compare_spec (N_of_ascii a) (N_of_ascii b)) as [Hab | Hab | Hab];
    destruct (N.compare_spec (N_of_ascii b) (N_of_ascii c)) as [Hbc | Hbc | Hbc];
    destruct (N.compare_spec (N_of_ascii a) (N_of_ascii c)) as [Hac | Hac | Hac];
    try congruence; try lia.
  apply IH.
Qed.

Lemma string_leb_trans (x y z : string) :
  String.leb x y = true -> String.leb y z = true -> String.leb x z = true.
Proof.
  unfold String.leb. intros Hxy Hyz.
  pose proof (string_compare_not_gt_trans x y z) as H.
  destruct (String.compare x y), (String.compare y z), (String.compare x z);
    try reflexivity; try discriminate; exfalso; apply H; congruence.
Qed.

Lemma string_ltb_leb (a b : string) : String.ltb a b = true -> String.leb a b = true.
Proof. unfold String.ltb, String.leb. destruct (String.compare a b); congruence. Qed.

(** ** The stable sort *)

Section Sorting.
Context {A : Type} (key : A -> string).

Local Abbreviation le := (key_le key).

Lemma insert_by_Permutation (x : A) (l : list A) :
  Permutation (x :: l) (insert_by key x l).
Proof.
  induction l as [|y l IH]; simpl; [reflexivity|].
  destruct (String.ltb (key y) (key x)); [|reflexivity].
  rewrite perm_swap. apply perm_skip. exact IH.
Qed.

Lemma py_sorted_Permutation (l : list A) : Permutation l (py_sorted key l).
Proof.
  induction l as [|x l IH]; simpl; [reflexivity|].
  rewrite <- insert_by_Permutation. apply perm_skip. exact IH.
Qed.

Lemma insert_by_sorted (x : A) (l : list A) :
  StronglySorted le l -> StronglySorted le (insert_by key x l).
Proof.
  induction 1 as [|y l Hs IH Hy]; simpl.
  - repeat constructor.
  - destruct (String.ltb (key y) (key x)) eqn:E.
    + constructor; [exact IH|].
      rewrite <- insert_by_Permutation. constructor; [|exact Hy].
      apply string_ltb_leb. exact E.
    + assert (Hxy : le x y).
      { unfold key_le. rewrite string_leb_ltb, E. reflexivity. }
      constructor; [constructor; assumption|].
      constructor; [exact Hxy|].
      eapply Forall_impl; [exact Hy|]. intros z Hz.
      unfold key_le in *. eapply string_leb_trans; eassumption.
Qed.

Lemma py_sorted_sorted (l : list A) : StronglySorted le (py_sorted key l).
Proof.
  induction l as [|x l IH]; simpl; [constructor|]. apply insert_by_sorted, IH.
Qed.

End Sorting.

(** * The retriever *)

Section RetrieverProofs.

Variable default_top_k : Z.
Variable min_chunks_for_sufficiency : Z.

Local Abbreviation _search_single :=
  (IntentDrivenRetriever._search_single default_top_k).
Local Abbreviation merge_results :=
  (IntentDrivenRetriever.merge_results default_top_k).
Local Abbreviation merge_chunk := IntentDrivenRetriever.merge_chunk.
Local Abbreviation _retrieve_multi_entity :=
  (IntentDrivenRetriever._retrieve_multi_entity default_top_k min_chunks_for_sufficiency).
Local Abbreviation _retrieve_chronological :=
  (IntentDrivenRetriever._retrieve_chronological default_top_k min_chunks_for_sufficiency).

Lemma filter_filter_ext {A} (f g h : A -> bool) (l : list A) :
  (forall a, f a && g a = h a) ->
  List.filter f (List.filter g l) = List.filter h l.
Proof.
  intros Hfg. induction l as [|a l IH]; simpl; [reflexivity|].
  rewrite <- (Hfg a). destruct (g a), (f a) eqn:E; simpl; rewrite ?E, IH; reflexivity.
Qed.

Lemma filter_all_true {A} (f : A -> bool) (l : list A) :
  (forall a, f a = true) -> List.filter f l = l.
Proof.
  intros Hf. induction l as [|a l IH]; simpl; [reflexivity|].
  rewrite Hf, IH. reflexivity.
Qed.

Lemma merge_chunk_fold (l : list Chunk.t) acc seen :
  fst (fold_left merge_chunk l (acc, seen)) =
  acc ++ List.filter (unseen seen) (first_occurrences l).
Proof.
  revert acc seen. induction l as [|c l IH]; intros acc seen; simpl.
  - rewrite app_nil_r. reflexivity.
  - unfold unseen at 1. destruct (decide (Chunk.id c ∈ seen)) as [Hin | Hout].
    + rewrite bool_decide_true by assumption. simpl. rewrite IH. f_equal.
      symmetry. apply filter_filter_ext. intros d. unfold unseen.
      destruct (String.eqb_spec (Chunk.id d) (Chunk.id c)) as [-> | ?].
      * rewrite bool_decide_true by assumption. reflexivity.
      * simpl. rewrite andb_true_r. reflexivity.
    + rewrite bool_decide_false by assumption. simpl. rewrite IH, <- app_assoc.
      simpl. do 2 f_equal. symmetry. apply filter_filter_ext. intros d. unfold unseen.
      destruct (String.eqb_spec (Chunk.id d) (Chunk.id c)) as [-> | Hne].
      * rewrite bool_decide_false by assumption.
        rewrite bool_decide_true by set_solver. reflexivity.
      * simpl. rewrite andb_true_r. f_equal. apply bool_decide_ext. set_solver.
Qed.

Lemma merge_chunk_fold_app (l1 l2 : list Chunk.t) st :
  fold_left merge_chunk (l1 ++ l2) st = fold_left merge_chunk l2 (fold_left merge_chunk l1 st).
Proof. apply fold_left_app. Qed.

Lemma merge_results_ok rqs results st cov out :
  merge_results rqs results (st, cov) = ok out ->
  length rqs = length results ->
  fst out = fold_left merge_chunk (concat (successes results)) st.
Proof.
  revert results st cov. induction rqs as [|rq rqs IH]; intros [|r results] st cov;
    simpl.
  - intros [= <-] _. reflexivity.
  - intros _ [=].
  - intros _ [=].
  - destruct r as [e | chunks]; simpl.
    + intros H [= Hlen]. eauto.
    + destruct (Py.int_truediv _ _); simpl; [discriminate|].
      intros H [= Hlen]. rewrite merge_chunk_fold_app. eauto.
Qed.

Lemma gather_exceptions_cons {A} (t : M A) (r : list (M A)) :
  gather_exceptions (t :: r) =
  bind t (fun x => let! xs := gather_exceptions r in mret (x :: xs)).
Proof. reflexivity. Qed.

Lemma search_single_runs rq intent tr out :
  runs (_search_single rq intent) tr out ->
  omap embed_call tr = [rq] /\
  omap search_result tr = successes [out].
Proof.
  unfold IntentDrivenRetriever._search_single. intros H. inv_runs.
  - split; reflexivity.
  - simpl. destruct out; split; reflexivity.
Qed.

Lemma gather_search_runs intent qs tr out :
  runs (gather_exceptions (map (fun rq => _search_single rq intent) qs)) tr out ->
  exists results,
    out = ok results /\ length qs = length results /\
    omap embed_call tr = qs /\
    omap search_result tr = successes results.
Proof.
  revert tr out. induction qs as [|q qs IH]; intros tr out.
  - intros [-> ->]. exists []. repeat split.
  - rewrite map_cons, gather_exceptions_cons.
    intros H. apply runs_bind in H as (x & tr1 & tr2 & H1 & H2 & ->).
    apply search_single_runs in H1 as [He Hs].
    apply runs_mbind in H2 as [(e & H2 & ->) | (xs & tr3 & tr4 & H2 & H3 & ->)].
    + apply IH in H2 as (? & [=] & _).
    + apply IH in H2 as (results & [= ->] & Hlen & He' & Hs').
      apply runs_mret in H3 as [-> ->]. exists (x :: results).
      rewrite app_nil_r, !omap_app, He, Hs, He', Hs'. simpl. rewrite Hlen.
      repeat split. unfold successes. simpl. destruct x; reflexivity.
Qed.

Lemma search_single_trace rq intent tr out :
  runs (_search_single rq intent) tr out ->
  exists o,
    tr = search_events (default_top_k / 2)
                       (IntentDrivenRetriever._build_filters intent) rq o /\
    out = outcome_result o.
Proof.
  unfold IntentDrivenRetriever._search_single. intros H.
  apply runs_mbind in H as [(e & H & ->) | (vector & tr1 & tr2 & H1 & H2 & ->)].
  - apply runs_await in H as ->. exists (EmbedFailed e). split; reflexivity.
  - apply runs_await in H1 as ->. apply runs_await in H2 as ->.
    exists (Searched vector out). split; reflexivity.
Qed.

Lemma gather_search_trace intent qs tr out :
  runs (gather_exceptions (map (fun rq => _search_single rq intent) qs)) tr out ->
  exists outcomes,
    out = ok (map outcome_result outcomes) /\ length outcomes = length qs /\
    tr = concat (zip_with (search_events (default_top_k / 2)
                             (IntentDrivenRetriever._build_filters intent))
                          qs outcomes).
Proof.
  revert tr out. induction qs as [|q qs IH]; intros tr out.
  - intros [-> ->]. exists []. repeat split.
  - rewrite map_cons, gather_exceptions_cons.
    intros H. apply runs_bind in H as (x & tr1 & tr2 & H1 & H2 & ->).
    apply search_single_trace in H1 as (o & -> & ->).
    apply runs_mbind in H2 as [(e & H2 & ->) | (xs & tr3 & tr4 & H2 & H3 & ->)].
    + apply IH in H2 as (? & [=] & _).
    + apply IH in H2 as (outcomes & [= ->] & Hlen & ->).
      apply runs_mret in H3 as [-> ->]. exists (o :: outcomes).
      rewrite app_nil_r. simpl. rewrite Hlen. repeat split.
Qed.

Lemma search_single_run rq intent o :
  runs (_search_single rq intent)
       (search_events (default_top_k / 2)
                      (IntentDrivenRetriever._build_filters intent) rq o)
       (outcome_result o).
Proof. destruct o as [e | vector answer]; run_trace. Qed.

Lemma gather_search_run intent qs outcomes :
  length outcomes = length qs ->
  runs (gather_exceptions (map (fun rq => _search_single rq intent) qs))
       (concat (zip_with (search_events (default_top_k / 2)
                            (IntentDrivenRetriever._build_filters intent))
                         qs outcomes))
       (ok (map outcome_result outcomes)).
Proof.
  revert outcomes. induction qs as [|q qs IH]; intros [|o outcomes] Hlen;
    try discriminate Hlen.
  - split; reflexivity.
  - injection Hlen as Hlen. rewrite map_cons, gather_exceptions_cons.
    apply runs_bind.
    exists (outcome_result o), (search_events (default_top_k / 2)
                                  (IntentDrivenRetriever._build_filters intent) q o),
      (concat (zip_with (search_events (default_top_k / 2)
                           (IntentDrivenRetriever._build_filters intent))
                        qs outcomes)).
    split; [apply search_single_run|]. split; [|reflexivity].
    apply runs_mbind. right.
    exists (map outcome_result outcomes),
      (concat (zip_with (search_events (default_top_k / 2)
                           (IntentDrivenRetriever._build_filters intent))
                        qs outcomes)), [].
    split; [apply IH; exact Hlen|]. split; [split; reflexivity|].
    symmetry. apply app_nil_r.
Qed.

Lemma interleaving_skip {A} (ls : list (list A)) tr :
  interleaving ls tr -> interleaving ([] :: ls) tr.
Proof.
  induction 1 as [ls Hall | ls1 x l ls2 tr _ IH].
  - constructor. constructor; [reflexivity | exact Hall].
  - exact (interleaving_step ([] :: ls1) x l ls2 tr IH).
Qed.

(** The tasks run one after the other is one of the interleavings. *)
Lemma interleaving_concat {A} (ls : list (list A)) : interleaving ls (concat ls).
Proof.
  induction ls as [|l ls IH].
  - constructor. constructor.
  - induction l as [|x l IHl].
    + apply interleaving_skip. exact IH.
    + exact (interleaving_step [] x l ls _ IHl).
Qed.

Lemma successes_found (outcomes : list search_outcome) :
  successes (map outcome_result outcomes) = omap found outcomes.
Proof.
  unfold successes. induction outcomes as [|o outcomes IH]; [reflexivity|].
  destruct o as [e | vector [e | chunks]]; simpl;
    first [exact IH | f_equal; exact IH].
Qed.

Lemma search_events_embed k filters qs outcomes :
  length outcomes = length qs ->
  omap embed_call (concat (zip_with (search_events k filters) qs outcomes)) = qs.
Proof.
  revert outcomes. induction qs as [|q qs IH]; intros [|o outcomes]; simpl;
    try reflexivity; try discriminate.
  intros [= Hlen]. rewrite omap_app, (IH _ Hlen). destruct o; reflexivity.
Qed.

(** C3. The multi-entity strategy makes one search task per rewritten query
    (one for the query itself when there is none): the task embeds its query
    and, when the embedding succeeds, searches the store once with the
    vector, for [default_top_k // 2] chunks under the filters of the intent.
    However the embedder and the store answer, the strategy runs to its end
    on the calls of these tasks, made one task after the other; and the calls
    of every run are an interleaving of the calls of such tasks, the embedder
    being called once per query, in query order. When the strategy returns,
    its chunk list is the concatenation of the result lists of the searches
    that succeeded, in query order, with every chunk whose id was already
    seen removed, cut by the slice [[: 2 * default_top_k]]: at most
    [2 * default_top_k] chunks. In particular, for rewritten queries [[a; b]]
    whose searches the store answers with [[x; y]] and [[y; z]], the embedder
    is called for [a] and for [b] and the chunks are exactly [[x; y; z]]. *)
Theorem multi_entity_merge query intent :
  (forall outcomes,
      length outcomes = length (effective_queries query intent) ->
      exists out,
        runs (_retrieve_multi_entity query intent)
             (concat (zip_with (search_events (default_top_k / 2)
                                  (IntentDrivenRetriever._build_filters intent))
                               (effective_queries query intent) outcomes))
             out) /\
  forall tr out,
    runs (_retrieve_multi_entity query intent) tr out ->
    exists outcomes,
      length outcomes = length (effective_queries query intent) /\
      interleaving (zip_with (search_events (default_top_k / 2)
                                (IntentDrivenRetriever._build_filters intent))
                             (effective_queries query intent) outcomes) tr /\
      omap embed_call tr = effective_queries query intent /\
      forall r, out = ok r ->
        let merged := first_occurrences (concat (omap found outcomes)) in
        RetrievalResult.chunks r = py_slice_to (default_top_k * 2) merged /\
        (0 <= default_top_k ->
         RetrievalResult.chunks r = take (Z.to_nat (2 * default_top_k)) merged /\
         length_Z (RetrievalResult.chunks r) <= 2 * default_top_k) /\
        (forall a b va vb x y z,
            IntentResult.rewritten_queries intent = [a; b] ->
            outcomes = [Searched va (ok [x; y]); Searched vb (ok [y; z])] ->
            Chunk.id x <> Chunk.id y -> Chunk.id x <> Chunk.id z ->
            Chunk.id y <> Chunk.id z ->
            2 <= default_top_k ->
            RetrievalResult.chunks r = [x; y; z] /\
            omap embed_call tr = [a; b]).
Proof.
  unfold IntentDrivenRetriever._retrieve_multi_entity.
  fold (effective_queries query intent). split.
  { intros outcomes Hlen.
    destruct (merge_results (effective_queries query intent)
                (map outcome_result outcomes) ([], ∅, ∅))
      as [e | [[all_chunks seen] coverage]] eqn:E.
    - exists (inl e). apply runs_mbind. right.
      eexists _, _, []. split; [apply gather_search_run; exact Hlen|].
      split; [|symmetry; apply app_nil_r]. rewrite E. split; reflexivity.
    - eexists. apply runs_mbind. right.
      eexists _, _, []. split; [apply gather_search_run; exact Hlen|].
      split; [|symmetry; apply app_nil_r]. rewrite E. split; reflexivity. }
  intros tr out H.
  assert (Hshape : exists outcomes tr2,
             length outcomes = length (effective_queries query intent) /\
             tr = concat (zip_with (search_events (default_top_k / 2)
                                      (IntentDrivenRetriever._build_filters intent))
                                   (effective_queries query intent) outcomes)
                  ++ tr2 /\
             runs (let! merged :=
                     lift (merge_results (effective_queries query intent)
                             (map outcome_result outcomes) ([], ∅, ∅)) in
                   let '(all_chunks, _, coverage) := merged in
                   let chunks := py_slice_to (default_top_k * 2) all_chunks in
                   let is_sufficient :=
                     IntentDrivenRetriever.sufficient min_chunks_for_sufficiency
                                                      chunks in
                   mret (RetrievalResult.mk chunks
                           (RetrievalStrategy_.value MULTI_ENTITY) coverage
                           is_sufficient
                           (if is_sufficient then []
                            else ["Limited coverage for some entities"])))
                  tr2 out).
  { apply runs_mbind in H as [(e & H & ->) | (results & tr1 & tr2 & H1 & H2 & ->)].
    - apply gather_search_trace in H as (? & [=] & _).
    - apply gather_search_trace in H1 as (outcomes & [= ->] & Hlen & ->).
      exists outcomes, tr2. auto. }
  destruct Hshape as (outcomes & tr2 & Hlen & -> & H2).
  exists outcomes. split; [exact Hlen|].
  assert (Htr2 : tr2 = []).
  { apply runs_mbind in H2 as [(e & H2 & _) | (merged & tr3 & tr4 & H2 & H3 & ->)].
    - apply runs_lift in H2 as [-> _]. reflexivity.
    - apply runs_lift in H2 as [-> _]. destruct merged as [[all_chunks seen] coverage].
      apply runs_mret in H3 as [-> _]. reflexivity. }
  subst tr2. rewrite app_nil_r.
  split; [apply interleaving_concat|].
  split; [apply search_events_embed; exact Hlen|].
  intros r ->.
  apply runs_mbind in H2 as [(e & _ & [=]) | (merged & tr3 & tr4 & H2 & H3 & _)].
  apply runs_lift in H2 as [-> H2]. symmetry in H2.
  destruct merged as [[all_chunks seen] coverage].
  apply merge_results_ok in H2; [|rewrite length_map; symmetry; exact Hlen].
  apply (f_equal fst) in H2.
  rewrite merge_chunk_fold, successes_found in H2. simpl in H2.
  rewrite filter_all_true in H2 by (intros d; unfold unseen;
    rewrite bool_decide_false by set_solver; reflexivity).
  apply runs_mret in H3 as [_ [= ->]]. simpl.
  rename H2 into Hall.
  rewrite <- Hall. split; [reflexivity|]. split.
  - intros Hk. unfold py_slice_to.
    rewrite (proj2 (Z.leb_le 0 (default_top_k * 2))) by lia.
    rewrite Z.mul_comm. split; [reflexivity|].
    unfold length_Z. rewrite length_take. lia.
  - intros a b va vb x y z Hrq -> Hxy Hxz Hyz Hk.
    unfold effective_queries. rewrite Hrq.
    split; [|reflexivity].
    rewrite Hall. unfold py_slice_to.
    rewrite (proj2 (Z.leb_le 0 (default_top_k * 2))) by lia. simpl.
    assert (Hyx : (Chunk.id y =? Chunk.id x)%string = false)
      by (apply String.eqb_neq; congruence).
    assert (Hzy : (Chunk.id z =? Chunk.id y)%string = false)
      by (apply String.eqb_neq; congruence).
    assert (Hzx : (Chunk.id z =? Chunk.id x)%string = false)
      by (apply String.eqb_neq; congruence).
    repeat (rewrite ?String.eqb_refl, ?Hyx, ?Hzy, ?Hzx; simpl).
    destruct (Z.to_nat (default_top_k * 2)) as [|[|[|n]]] eqn:E; try lia.
    simpl. rewrite take_nil. reflexivity.
Qed.
End RetrieverProofs.

Section Chronological.

Variable default_top_k : Z.
Variable min_chunks_for_sufficiency : Z.

Local Abbreviation _retrieve_chronological :=
  (IntentDrivenRetriever._retrieve_chronological default_top_k min_chunks_for_sufficiency).

(** The order of the keys the code sorts by is the chronological order of
    the dates. *)
Lemma date_key_chronological a b :
  key_le IntentDrivenRetriever.date_key a b <-> chronological a b.
Proof.
  unfold key_le, IntentDrivenRetriever.date_key, chronological, chunk_date.
  destruct (Chunk.metadata a !! "date"), (Chunk.metadata b !! "date"); simpl;
    try reflexivity.
  split; [auto | reflexivity].
Qed.

Lemma sorted_chronological (l : list Chunk.t) :
  StronglySorted (key_le IntentDrivenRetriever.date_key) l ->
  StronglySorted chronological l.
Proof.
  induction 1 as [|a l Hs IH Ha]; constructor; [exact IH|].
  eapply Forall_impl; [exact Ha|]. intros b. apply date_key_chronological.
Qed.

Lemma sorted_after (l1 l2 : list Chunk.t) (c : Chunk.t) :
  StronglySorted chronological (l1 ++ c :: l2) -> Forall (chronological c) l2.
Proof.
  induction l1 as [|a l1 IH]; simpl; intros H.
  - apply StronglySorted_inv in H as [_ H]. exact H.
  - apply StronglySorted_inv in H as [H _]. auto.
Qed.

Lemma sorted_before (l1 l2 : list Chunk.t) (c : Chunk.t) :
  StronglySorted chronological (l1 ++ c :: l2) ->
  Forall (fun a => chronological a c) l1.
Proof.
  induction l1 as [|a l1 IH]; simpl; intros H; [constructor|].
  apply StronglySorted_inv in H as [H Ha]. constructor; [|auto].
  rewrite Forall_forall in Ha. apply Ha. apply elem_of_app. right.
  apply elem_of_cons. left. reflexivity.
Qed.

End Chronological.

Lemma multi_entity_merge_witness :
  runs (IntentDrivenRetriever._retrieve_multi_entity 10 3
          "Compare Labor and Liberal climate policies" comparative_intent)
       multi_entity_trace (ok sample_multi_entity_result) /\
  RetrievalResult.chunks sample_multi_entity_result = [chunk_x; chunk_y; chunk_z] /\
  omap embed_call multi_entity_trace =
    ["Labor climate policy"; "Liberal climate policy"] /\
  exists outcomes,
    interleaving (zip_with (search_events 5 None)
                    ["Labor climate policy"; "Liberal climate policy"] outcomes)
                 multi_entity_trace /\
    RetrievalResult.chunks sample_multi_entity_result =
      first_occurrences (concat (omap found outcomes)).
Proof.
  assert (Hrun : runs (IntentDrivenRetriever._retrieve_multi_entity 10 3
                         "Compare Labor and Liberal climate policies"
                         comparative_intent)
                      multi_entity_trace (ok sample_multi_entity_result)).
  { run_trace. }
  split; [exact Hrun|]. split; [reflexivity|].
  destruct (proj2 (multi_entity_merge 10 3 _ _) _ _ Hrun)
    as (outcomes & Hlen & Htr & Hembed & H).
  split; [exact Hembed|]. exists outcomes. split; [exact Htr|].
  destruct (H _ eq_refl) as (_ & Htake & _).
  destruct (Htake ltac:(lia)) as [Hchunks _].
  change (Z.to_nat (2 * 10)) with 20%nat in Hchunks.
  transitivity (take 20 (first_occurrences (concat (omap found outcomes))));
    [exact Hchunks|].
  apply take_ge. apply (f_equal length) in Hchunks.
  rewrite length_take in Hchunks.
  change (length (RetrievalResult.chunks sample_multi_entity_result)) with 3%nat
    in Hchunks.
  lia.
Defined.



(** * The composer's layout *)

Section ComposerProofs.

Context `{B : Builtins}.
Variable model : string.

Local Abbreviation compose := (Composer.compose model).

Lemma section_resolves_mono components more s :
  section_resolves components s -> section_resolves (components ++ more) s.
Proof.
  intros [Hne Hall]. split; [exact Hne|].
  eapply Forall_impl; [exact Hall|]. intros id Hid.
  rewrite map_app. apply elem_of_app. left. exact Hid.
Qed.

Lemma add_component_runs components ids comp_data tr out :
  runs (Composer.add_component (components, ids) comp_data) tr (ok out) ->
  exists new, out = (components ++ new, ids ++ map Component.id new).
Proof.
  unfold Composer.add_component. intros H.
  apply runs_mbind in H as [(e & _ & [=]) | ([c|] & tr1 & tr2 & _ & H & ->)].
  - apply runs_mret in H as [-> [= ->]]. exists [c]. reflexivity.
  - apply runs_mret in H as [-> [= ->]]. exists []. rewrite !app_nil_r. reflexivity.
Qed.

Lemma fold_add_component_runs comps components ids tr out :
  runs (foldM Composer.add_component (components, ids) comps) tr (ok out) ->
  exists new, out = (components ++ new, ids ++ map Component.id new).
Proof.
  revert components ids tr. induction comps as [|d comps IH]; intros components ids tr.
  - intros [-> [= ->]]. exists []. rewrite !app_nil_r. reflexivity.
  - simpl. intros H.
    apply runs_mbind in H as [(e & _ & [=]) | ([cs1 ids1] & tr1 & tr2 & H1 & H & ->)].
    apply add_component_runs in H1 as (new1 & [= -> ->]).
    apply IH in H as (new2 & ->). exists (new1 ++ new2).
    rewrite map_app, !app_assoc. reflexivity.
Qed.

Lemma add_section_runs components sections section_data tr out :
  runs (Composer.add_section (components, sections) section_data) tr (ok out) ->
  Forall (section_resolves components) sections ->
  exists new added,
    out = (components ++ new, sections ++ added) /\
    Forall (section_resolves (components ++ new)) (sections ++ added).
Proof.
  unfold Composer.add_section. intros H Hinv.
  apply runs_mbind in H as [(e & _ & [=]) | (raw & tr1 & tr2 & _ & H & ->)].
  apply runs_mbind in H as [(e & _ & [=]) | (comps & tr3 & tr4 & _ & H & ->)].
  apply runs_mbind in H as [(e & _ & [=]) | ([cs ids] & tr5 & tr6 & Hf & H & ->)].
  apply fold_add_component_runs in Hf as (new & [= -> ->]). simpl in H.
  assert (Hmono : Forall (section_resolves (components ++ new)) sections).
  { eapply Forall_impl; [exact Hinv|]. intros s. apply section_resolves_mono. }
  destruct (map Component.id new) as [|i ids] eqn:E.
  - apply runs_mbind in H as [(e & _ & [=]) | (t & tr7 & tr8 & _ & H & ->)].
    apply runs_mret in H as [-> [= ->]]. exists new, []. rewrite app_nil_r. auto.
  - apply runs_mbind in H as [(e & _ & [=]) | (t & tr7 & tr8 & _ & H & ->)].
    apply runs_mbind in H as [(e & _ & [=]) | (l & tr9 & tr10 & _ & H & ->)].
    apply runs_mret in H as [-> [= ->]]. eexists new, [_]. split; [reflexivity|].
    apply Forall_app. split; [exact Hmono|]. constructor; [|constructor].
    split; [discriminate|]. simpl. rewrite <- E, map_app.
    apply Forall_forall. intros id Hid. apply elem_of_app. right. exact Hid.
Qed.

Lemma fold_add_section_runs datas components sections tr out :
  runs (foldM Composer.add_section (components, sections) datas) tr (ok out) ->
  Forall (section_resolves components) sections ->
  Forall (section_resolves (fst out)) (snd out).
Proof.
  revert components sections tr. induction datas as [|d datas IH];
    intros components sections tr.
  - intros [-> [= ->]] Hinv. exact Hinv.
  - simpl. intros H Hinv.
    apply runs_mbind in H as [(e & _ & [=]) | ([cs1 ss1] & tr1 & tr2 & H1 & H & ->)].
    apply add_section_runs in H1 as (new & added & [= -> ->] & Hinv'); [|exact Hinv].
    eapply IH; eassumption.
Qed.

Lemma build_layout_resolves data tr layout components :
  runs (Composer._build_layout_from_data data) tr (ok (layout, components)) ->
  layout_resolves layout components.
Proof.
  unfold Composer._build_layout_from_data. intros H.
  apply runs_mbind in H as [(e & _ & [=]) | (raw & tr1 & tr2 & _ & H & ->)].
  apply runs_mbind in H as [(e & _ & [=]) | (datas & tr3 & tr4 & _ & H & ->)].
  apply runs_mbind in H as [(e & _ & [=]) | ([cs ss] & tr5 & tr6 & Hf & H & ->)].
  apply fold_add_section_runs in Hf; [|constructor]. simpl in Hf.
  apply runs_mbind in H as [(e & _ & [=]) | (t & tr7 & tr8 & _ & H & ->)].
  apply runs_mbind in H as [(e & _ & [=]) | (s & tr9 & tr10 & _ & H & ->)].
  apply runs_mret in H as [-> [= -> ->]]. exact Hf.
Qed.


Lemma single_section_resolves (c : Component.t) title subtitle :
  layout_resolves
    (Layout.mk [Section_.mk [Component.id c] PNone PNone] title subtitle) [c].
Proof.
  constructor; [|constructor]. split; [discriminate|].
  constructor; [|constructor]. simpl. apply elem_of_cons. left. reflexivity.
Qed.

Lemma fallback_layout_resolves content tr layout components :
  runs (Composer._fallback_layout content) tr (ok (layout, components)) ->
  layout_resolves layout components.
Proof.
  unfold Composer._fallback_layout. intros H. inv_runs.
  apply single_section_resolves.
Qed.

Lemma parse_response_resolves content tr layout components :
  runs (Composer._parse_response content) tr (ok (layout, components)) ->
  layout_resolves layout components.
Proof.
  unfold Composer._parse_response. intros H.
  apply runs_try_except in H as [(r & H & Hr) | (e & tr1 & tr2 & _ & H & ->)].
  - injection Hr as <-.
    apply runs_mbind in H as [(e & _ & [=]) | (data & tr1 & tr2 & _ & H & ->)].
    eapply build_layout_resolves. exact H.
  - destruct e; try (apply runs_lift in H as [_ [=]]);
      eapply fallback_layout_resolves; exact H.
Qed.

Lemma layout_resolves_mono layout components components' :
  (forall id, id ∈ map Component.id components -> id ∈ map Component.id components') ->
  layout_resolves layout components -> layout_resolves layout components'.
Proof.
  intros Hsub H. eapply Forall_impl; [exact H|]. intros s [Hne Hall].
  split; [exact Hne|]. eapply Forall_impl; [exact Hall|]. exact Hsub.
Qed.

Lemma py_insert_ids {A C} (f : A -> C) i x (l : list A) y :
  y ∈ map f l -> y ∈ map f (py_insert i x l).
Proof.
  unfold py_insert. rewrite <- (take_drop (Z.to_nat i) l) at 1.
  rewrite !map_app, map_cons, !elem_of_app, elem_of_cons. tauto.
Qed.

Lemma add_extraction_warnings_ids components extractions tr components' :
  runs (Composer._add_extraction_warnings components extractions) tr (ok components') ->
  forall id, id ∈ map Component.id components -> id ∈ map Component.id components'.
Proof.
  unfold Composer._add_extraction_warnings.
  destruct (map _ _) as [|t ts]; intros H; inv_runs; [auto|].
  intros id. apply py_insert_ids.
Qed.

(** C7. The layout built from the language model's JSON only refers to
    components that are returned with it, and has no empty section: a section
    whose raw components all failed validation contributes no section at all.
    The same holds of every layout [compose] returns, whichever of its paths
    (normal, insufficient data, parse fallback, error fallback) produced it;
    [compose] never raises. *)
Theorem composer_layout_resolves :
  (forall data tr layout components,
      runs (Composer._build_layout_from_data data) tr (ok (layout, components)) ->
      layout_resolves layout components) /\
  (forall query intent extractions tr out,
      runs (compose query intent extractions) tr out ->
      exists layout components usage,
        out = ok (layout, components, usage) /\
        layout_resolves layout components).
Proof.
  split; [apply build_layout_resolves|].
  intros query intent extractions tr out. unfold Composer.compose.
  assert (Hfallback : forall msg tr out,
             runs (Composer._fallback_response model query msg) tr out ->
             exists layout components usage,
               out = ok (layout, components, usage) /\
               layout_resolves layout components).
  { unfold Composer._fallback_response. intros msg tr' out' H. inv_runs.
    do 3 eexists. split; [reflexivity|]. apply single_section_resolves. }
  destruct (List.filter _ _) as [|e es].
  - unfold Composer._insufficient_data_response. intros H. inv_runs.
    do 3 eexists. split; [reflexivity|].
    constructor; [|constructor]. split; [discriminate|]. simpl.
    repeat constructor.
  - intros H.
    apply runs_try_except in H as [(r & H & ->) | (e' & tr1 & tr2 & _ & H & ->)];
      [|eapply Hfallback; exact H].
    apply runs_mbind in H as [(e' & _ & [=]) | (response & tr1 & tr2 & _ & H & ->)].
    apply runs_mbind in H as [(e' & _ & [=]) | ([layout comps] & tr3 & tr4 & Hp & H & ->)].
    apply parse_response_resolves in Hp.
    apply runs_mbind in H as [(e' & _ & [=]) | (comps' & tr5 & tr6 & Hw & H & ->)].
    apply runs_mret in H as [-> [= ->]].
    do 3 eexists. split; [reflexivity|].
    eapply layout_resolves_mono; [|exact Hp].
    eapply add_extraction_warnings_ids. exact Hw.
Qed.

End ComposerProofs.

Lemma composer_layout_resolves_witness :
  exists layout components,
    layout_resolves layout components /\
    map Section_.title (Layout.sections layout) = [PStr "Summary"] /\
    map Component.id components = ["c1"].
Proof.
  pose (layout :=
          Layout.mk [Section_.mk ["c1"] (PStr "Summary") PNone]
                    (PStr "Housing bill") PNone).
  pose (components :=
          [sample_text "c1" "The bill passed its third reading."]).
  assert (Hrun : runs (Composer._build_layout_from_data (B := sample_runtime)
                         raw_composer_output)
                      [Ev Uuid4 "c1"] (ok (layout, components))).
  { run_trace. }
  exists layout, components. split.
  - exact (proj1 (composer_layout_resolves (B := sample_runtime) "gpt-4o")
                 _ _ _ _ Hrun).
  - split; reflexivity.
Defined.

(** * Component constraints and parsing *)

(** * Component constraints and parsing *)

(** Destructs the computation bound first in [H : (let? x := m in k) = r]. *)
Tactic Notation "bind_inv" hyp(H) "as" ident(x) ident(E) :=
  match type of H with
  | exc_bind ?m _ = _ =>
    destruct m as [? | x] eqn:E; [discriminate H | simpl exc_bind in *]
  end.

Section ComponentProofs.

Context `{B : Builtins}.


Lemma get_dict d k default v :
  Py.get d k default = ok v -> exists kv, d = PDict kv.
Proof. destruct d; try discriminate. eauto. Qed.

Lemma get_total kv k default : exists v, Py.get (PDict kv) k default = ok v.
Proof. simpl. eauto. Qed.

Lemma get_present d k v default :
  Py.get d k PNone = ok v -> v <> PNone -> Py.get d k default = ok v.
Proof.
  destruct d; try discriminate. simpl. unfold ok.
  destruct (Py.assoc k d); intros [= <-] Hv; congruence.
Qed.

Lemma chars_length s : length (Py.chars s) = String.length s.
Proof. induction s as [|c s IH]; simpl; [reflexivity|]. rewrite IH. reflexivity. Qed.

Lemma len_iter d n :
  Py.len d = ok n -> exists l, Py.iter d = ok l /\ n = length_Z l.
Proof.
  destruct d; try discriminate; simpl; intros [= <-]; eexists; split;
    try reflexivity.
  - unfold length_Z. rewrite chars_length. reflexivity.
  - unfold length_Z. rewrite length_map. reflexivity.
Qed.

Lemma exc_first_none {A R} (f : A -> Exc (option R)) l :
  exc_first f l = ok None -> Forall (fun a => f a = ok None) l.
Proof.
  induction l as [|a l IH]; simpl; [constructor|].
  destruct (f a) as [e | [r|]] eqn:E; simpl; try discriminate.
  intros H. constructor; auto.
Qed.

Lemma exc_first_none_intro {A R} (f : A -> Exc (option R)) l :
  Forall (fun a => f a = ok None) l -> exc_first f l = ok None.
Proof. induction 1 as [|a l Ha _ IH]; simpl; [reflexivity|]. rewrite Ha. exact IH. Qed.

Lemma exc_map_Forall2 {A C} (f : A -> Exc C) l bs :
  exc_map f l = ok bs <-> Forall2 (fun a b => f a = ok b) l bs.
Proof.
  revert bs. induction l as [|a l IH]; intros bs; simpl.
  - split; [intros [= <-]; constructor | intros H; inversion H; reflexivity].
  - split.
    + destruct (f a) as [e|b] eqn:E; simpl; [discriminate|].
      destruct (exc_map f l) as [e|bs'] eqn:E'; simpl; [discriminate|].
      intros [= <-]. constructor; [exact E | apply IH; reflexivity].
    + intros H. inversion H as [|? b ? bs' Hb Hbs]; subst. rewrite Hb.
      apply IH in Hbs. rewrite Hbs. reflexivity.
Qed.

Lemma fold_add_acc (l : list Z) (a : Z) :
  fold_left Z.add l a = a + fold_left Z.add l 0.
Proof.
  revert a. induction l as [|m l IH]; intros a; [simpl; lia|].
  change (fold_left Z.add l (a + m) = a + fold_left Z.add l (0 + m)).
  rewrite (IH (a + m)), (IH (0 + m)). lia.
Qed.

Lemma sum_Z_cons (n : Z) (l : list Z) : sum_Z (n :: l) = n + sum_Z l.
Proof. unfold sum_Z. simpl. apply fold_add_acc. Qed.

Lemma exc_first_some {A R} (P : R -> Prop) (f : A -> Exc (option R)) l r :
  (forall a r, f a = ok (Some r) -> P r) ->
  exc_first f l = ok (Some r) -> P r.
Proof.
  intros Hf. induction l as [|a l IH]; simpl; [discriminate|].
  destruct (f a) as [e | [r'|]] eqn:E; simpl; try discriminate; [|exact IH].
  intros [= <-]. eapply Hf. exact E.
Qed.

Lemma check_point_numeric_rejects p r :
  Constraints.check_point_numeric p = ok (Some r) -> rejected r.
Proof.
  unfold Constraints.check_point_numeric. intros H. bind_inv H as value E.
  destruct value; try (injection H as <-; reflexivity);
    destruct (py_float _) as [[]|]; try discriminate;
    injection H as <-; reflexivity.
Qed.

Lemma check_series_numeric_rejects s r :
  Constraints.check_series_numeric s = ok (Some r) -> rejected r.
Proof.
  unfold Constraints.check_series_numeric. intros H.
  bind_inv H as d E. bind_inv H as points E'.
  eapply exc_first_some; [|exact H]. apply check_point_numeric_rejects.
Qed.

Lemma check_point_negative_rejects p r :
  Constraints.check_point_negative p = ok (Some r) ->
  r = ValidationResult.invalid POOR_FIT "Pie chart cannot display negative values"
                               (Some "bar").
Proof.
  unfold Constraints.check_point_negative. intros H.
  bind_inv H as value E. bind_inv H as f E'.
  destruct (PrimFloat.ltb f 0); [|discriminate]. injection H as <-. reflexivity.
Qed.

Lemma check_line_series_rejects s r :
  Constraints.check_line_series s = ok (Some r) -> rejected r.
Proof.
  unfold Constraints.check_line_series. intros H. bind_inv H as n E.
  destruct (n <? _); [|discriminate]. injection H as <-. reflexivity.
Qed.

Lemma validate_chart_valid data v :
  Constraints.validate_chart data = ok v ->
  ValidationResult.is_valid v = true ->
  exists series chart_type ss lens,
    Py.get data "series" (PList []) = ok series /\
    Py.get data "chart_type" (PStr "bar") = ok chart_type /\
    Py.iter series = ok ss /\
    exc_map Constraints.series_len ss = ok lens /\
    2 <= sum_Z lens /\
    exc_first Constraints.check_series_numeric ss = ok None /\
    (is_pie chart_type = true ->
     exists first_series points n ps,
       py_first series = ok first_series /\
       Py.get first_series "data" (PList []) = ok points /\
       Py.len points = ok n /\ n <= 7 /\
       Py.iter points = ok ps /\
       exc_first Constraints.check_point_negative ps = ok None).
Proof.
  unfold Constraints.validate_chart. intros H Hv.
  bind_inv H as series Es. bind_inv H as chart_type Ec.
  destruct (Py.truthy series) eqn:Et; simpl in H;
    [|injection H as <-; discriminate Hv].
  bind_inv H as ss Ess. bind_inv H as lens El.
  destruct (sum_Z lens <? Constraints.CHART_MIN_DATA_POINTS) eqn:Etot;
    [injection H as <-; discriminate Hv|].
  apply Z.ltb_ge in Etot. unfold Constraints.or_else in H at 1.
  bind_inv H as o Eo. destruct o as [r|].
  { injection H as <-.
    apply (exc_first_some rejected) in Eo; [|apply check_series_numeric_rejects].
    congruence. }
  exists series, chart_type, ss, lens.
  repeat (split; [first [reflexivity | assumption]|]).
  intros Hpie. unfold is_pie in Hpie. rewrite Hpie in H.
  bind_inv H as first_series Ef. bind_inv H as points Ep. bind_inv H as n En.
  destruct (Constraints.PIE_MAX_SLICES <? n) eqn:En7;
    [injection H as <-; discriminate Hv|].
  apply Z.ltb_ge in En7. bind_inv H as ps Eps.
  unfold Constraints.or_else in H. bind_inv H as o Eo'. destruct o as [r|].
  { injection H as <-.
    apply (exc_first_some rejected) in Eo'; [congruence|].
    intros p r' Hp. apply check_point_negative_rejects in Hp as ->. reflexivity. }
  exists first_series, points, n, ps.
  repeat (split; [first [reflexivity | assumption]|]).
  first [reflexivity | assumption].
Qed.

Lemma check_point_numeric_ok p :
  Constraints.check_point_numeric p = ok None <-> numeric_point p.
Proof.
  unfold Constraints.check_point_numeric, numeric_point. split.
  - intros H. bind_inv H as value E.
    destruct (py_float value) as [e|f] eqn:Ef.
    + destruct value; try discriminate H; destruct e; discriminate H.
    + exists value, f. repeat split; [|exact Ef]. intros ->. discriminate H.
  - intros (v & f & -> & Hv & Hf). simpl. rewrite Hf.
    destruct v; simpl; congruence.
Qed.

Lemma series_numeric s n :
  Constraints.series_len s = ok n ->
  Constraints.check_series_numeric s = ok None ->
  exists ps, series_points s = ok ps /\ n = length_Z ps /\ Forall numeric_point ps.
Proof.
  unfold Constraints.series_len, Constraints.check_series_numeric, series_points.
  intros Hn Hc. bind_inv Hn as d Ed. bind_inv Hc as ps Eps.
  apply len_iter in Hn as (l & Hl & ->). rewrite Eps in Hl. injection Hl as ->.
  exists l. repeat split.
  apply exc_first_none in Hc. eapply Forall_impl; [exact Hc|].
  intros p. apply check_point_numeric_ok.
Qed.

Lemma all_series_numeric ss lens :
  exc_map Constraints.series_len ss = ok lens ->
  exc_first Constraints.check_series_numeric ss = ok None ->
  exists pss,
    exc_map series_points ss = ok pss /\
    sum_Z lens = length_Z (concat pss) /\
    Forall (Forall numeric_point) pss.
Proof.
  revert lens. induction ss as [|s ss IH]; intros lens; simpl.
  - intros [= <-] _. exists []. repeat split. constructor.
  - intros Hl Hc. bind_inv Hl as n En. bind_inv Hl as lens' El. injection Hl as <-.
    bind_inv Hc as o Eo. destruct o; [discriminate Hc|].
    destruct (series_numeric _ _ En Eo) as (ps & -> & -> & Hps).
    destruct (IH _ eq_refl Hc) as (pss & -> & Hsum & Hpss).
    exists (ps :: pss). simpl. rewrite sum_Z_cons, Hsum.
    unfold length_Z. rewrite length_app. repeat split; [lia|]. constructor; assumption.
Qed.

Lemma parse_data_point_ok p :
  numeric_point p -> exists dp, Components.parse_data_point p = ok dp.
Proof.
  intros (v & f & Hv & Hne & Hf). destruct (get_dict _ _ _ _ Hv) as [kv ->].
  unfold Components.parse_data_point, Components.get_str, Components.get_opt.
  rewrite (get_present _ _ _ (PInt 0) Hv Hne). simpl. rewrite Hf. simpl. eauto.
Qed.

Lemma parse_points_ok ps :
  Forall numeric_point ps ->
  exists dps, exc_map Components.parse_data_point ps = ok dps /\
              length dps = length ps.
Proof.
  induction 1 as [|p ps Hp _ (dps & IH & Hlen)]; simpl.
  - exists []. split; reflexivity.
  - destruct (parse_data_point_ok _ Hp) as [dp ->]. rewrite IH. simpl.
    exists (dp :: dps). simpl. rewrite Hlen. split; reflexivity.
Qed.

Lemma parse_series_ok ss pss :
  exc_map series_points ss = ok pss ->
  Forall (Forall numeric_point) pss ->
  exists series,
    Components.parse_series ss = ok series /\
    (0 < length_Z (concat pss) -> series <> []).
Proof.
  revert pss. induction ss as [|s ss IH]; intros pss; simpl.
  - intros [= <-] _. exists []. split; [reflexivity|]. simpl. unfold length_Z. simpl. lia.
  - intros Hm Hall. bind_inv Hm as ps Eps. bind_inv Hm as pss' Epss.
    injection Hm as <-. inversion Hall as [|? ? Hps Hpss]; subst.
    destruct (IH _ eq_refl Hpss) as (series & Hser & Hne).
    unfold series_points in Eps. bind_inv Eps as d Ed. rewrite Eps. simpl.
    destruct (parse_points_ok _ Hps) as (dps & -> & Hlen). simpl.
    destruct (get_dict _ _ _ _ Ed) as [kv ->].
    destruct dps as [|dp dps].
    + exists series. split; [exact Hser|]. destruct ps; [|discriminate Hlen].
      exact Hne.
    + rewrite Hser. simpl. eexists. split; [reflexivity|]. discriminate.
Qed.

Lemma parse_chart_valid data v :
  Constraints.validate_chart data = ok v ->
  ValidationResult.is_valid v = true ->
  exists chart_type_str series title x_axis_label y_axis_label caption,
    Py.get data "chart_type" (PStr "bar") = ok chart_type_str /\
    Components.parse_chart data =
      ok (Some (CChart
                  (Chart.mk
                     match Components.ChartType_of chart_type_str with
                     | inr t => t
                     | inl _ => BAR
                     end
                     series title x_axis_label y_axis_label caption []))).
Proof.
  intros H Hv.
  destruct (validate_chart_valid _ _ H Hv)
    as (series & ct & ss & lens & Hs & Hc & Hss & Hl & Htot & Hnum & _).
  destruct (all_series_numeric _ _ Hl Hnum) as (pss & Hpss & Hsum & Hall).
  destruct (parse_series_ok _ _ Hpss Hall) as (parsed & Hp & Hne).
  destruct (get_dict _ _ _ _ Hs) as [kv ->].
  unfold Components.parse_chart, Components.get_opt.
  rewrite Hc, Hs. simpl exc_bind. rewrite Hss. simpl exc_bind. rewrite Hp.
  simpl exc_bind. destruct parsed as [|s0 parsed]; [exfalso; apply Hne; [lia|reflexivity]|].
  simpl. do 6 eexists. split; reflexivity.
Qed.

Lemma passes_chart data :
  passes "chart" data <->
  exists v, Constraints.validate_chart data = ok v /\
            ValidationResult.is_valid v = true.
Proof.
  unfold passes, Constraints.validate_component. simpl Py.assoc. cbv iota.
  destruct (Constraints.validate_chart data) as [e|v]; simpl.
  - split; [discriminate | intros (v & [=] & _)].
  - split; [eauto | intros (v' & [= <-] & H); exact H].
Qed.

Lemma unknown_chart_type chart_type_str :
  (forall s, chart_type_str = PStr s -> s ∉ known_chart_types) ->
  Components.ChartType_of chart_type_str = throw ValueError.
Proof.
  intros H. destruct chart_type_str as [| | | |s| |]; try reflexivity.
  specialize (H s eq_refl). unfold known_chart_types in H. simpl.
  repeat match goal with
  | |- context [String.eqb s ?t] =>
    destruct (String.eqb_spec s t) as [-> | _]; [exfalso; apply H; set_solver|]
  end.
  reflexivity.
Qed.

Lemma mbind_lift_ok {A C} (a : A) (f : A -> M C) : mbind (lift (ok a)) f = f a.
Proof. reflexivity. Qed.

(** What [parse_component] does with a raw component of type [t] that the
    validator accepts: it returns what [parse_content] builds, under a fresh
    identifier. *)
Lemma parse_component_accepted data t content tr out :
  has_type data t ->
  passes t data ->
  Components.parse_content t data = ok (Some content) ->
  runs (Components.parse_component data) tr out ->
  exists id size,
    tr = [Ev Uuid4 id] /\ out = ok (Some (Component.mk id content size)).
Proof.
  intros (raw_type & Hraw & Hnorm) Hpass Hcontent Hrun.
  destruct (get_dict _ _ _ _ Hraw) as [kv ->].
  unfold Components.parse_component in Hrun. unfold passes in Hpass.
  rewrite Hraw, mbind_lift_ok in Hrun. simpl Py.get in Hrun.
  rewrite mbind_lift_ok, Hnorm, mbind_lift_ok, Hpass in Hrun.
  simpl negb in Hrun. cbv iota in Hrun.
  rewrite Hcontent, mbind_lift_ok in Hrun. simpl in Hrun.
  destruct Hrun as (id & tr' & -> & -> & ->). eauto.
Qed.

Lemma parse_component_accepts data t content id :
  has_type data t ->
  passes t data ->
  Components.parse_content t data = ok (Some content) ->
  exists size,
    runs (Components.parse_component data) [Ev Uuid4 id]
         (ok (Some (Component.mk id content size))).
Proof.
  intros (raw_type & Hraw & Hnorm) Hpass Hcontent.
  destruct (get_dict _ _ _ _ Hraw) as [kv ->]. eexists.
  unfold Components.parse_component. unfold passes in Hpass.
  rewrite Hraw, mbind_lift_ok. simpl Py.get.
  rewrite mbind_lift_ok, Hnorm, mbind_lift_ok, Hpass.
  simpl negb. cbv iota. rewrite Hcontent, mbind_lift_ok. simpl.
  eexists. eexists. split; [reflexivity|]. split; reflexivity.
Qed.

(** C10. A raw chart whose [chart_type] is none of the six known values, and
    which passes the chart constraints, is never rejected for its chart type:
    whatever identifier is drawn, [parse_component] admits it as a [Chart]
    whose [chart_type] is [BAR], and it has no other run. *)
Theorem unknown_chart_type_becomes_bar data chart_type_str :
  has_type data "chart" ->
  Py.get data "chart_type" (PStr "bar") = ok chart_type_str ->
  (forall s, chart_type_str = PStr s -> s ∉ known_chart_types) ->
  passes "chart" data ->
  (forall id, exists chart size,
     runs (Components.parse_component data) [Ev Uuid4 id]
          (ok (Some (Component.mk id (CChart chart) size))) /\
     Chart.chart_type chart = BAR) /\
  (forall tr out,
     runs (Components.parse_component data) tr out ->
     exists id chart size,
       tr = [Ev Uuid4 id] /\
       out = ok (Some (Component.mk id (CChart chart) size)) /\
       Chart.chart_type chart = BAR).
Proof.
  intros Htype Hct Hunknown Hpass.
  destruct (proj1 (passes_chart data) Hpass) as (v & Hv & Hvalid).
  destruct (parse_chart_valid _ _ Hv Hvalid)
    as (ct & series & title & xl & yl & caption & Hct' & Hparse).
  rewrite Hct in Hct'. injection Hct' as <-.
  rewrite (unknown_chart_type _ Hunknown) in Hparse. split.
  - intros id.
    destruct (parse_component_accepts data "chart" _ id Htype Hpass Hparse)
      as (size & Hrun).
    do 2 eexists. split; [exact Hrun | reflexivity].
  - intros tr out Hrun.
    destruct (parse_component_accepted data "chart" _ tr out Htype Hpass Hparse Hrun)
      as (id & size & -> & ->).
    do 3 eexists. repeat split.
Qed.

Lemma iter_len d l : Py.iter d = ok l -> Py.len d = ok (length_Z l).
Proof.
  destruct d; try discriminate; simpl; intros [= <-]; unfold length_Z.
  - rewrite chars_length. reflexivity.
  - reflexivity.
  - rewrite length_map. reflexivity.
Qed.

Lemma iter_cons_truthy d x l : Py.iter d = ok (x :: l) -> Py.truthy d = true.
Proof.
  destruct d as [| | | |s|l'|kv]; try discriminate; simpl.
  - destruct s; [discriminate | reflexivity].
  - intros [= ->]. reflexivity.
  - destruct kv; [discriminate | reflexivity].
Qed.

Lemma py_first_iter d x l : py_first d = ok x -> Py.iter d = ok l -> exists l', l = x :: l'.
Proof.
  destruct d as [| | | |s|l0|kv]; try discriminate; simpl.
  - destruct s; [discriminate|]. intros [= <-] [= <-]. eauto.
  - destruct l0; [discriminate|]. intros [= <-] [= <-]. eauto.
Qed.

Lemma iter_first_dict d kv l :
  Py.iter d = ok (PDict kv :: l) -> py_first d = ok (PDict kv).
Proof.
  destruct d as [| | | |s|l0|kv0]; try discriminate; simpl.
  - destruct s; discriminate.
  - intros [= ->]. reflexivity.
  - destruct kv0; discriminate.
Qed.

Lemma series_points_len s ps :
  series_points s = ok ps -> Constraints.series_len s = ok (length_Z ps).
Proof.
  unfold series_points, Constraints.series_len. intros H. bind_inv H as d Ed.
  apply iter_len. exact H.
Qed.

Lemma series_points_numeric s ps :
  series_points s = ok ps -> Forall numeric_point ps ->
  Constraints.check_series_numeric s = ok None.
Proof.
  unfold series_points, Constraints.check_series_numeric. intros H Hnum.
  bind_inv H as d Ed. rewrite H. simpl. apply exc_first_none_intro.
  eapply Forall_impl; [exact Hnum|]. intros p. apply check_point_numeric_ok.
Qed.

Lemma all_series_len ss pss :
  exc_map series_points ss = ok pss ->
  exists lens, exc_map Constraints.series_len ss = ok lens /\
               sum_Z lens = length_Z (concat pss).
Proof.
  revert pss. induction ss as [|s ss IH]; intros pss; simpl.
  - intros [= <-]. exists []. split; reflexivity.
  - intros H. bind_inv H as ps Eps. bind_inv H as pss' Epss. injection H as <-.
    rewrite (series_points_len _ _ Eps). destruct (IH _ eq_refl) as (lens & -> & Hsum).
    simpl. eexists. split; [reflexivity|]. rewrite sum_Z_cons, Hsum.
    unfold length_Z. simpl. rewrite length_app. lia.
Qed.

Lemma all_series_checks ss pss :
  exc_map series_points ss = ok pss ->
  Forall numeric_point (concat pss) ->
  exc_first Constraints.check_series_numeric ss = ok None.
Proof.
  revert pss. induction ss as [|s ss IH]; intros pss; simpl; [reflexivity|].
  intros H Hnum. bind_inv H as ps Eps. bind_inv H as pss' Epss. injection H as <-.
  simpl in Hnum. apply Forall_app in Hnum as [Hps Hrest].
  rewrite (series_points_numeric _ _ Eps Hps). simpl. eapply IH; [reflexivity|exact Hrest].
Qed.

Lemma negative_point_rejected p :
  negative_point p ->
  Constraints.check_point_negative p =
  ok (Some (ValidationResult.invalid POOR_FIT
              "Pie chart cannot display negative values" (Some "bar"))).
Proof.
  intros (v & f & Hv & Hf & Hneg). unfold Constraints.check_point_negative.
  rewrite Hv. simpl. rewrite Hf. simpl. rewrite Hneg. reflexivity.
Qed.

Lemma numeric_point_negative_check p :
  numeric_point p ->
  Constraints.check_point_negative p = ok None \/
  Constraints.check_point_negative p =
  ok (Some (ValidationResult.invalid POOR_FIT
              "Pie chart cannot display negative values" (Some "bar"))).
Proof.
  intros (v & f & Hv & Hne & Hf). unfold Constraints.check_point_negative.
  rewrite (get_present _ _ _ (PInt 0) Hv Hne). simpl. rewrite Hf. simpl.
  destruct (PrimFloat.ltb f 0); auto.
Qed.

Lemma negative_slice_found ps :
  Forall numeric_point ps -> Exists negative_point ps ->
  exc_first Constraints.check_point_negative ps =
  ok (Some (ValidationResult.invalid POOR_FIT
              "Pie chart cannot display negative values" (Some "bar"))).
Proof.
  intros Hnum Hex. induction Hex as [p ps Hp | p ps _ IH]; simpl.
  - rewrite (negative_point_rejected _ Hp). reflexivity.
  - inversion Hnum as [|? ? Hp Hps]; subst.
    destruct (numeric_point_negative_check _ Hp) as [-> | ->]; simpl; auto.
Qed.

Lemma negative_slice_not_missed ps :
  Exists negative_point ps ->
  exc_first Constraints.check_point_negative ps <> ok None.
Proof.
  intros Hex H. apply exc_first_none in H. apply Exists_exists in Hex as (p & Hin & Hp).
  rewrite Forall_forall in H. specialize (H p Hin).
  rewrite (negative_point_rejected _ Hp) in H. discriminate H.
Qed.

Lemma exc_bind_ok {A C} (a : A) (f : A -> Exc C) : exc_bind (inr a) f = f a.
Proof. reflexivity. Qed.

(** A raw component the validator rejects is skipped: no component is built,
    no identifier is drawn. *)
Lemma parse_component_rejected data t tr out :
  has_type data t ->
  ~ passes t data ->
  runs (Components.parse_component data) tr out ->
  tr = [] /\ out = ok None.
Proof.
  intros (raw_type & Hraw & Hnorm) Hpass Hrun.
  destruct (get_dict _ _ _ _ Hraw) as [kv ->].
  unfold Components.parse_component in Hrun. unfold passes in Hpass.
  rewrite Hraw, mbind_lift_ok in Hrun. simpl Py.get in Hrun.
  rewrite mbind_lift_ok, Hnorm, mbind_lift_ok in Hrun.
  destruct (ValidationResult.is_valid _); [congruence|].
  simpl in Hrun. exact Hrun.
Qed.

Lemma parse_component_admitted data t tr c :
  has_type data t ->
  runs (Components.parse_component data) tr (ok (Some c)) ->
  passes t data /\
  Components.parse_content t data = ok (Some (Component.content c)).
Proof.
  intros Htype Hrun. destruct (ValidationResult.is_valid
                                 (Constraints.validate_component t data)) eqn:E.
  - split; [exact E|]. destruct Htype as (raw_type & Hraw & Hnorm).
    destruct (get_dict _ _ _ _ Hraw) as [kv ->].
    unfold Components.parse_component in Hrun.
    rewrite Hraw, mbind_lift_ok in Hrun. simpl Py.get in Hrun.
    rewrite mbind_lift_ok, Hnorm, mbind_lift_ok, E in Hrun.
    simpl negb in Hrun. cbv iota in Hrun.
    destruct (Components.parse_content t (PDict kv)) as [e | [content|]];
      simpl in Hrun.
    + destruct Hrun as [_ [=]].
    + destruct Hrun as (id & tr' & _ & _ & [= Hc]). subst c. reflexivity.
    + destruct Hrun as [_ [=]].
  - assert (Hno : ~ passes t data) by (unfold passes; congruence).
    destruct (parse_component_rejected _ _ _ _ Htype Hno Hrun) as [_ [=]].
Qed.

Lemma pie_rejected data chart_type s0 rest ps :
  Py.get data "chart_type" (PStr "bar") = ok chart_type ->
  is_pie chart_type = true ->
  chart_series data = ok (s0 :: rest) ->
  series_points s0 = ok ps ->
  7 < length_Z ps \/ Exists negative_point ps ->
  ~ passes "chart" data.
Proof.
  intros Hct Hpie Hseries Hps Hbad Hpass.
  apply passes_chart in Hpass as (v & Hv & Hvalid).
  destruct (validate_chart_valid _ _ Hv Hvalid)
    as (series & ct & ss & lens & Hs & Hc & Hss & _ & _ & _ & Hp).
  rewrite Hct in Hc. injection Hc as <-.
  destruct (Hp Hpie) as (first & points & n & ps' & Hf & Hd & Hn & Hn7 & Hi & Hneg).
  unfold chart_series in Hseries. rewrite Hs in Hseries. simpl in Hseries.
  destruct (py_first_iter _ _ _ Hf Hseries) as (l' & [= <- _]).
  unfold series_points in Hps. rewrite Hd in Hps. simpl in Hps.
  rewrite Hi in Hps. injection Hps as ->.
  destruct Hbad as [Hmany | Hnegative].
  - rewrite (iter_len _ _ Hi) in Hn. injection Hn as <-. lia.
  - exact (negative_slice_not_missed _ Hnegative Hneg).
Qed.

Lemma pie_poor_fit data chart_type s0 rest ps :
  Py.get data "chart_type" (PStr "bar") = ok chart_type ->
  is_pie chart_type = true ->
  chart_series data = ok (s0 :: rest) ->
  series_points s0 = ok ps ->
  7 < length_Z ps \/ Exists negative_point ps ->
  general_chart_checks data ->
  ValidationResult.violation (chart_verdict data) = Some POOR_FIT /\
  ValidationResult.suggestion (chart_verdict data) = Some "bar".
Proof.
  intros Hct Hpie Hseries Hps Hbad (pts & Hpts & Htot & Hnum).
  unfold chart_points in Hpts. rewrite Hseries in Hpts. simpl exc_bind in Hpts.
  bind_inv Hpts as pss Epss. injection Hpts as <-.
  change (exc_map series_points (s0 :: rest) = ok pss) in Epss.
  unfold chart_series in Hseries. bind_inv Hseries as series Es.
  destruct (all_series_len _ _ Epss) as (lens & Hlens & Hsum).
  change (exc_map series_points (s0 :: rest) = ok pss) in Epss.
  pose proof (all_series_checks _ _ Epss Hnum) as Hchecks.
  simpl in Epss. rewrite Hps in Epss. simpl in Epss.
  bind_inv Epss as pss' Epss'. injection Epss as <-.
  simpl in Hnum. apply Forall_app in Hnum as [Hnum0 _].
  unfold series_points in Hps. bind_inv Hps as d Ed.
  destruct (get_dict _ _ _ _ Ed) as [kv ->].
  assert (Hverdict : exists msg,
             Constraints.validate_chart data =
             ok (ValidationResult.invalid POOR_FIT msg (Some "bar"))).
  { unfold Constraints.validate_chart. rewrite Es, Hct, !exc_bind_ok.
    rewrite (iter_cons_truthy _ _ _ Hseries). simpl negb. cbv iota.
    rewrite Hseries, exc_bind_ok, Hlens, exc_bind_ok.
    rewrite Hsum. rewrite (proj2 (Z.ltb_ge _ _)) by exact Htot.
    unfold Constraints.or_else at 1. rewrite Hchecks, exc_bind_ok.
    fold (is_pie chart_type). rewrite Hpie.
    rewrite (iter_first_dict _ _ _ Hseries), exc_bind_ok.
    rewrite Ed, exc_bind_ok, (iter_len _ _ Hps), exc_bind_ok.
    destruct (Constraints.PIE_MAX_SLICES <? length_Z ps) eqn:E; [eauto|].
    rewrite Hps, exc_bind_ok. apply Z.ltb_ge in E.
    destruct Hbad as [Hmany | Hnegative]; [unfold Constraints.PIE_MAX_SLICES in E; lia|].
    unfold Constraints.or_else.
    rewrite (negative_slice_found _ Hnum0 Hnegative), exc_bind_ok. eauto. }
  destruct Hverdict as [msg Hverdict].
  unfold chart_verdict, Constraints.validate_component. simpl Py.assoc. cbv iota.
  rewrite Hverdict. split; reflexivity.
Qed.

Lemma passes_general_chart_checks data :
  passes "chart" data -> general_chart_checks data.
Proof.
  intros Hpass. apply passes_chart in Hpass as (v & Hv & Hvalid).
  destruct (validate_chart_valid _ _ Hv Hvalid)
    as (series & ct & ss & lens & Hs & _ & Hss & Hlens & Htot & Hnum & _).
  destruct (all_series_numeric _ _ Hlens Hnum) as (pss & Hpss & Hsum & Hall).
  exists (concat pss). split; [|split].
  - unfold chart_points, chart_series. rewrite Hs, exc_bind_ok, Hss, exc_bind_ok.
    rewrite Hpss. reflexivity.
  - rewrite <- Hsum. exact Htot.
  - apply Forall_concat. exact Hall.
Qed.

Lemma add_component_rejected data t acc tr out :
  has_type data t ->
  ~ passes t data ->
  runs (Composer.add_component acc data) tr out ->
  tr = [] /\ out = ok acc.
Proof.
  intros Htype Hpass Hrun. destruct acc as [components ids].
  unfold Composer.add_component in Hrun.
  apply runs_mbind in Hrun as [(e & Hrun & _) | (o & tr1 & tr2 & Hrun & Hk & ->)];
    destruct (parse_component_rejected _ _ _ _ Htype Hpass Hrun) as [-> Hout];
    [discriminate Hout|].
  injection Hout as ->. apply runs_mret in Hk as [-> ->]. split; reflexivity.
Qed.

(** C6 (as amended). A raw component admitted as a chart has
    at least two data points in total, and every data-point value is coercible
    to a number.  A pie or doughnut chart whose first series has more than
    seven points, or has a point with a negative value, is rejected; when the
    general chart checks hold, the verdict is [poor_fit] with suggestion
    [bar].  The later series of a pie chart are not inspected.  A rejected
    component is skipped: parsing it yields [None] without drawing an
    identifier, and the composer's loop leaves its accumulator as it was. *)
Theorem chart_constraints data :
  (forall tr c,
     has_type data "chart" ->
     runs (Components.parse_component data) tr (ok (Some c)) ->
     general_chart_checks data) /\
  (forall chart_type first_series rest ps,
     Py.get data "chart_type" (PStr "bar") = ok chart_type ->
     is_pie chart_type = true ->
     chart_series data = ok (first_series :: rest) ->
     series_points first_series = ok ps ->
     7 < length_Z ps \/ Exists negative_point ps ->
     ~ passes "chart" data /\
     (general_chart_checks data ->
      ValidationResult.violation (chart_verdict data) = Some POOR_FIT /\
      ValidationResult.suggestion (chart_verdict data) = Some "bar")) /\
  (forall t,
     has_type data t ->
     ~ passes t data ->
     (forall tr out,
        runs (Components.parse_component data) tr out ->
        tr = [] /\ out = ok None) /\
     (forall acc tr out,
        runs (Composer.add_component acc data) tr out ->
        tr = [] /\ out = ok acc)).
Proof.
  split; [|split].
  - intros tr c Htype Hrun. apply passes_general_chart_checks.
    exact (proj1 (parse_component_admitted _ _ _ _ Htype Hrun)).
  - intros chart_type first_series rest ps Hct Hpie Hseries Hps Hbad. split.
    + exact (pie_rejected _ _ _ _ _ Hct Hpie Hseries Hps Hbad).
    + exact (pie_poor_fit _ _ _ _ _ Hct Hpie Hseries Hps Hbad).
  - intros t Htype Hpass. split.
    + intros tr out. exact (parse_component_rejected _ _ _ _ Htype Hpass).
    + intros acc tr out. exact (add_component_rejected _ _ _ _ _ Htype Hpass).
Qed.

(** *** Comparisons *)

Lemma comprehension_filter {A C} (c : A -> Exc bool) (f : A -> Exc C) l xs :
  Components.comprehension c f l = ok xs ->
  exists ys, exc_filter c l = ok ys /\ Forall2 (fun a x => f a = ok x) ys xs.
Proof.
  revert xs. induction l as [|a l IH]; intros xs; simpl.
  - intros [= <-]. exists []. split; [reflexivity | constructor].
  - intros H. destruct (c a) as [e | [|]]; simpl in *; [discriminate | |].
    + destruct (f a) as [e | x] eqn:Ex; simpl in H; [discriminate|].
      destruct (Components.comprehension c f l) as [e | xs']; simpl in H;
        [discriminate|].
      injection H as <-. destruct (IH _ eq_refl) as (ys & -> & Hall).
      exists (a :: ys). split; [reflexivity | constructor; assumption].
    + destruct (IH _ H) as (ys & -> & Hall). exists ys. split; [reflexivity | exact Hall].
Qed.

Lemma exc_filter_holds {A} (c : A -> Exc bool) l ys :
  exc_filter c l = ok ys -> Forall (fun a => c a = ok true) ys.
Proof.
  revert ys. induction l as [|a l IH]; intros ys; simpl.
  - intros [= <-]. constructor.
  - intros H. destruct (c a) as [e | b] eqn:Ea; simpl in H; [discriminate|].
    destruct (exc_filter c l) as [e | r']; simpl in H; [discriminate|].
    injection H as <-. destruct b; [constructor|]; auto.
Qed.

Lemma truthy_iter_nonempty v vs :
  Py.truthy v = true -> Py.iter v = ok vs -> vs <> [].
Proof.
  destruct v as [| | | |s|l|kv]; simpl; try discriminate.
  - destruct s; [discriminate|]. intros _ [= <-]. discriminate.
  - destruct l; [discriminate|]. intros _ [= <-]. discriminate.
  - destruct kv; [discriminate|]. intros _ [= <-]. discriminate.
Qed.

Lemma truthy_not_None v : Py.truthy v = true -> v <> PNone.
Proof. intros H ->. discriminate H. Qed.

Lemma parse_attribute_values a x :
  Constraints.has_both "name" "values" a = ok true ->
  Components.parse_attribute a = ok x ->
  ComparisonAttribute.values x <> [].
Proof.
  unfold Constraints.has_both, Constraints.has, Components.parse_attribute.
  intros Hc Hp.
  destruct (Py.get a "name" PNone) as [e | n]; simpl in Hc; [discriminate|].
  destruct (Py.truthy n); [|discriminate].
  destruct (Py.get a "values" PNone) as [e | v] eqn:Ev; simpl in Hc; [discriminate|].
  injection Hc as Hv.
  rewrite (get_present _ _ _ (PList []) Ev (truthy_not_None _ Hv)) in Hp.
  destruct (Components.get_str a "name" "") as [e | name]; simpl in Hp;
    [discriminate|].
  destruct (Py.iter v) as [e | vs] eqn:Evs; simpl in Hp; [discriminate|].
  injection Hp as <-. simpl.
  pose proof (truthy_iter_nonempty _ _ Hv Evs) as Hne.
  destruct vs; [congruence | discriminate].
Qed.

Lemma passes_comparison data :
  passes "comparison" data ->
  exists items attributes items_l attributes_l valid_items valid_attributes,
    Py.get data "items" (PList []) = ok items /\
    Py.get data "attributes" (PList []) = ok attributes /\
    Py.iter items = ok items_l /\
    exc_filter (fun i => Constraints.has i "name") items_l = ok valid_items /\
    Py.iter attributes = ok attributes_l /\
    exc_filter (Constraints.has_both "name" "values") attributes_l =
      ok valid_attributes /\
    2 <= length_Z valid_items /\ 1 <= length_Z valid_attributes.
Proof.
  unfold passes, Constraints.validate_component. simpl Py.assoc. cbv iota.
  destruct (Constraints.validate_comparison data) as [e | v] eqn:Ev;
    [discriminate|].
  intros Hvalid. unfold Constraints.validate_comparison in Ev.
  destruct (Py.get data "items" (PList [])) as [e | items]; [discriminate|].
  destruct (Py.get data "attributes" (PList [])) as [e | attributes];
    [discriminate|].
  rewrite !exc_bind_ok in Ev.
  destruct (Py.iter items) as [e | items_l] eqn:Hil; [discriminate|].
  rewrite exc_bind_ok in Ev.
  destruct (exc_filter _ items_l) as [e | valid_items] eqn:Hvi; [discriminate|].
  rewrite exc_bind_ok in Ev.
  destruct (Py.iter attributes) as [e | attributes_l] eqn:Hal; [discriminate|].
  rewrite exc_bind_ok in Ev.
  destruct (exc_filter _ attributes_l) as [e | valid_attributes] eqn:Hva;
    [discriminate|].
  rewrite exc_bind_ok in Ev.
  exists items, attributes, items_l, attributes_l, valid_items, valid_attributes.
  repeat (split; [first [reflexivity | assumption]|]).
  destruct (length_Z valid_items <? Constraints.COMPARISON_MIN_ITEMS) eqn:E1.
  { injection Ev as <-. discriminate Hvalid. }
  destruct (length_Z valid_attributes <? Constraints.COMPARISON_MIN_ATTRIBUTES) eqn:E2.
  { injection Ev as <-. discriminate Hvalid. }
  apply Z.ltb_ge in E1. apply Z.ltb_ge in E2.
  split; [exact E1 | exact E2].
Qed.

(** C9 (as amended). A comparison admitted to the output has at
    least two items and at least one attribute, and every attribute has at
    least one value.  The validator compares the length of each attribute's
    value list against the number of items only to log a warning, so the
    two lengths are unrelated in an admitted comparison. *)
Theorem comparison_shape data tr c comparison :
  has_type data "comparison" ->
  runs (Components.parse_component data) tr (ok (Some c)) ->
  Component.content c = CComparison comparison ->
  2 <= length_Z (Comparison.items comparison) /\
  1 <= length_Z (Comparison.attributes comparison) /\
  Forall (fun a => ComparisonAttribute.values a <> [])
         (Comparison.attributes comparison).
Proof.
  intros Htype Hrun Hcontent.
  destruct (parse_component_admitted _ _ _ _ Htype Hrun) as [Hpass Hparse].
  rewrite Hcontent in Hparse. change (Components.parse_content "comparison" data)
    with (Components.parse_comparison data) in Hparse.
  destruct (passes_comparison _ Hpass)
    as (items & attributes & items_l & attributes_l & valid_items &
        valid_attributes & Hi & Ha & Hil & Hvi & Hal & Hva & Hn & Hm).
  unfold Components.parse_comparison in Hparse.
  rewrite Hi, exc_bind_ok, Hil, exc_bind_ok in Hparse.
  destruct (Components.comprehension _ Components.parse_item items_l)
    as [e | is_] eqn:Eis; [discriminate|].
  rewrite exc_bind_ok, Ha, exc_bind_ok, Hal, exc_bind_ok in Hparse.
  destruct (Components.comprehension _ Components.parse_attribute attributes_l)
    as [e | as_] eqn:Eas; [discriminate|].
  rewrite exc_bind_ok in Hparse.
  destruct (comprehension_filter _ _ _ _ Eis) as (ys & Hys & Hitems).
  destruct (comprehension_filter _ _ _ _ Eas) as (zs & Hzs & Hattrs).
  rewrite Hvi in Hys. injection Hys as <-.
  rewrite Hva in Hzs. injection Hzs as <-.
  pose proof (Forall2_length _ _ _ Hitems) as Hli.
  pose proof (Forall2_length _ _ _ Hattrs) as Hla.
  assert (Hvals : Forall (fun a => ComparisonAttribute.values a <> []) as_).
  { pose proof (exc_filter_holds _ _ _ Hva) as Hheld.
    clear -Hattrs Hheld. induction Hattrs as [|a x l l' Hax _ IH]; [constructor|].
    inversion Hheld; subst. constructor; [|auto].
    eapply parse_attribute_values; eassumption. }
  unfold length_Z in *.
  destruct is_ as [|i0 is_]; [simpl in Hli; lia|].
  destruct as_ as [|a0 as_]; [simpl in Hla; lia|].
  destruct (Components.get_opt data "title") as [e | title]; [discriminate|].
  rewrite exc_bind_ok in Hparse.
  destruct (Components.get_opt data "caption") as [e | caption]; [discriminate|].
  rewrite exc_bind_ok in Hparse. injection Hparse as <-.
  cbn [Comparison.items Comparison.attributes]. rewrite <- Hli, <- Hla. split; [exact Hn | split; [exact Hm | exact Hvals]].
Qed.

End ComponentProofs.

Lemma sample_chart_type data :
  data = raw_pie_8 \/ data = raw_pie_negative_later \/ data = raw_scatter ->
  has_type data "chart".
Proof.
  intros [-> | [-> | ->]]; exists (PStr "chart"); split; reflexivity.
Qed.

Lemma chart_constraints_witness :
  ~ passes (B := sample_runtime) "chart" raw_pie_8 /\
  ValidationResult.violation (chart_verdict (B := sample_runtime) raw_pie_8) =
    Some POOR_FIT /\
  ValidationResult.suggestion (chart_verdict (B := sample_runtime) raw_pie_8) =
    Some "bar".
Proof.
  edestruct (proj1 (proj2 (chart_constraints (B := sample_runtime) raw_pie_8))
               (PStr "pie"))
    as [Hrejected Hfit];
    [reflexivity | reflexivity | reflexivity | reflexivity
    | left; reflexivity |].
  split; [exact Hrejected|]. apply Hfit.
  eexists. split; [reflexivity|]. split; [discriminate|].
  repeat constructor;
    (eexists; eexists; split; [reflexivity | split; [discriminate | reflexivity]]).
Defined.

(** C6 (as stated) fails: a pie chart whose negative value sits in a later
    series is admitted, because the validator inspects the first series only. *)
Lemma pie_negative_in_later_series_admitted :
  has_type raw_pie_negative_later "chart" /\
  Py.get raw_pie_negative_later "chart_type" (PStr "bar") = ok (PStr "pie") /\
  (exists pts,
     chart_points raw_pie_negative_later = ok pts /\
     Exists (negative_point (B := sample_runtime)) pts) /\
  runs (Components.parse_component (B := sample_runtime) raw_pie_negative_later)
       [Ev Uuid4 "c1"] (ok (Some pie_negative_later_component)).
Proof.
  split; [apply sample_chart_type; auto|]. split; [reflexivity|]. split.
  - eexists. split; [reflexivity|].
    apply Exists_cons_tl, Exists_cons_tl, Exists_cons_hd.
    exists (PInt (-1)), (-1)%float. repeat split; reflexivity.
  - run_trace.
Qed.

Lemma comparison_shape_witness :
  2 <= length_Z (Comparison.items ragged_comparison) /\
  1 <= length_Z (Comparison.attributes ragged_comparison) /\
  Forall (fun a => ComparisonAttribute.values a <> [])
         (Comparison.attributes ragged_comparison).
Proof.
  apply (comparison_shape (B := sample_runtime) raw_comparison_ragged
           [Ev Uuid4 "c1"] ragged_component ragged_comparison).
  - exists (PStr "comparison"). split; reflexivity.
  - run_trace.
  - reflexivity.
Defined.

(** C9 (as stated) fails: a comparison of two items whose only attribute has
    one value is admitted; the validator logs the mismatch and accepts. *)
Lemma comparison_ragged_admitted :
  has_type raw_comparison_ragged "comparison" /\
  runs (Components.parse_component (B := sample_runtime) raw_comparison_ragged)
       [Ev Uuid4 "c1"] (ok (Some ragged_component)) /\
  Component.content ragged_component = CComparison ragged_comparison /\
  ~ Forall (fun a => length (ComparisonAttribute.values a) =
                     length (Comparison.items ragged_comparison))
           (Comparison.attributes ragged_comparison).
Proof.
  split; [exists (PStr "comparison"); split; reflexivity|].
  split; [run_trace|]. split; [reflexivity|].
  intros H. inversion H as [|a l Ha _]; subst. discriminate Ha.
Qed.

Lemma unknown_chart_type_becomes_bar_witness :
  (exists chart size,
     runs (Components.parse_component (B := sample_runtime) raw_scatter)
          [Ev Uuid4 "c7"] (ok (Some (Component.mk "c7" (CChart chart) size))) /\
     Chart.chart_type chart = BAR) /\
  exists id chart size,
    ok (Some scatter_component) = ok (Some (Component.mk id (CChart chart) size)) /\
    Chart.chart_type chart = BAR.
Proof.
  destruct (unknown_chart_type_becomes_bar (B := sample_runtime)
              raw_scatter (PStr "scatter"))
    as [Hsome Hall].
  - apply sample_chart_type. auto.
  - reflexivity.
  - intros s [= <-] Hin. unfold known_chart_types in Hin.
    repeat (apply elem_of_cons in Hin as [Hin | Hin]; [discriminate Hin|]).
    apply elem_of_nil in Hin. exact Hin.
  - reflexivity.
  - split; [exact (Hsome "c7")|].
    destruct (Hall [Ev Uuid4 "c1"] (ok (Some scatter_component)))
      as (id & chart & size & _ & Hout & Hbar); [run_trace|].
    exists id, chart, size. split; [exact Hout | exact Hbar].
Defined.

(** * Cost and margin: rounding in the binary64 format *)

Section RoundingProofs.

Lemma round_half_even_bounds a d :
  0 < d -> a / d <= Py.round_half_even a d <= a / d + 1.
Proof.
  intros Hd. unfold Py.round_half_even.
  destruct (2 * (a mod d) <? d); [lia|].
  destruct (d <? 2 * (a mod d)); [lia|].
  destruct (Z.even (a / d)); lia.
Qed.

Lemma round_half_even_exact q d : 0 < d -> Py.round_half_even (q * d) d = q.
Proof.
  intros Hd. unfold Py.round_half_even.
  rewrite Z.mod_mul, Z.div_mul by lia.
  destruct (2 * 0 <? d) eqn:E; [reflexivity|]. apply Z.ltb_ge in E. lia.
Qed.

Lemma round_half_even_mono a b d :
  0 < d -> a <= b -> Py.round_half_even a d <= Py.round_half_even b d.
Proof.
  intros Hd Hab.
  destruct (Z.eq_dec (a / d) (b / d)) as [Heq | Hne].
  - assert (Hr : a mod d <= b mod d).
    { pose proof (Z.div_mod a d ltac:(lia)). pose proof (Z.div_mod b d ltac:(lia)).
      rewrite Heq in *. nia. }
    unfold Py.round_half_even. rewrite Heq.
    destruct (2 * (a mod d) <? d) eqn:E1, (2 * (b mod d) <? d) eqn:E2;
      destruct (d <? 2 * (a mod d)) eqn:E3, (d <? 2 * (b mod d)) eqn:E4;
      destruct (Z.even (b / d)); lia.
  - pose proof (Z.div_le_mono a b d Hd Hab).
    pose proof (round_half_even_bounds a d Hd).
    pose proof (round_half_even_bounds b d Hd). lia.
Qed.

Lemma round_half_even_scale a d c :
  0 < d -> 0 < c -> Py.round_half_even (a * c) (d * c) = Py.round_half_even a d.
Proof.
  intros Hd Hc. unfold Py.round_half_even.
  rewrite Z.div_mul_cancel_r, Z.mul_mod_distr_r by lia.
  replace (2 * (a mod d * c) <? d * c) with (2 * (a mod d) <? d).
  2:{ destruct (2 * (a mod d) <? d) eqn:E; symmetry.
      - apply Z.ltb_lt in E. apply Z.ltb_lt. nia.
      - apply Z.ltb_ge in E. apply Z.ltb_ge. nia. }
  replace (d * c <? 2 * (a mod d * c)) with (d <? 2 * (a mod d)).
  2:{ destruct (d <? 2 * (a mod d)) eqn:E; symmetry.
      - apply Z.ltb_lt in E. apply Z.ltb_lt. nia.
      - apply Z.ltb_ge in E. apply Z.ltb_ge. nia. }
  reflexivity.
Qed.

(** The number of binary digits brackets the number. *)
Lemma digits2_pos_bounds p :
  2 ^ (Z.pos (digits2_pos p) - 1) <= Z.pos p < 2 ^ Z.pos (digits2_pos p).
Proof.
  induction p as [p IH | p IH |]; simpl digits2_pos.
  - rewrite Pos2Z.inj_succ.
    replace (Z.succ (Z.pos (digits2_pos p)) - 1) with (Z.succ (Z.pos (digits2_pos p) - 1))
      by lia.
    rewrite !Z.pow_succ_r by lia. lia.
  - rewrite Pos2Z.inj_succ.
    replace (Z.succ (Z.pos (digits2_pos p)) - 1) with (Z.succ (Z.pos (digits2_pos p) - 1))
      by lia.
    rewrite !Z.pow_succ_r by lia. lia.
  - simpl. lia.
Qed.

Lemma digits2_pos_mono p q :
  (p <= q)%positive -> Z.pos (digits2_pos p) <= Z.pos (digits2_pos q).
Proof.
  intros Hpq. pose proof (digits2_pos_bounds p) as [Hp _].
  pose proof (digits2_pos_bounds q) as [_ Hq].
  destruct (Z.le_gt_cases (Z.pos (digits2_pos p)) (Z.pos (digits2_pos q)))
    as [H | H]; [exact H | exfalso].
  assert (2 ^ Z.pos (digits2_pos q) <= 2 ^ (Z.pos (digits2_pos p) - 1))
    by (apply Z.pow_le_mono_r; lia).
  lia.
Qed.

Lemma shr_1_m mrs : 0 <= shr_m mrs -> shr_m (shr_1 mrs) = shr_m mrs / 2.
Proof.
  destruct mrs as [m r s]. simpl shr_m at 1 2. intros Hm.
  destruct m as [|[p|p|]|p]; cbn [shr_1 shr_m orb]; try lia.
  all: try reflexivity.
  - apply (Z.div_unique _ 2 _ 1); lia.
  - apply (Z.div_unique _ 2 _ 0); lia.
Qed.

Lemma iter_shr_m p mrs :
  0 <= shr_m mrs ->
  shr_m (SpecFloat.iter_pos shr_1 p mrs) = shr_m mrs / 2 ^ Z.pos p.
Proof.
  revert mrs. induction p as [p IH | p IH |]; intros mrs Hm; cbn [SpecFloat.iter_pos].
  - assert (H1 : 0 <= shr_m (shr_1 mrs)).
    { rewrite shr_1_m by exact Hm. apply Z.div_pos; lia. }
    assert (H2 : 0 <= shr_m (SpecFloat.iter_pos shr_1 p (shr_1 mrs))).
    { rewrite IH by exact H1. apply Z.div_pos; [exact H1 | lia]. }
    rewrite IH by exact H2. rewrite IH by exact H1. rewrite shr_1_m by exact Hm.
    rewrite !Z.div_div by lia. f_equal.
    replace (Z.pos p~1) with (1 + Z.pos p + Z.pos p) by lia.
    rewrite !Z.pow_add_r by lia. lia.
  - assert (H1 : 0 <= shr_m (SpecFloat.iter_pos shr_1 p mrs)).
    { rewrite IH by exact Hm. apply Z.div_pos; [exact Hm | lia]. }
    rewrite IH by exact H1. rewrite IH by exact Hm.
    rewrite Z.div_div by lia. f_equal.
    replace (Z.pos p~0) with (Z.pos p + Z.pos p) by lia.
    rewrite Z.pow_add_r by lia. reflexivity.
  - rewrite shr_1_m by exact Hm. reflexivity.
Qed.

Lemma fexp_binary64 d : fexp prec emax d = Z.max (d - 53) (-1074).
Proof. reflexivity. Qed.

Lemma shr_record_of_loc_m m l : shr_m (shr_record_of_loc m l) = m.
Proof. destruct l as [|[]]; reflexivity. Qed.

Lemma shr_fexp_spec m e l mrs e' :
  0 <= m ->
  shr_fexp prec emax m e l = (mrs, e') ->
  shr_m mrs = m / 2 ^ Z.max 0 (fexp prec emax (Zdigits2 m + e) - e) /\
  e' = e + Z.max 0 (fexp prec emax (Zdigits2 m + e) - e).
Proof.
  intros Hm. unfold shr_fexp, shr.
  destruct (fexp prec emax (Zdigits2 m + e) - e) as [|p|p] eqn:En;
    intros [= <- <-].
  - rewrite shr_record_of_loc_m. change (Z.max 0 0) with 0.
    rewrite Z.pow_0_r, Z.div_1_r. lia.
  - rewrite iter_shr_m by (rewrite shr_record_of_loc_m; exact Hm).
    rewrite shr_record_of_loc_m.
    replace (Z.max 0 (Z.pos p)) with (Z.pos p) by lia. split; reflexivity.
  - rewrite shr_record_of_loc_m.
    replace (Z.max 0 (Z.neg p)) with 0 by lia.
    rewrite Z.pow_0_r, Z.div_1_r. lia.
Qed.

Lemma round_nearest_even_bounds m l :
  m <= round_nearest_even m l <= m + 1.
Proof.
  destruct l as [|[]]; simpl; try lia. destruct (Z.even m); lia.
Qed.

Lemma Zdigits2_bounds m :
  0 < m -> 2 ^ (Zdigits2 m - 1) <= m < 2 ^ Zdigits2 m.
Proof.
  destruct m as [|p|p]; try lia. intros _. exact (digits2_pos_bounds p).
Qed.

Lemma Zdigits2_pos m : 0 < m -> 0 < Zdigits2 m.
Proof. destruct m; simpl; lia. Qed.

(** A positive mantissa at an exponent that is not below the least one stays
    positive when it is shifted to its format. *)
Lemma shift_keeps_positive m e :
  0 < m -> -1074 <= e ->
  0 < m / 2 ^ Z.max 0 (fexp prec emax (Zdigits2 m + e) - e).
Proof.
  intros Hm He. rewrite fexp_binary64.
  pose proof (Zdigits2_bounds m Hm) as [Hlow _].
  pose proof (Zdigits2_pos m Hm) as Hd.
  destruct (Z.le_gt_cases (Zdigits2 m) 53) as [Hsmall | Hbig].
  - replace (Z.max 0 (Z.max (Zdigits2 m + e - 53) (-1074) - e)) with 0 by lia.
    rewrite Z.pow_0_r, Z.div_1_r. exact Hm.
  - replace (Z.max 0 (Z.max (Zdigits2 m + e - 53) (-1074) - e))
      with (Zdigits2 m - 53) by lia.
    apply Z.lt_le_trans with (2 ^ 52); [lia|].
    apply Z.div_le_lower_bound; [apply Z.pow_pos_nonneg; lia|].
    rewrite <- Z.pow_add_r by lia.
    replace (Zdigits2 m - 53 + 52) with (Zdigits2 m - 1) by lia. exact Hlow.
Qed.

Lemma canonical_facts mx ex :
  canonical_mantissa prec emax mx ex = true ->
  Z.pos (digits2_pos mx) <= 53 /\ -1074 <= ex /\
  (Z.pos (digits2_pos mx) = 53 \/ ex = -1074).
Proof.
  unfold canonical_mantissa. rewrite fexp_binary64.
  intros H. apply Z.eqb_eq in H. lia.
Qed.

Lemma bounded_canonical mx ex :
  bounded prec emax mx ex = true -> canonical_mantissa prec emax mx ex = true.
Proof. unfold bounded. intros H. apply andb_prop in H as [H _]. exact H. Qed.

Lemma bounded_facts mx ex :
  bounded prec emax mx ex = true ->
  Z.pos (digits2_pos mx) <= 53 /\ -1074 <= ex /\
  (Z.pos (digits2_pos mx) = 53 \/ ex = -1074).
Proof. intros H. apply canonical_facts, bounded_canonical, H. Qed.

(** Rounding a positive value to the format never goes below a number in
    canonical form that the value is not below. *)
Lemma binary_round_aux_above M e l mx ex :
  canonical_mantissa prec emax mx ex = true ->
  e <= ex ->
  Z.pos mx * 2 ^ (ex - e) <= M ->
  (exists m2 e2,
     binary_round_aux prec emax false M e l = S754_finite false m2 e2 /\
     (ex < e2 \/ (e2 = ex /\ Z.pos mx <= Z.pos m2))) \/
  binary_round_aux prec emax false M e l = S754_infinity false.
Proof.
  intros Hb Hee HM.
  destruct (canonical_facts _ _ Hb) as (Hdx & Hex & Hnorm).
  pose proof (digits2_pos_bounds mx) as [Hmx_low Hmx_high].
  assert (Hpow : 0 < 2 ^ (ex - e)) by (apply Z.pow_pos_nonneg; lia).
  assert (HM0 : 0 < M) by nia.
  pose proof (Zdigits2_bounds M HM0) as [HM_low HM_high].
  pose proof (Zdigits2_pos M HM0) as HdM.
  assert (Hdigits : Z.pos (digits2_pos mx) + ex <= Zdigits2 M + e).
  { destruct (Z.le_gt_cases (Z.pos (digits2_pos mx) + ex) (Zdigits2 M + e))
      as [H | H]; [exact H | exfalso].
    assert (2 ^ Zdigits2 M <= 2 ^ (Z.pos (digits2_pos mx) - 1 + (ex - e)))
      by (apply Z.pow_le_mono_r; lia).
    rewrite Z.pow_add_r in H0 by lia. nia. }
  unfold binary_round_aux.
  destruct (shr_fexp prec emax M e l) as [mrs1 e1] eqn:E1.
  apply shr_fexp_spec in E1 as [Hm1 He1]; [|lia].
  rewrite fexp_binary64 in Hm1, He1.
  pose proof (round_nearest_even_bounds (shr_m mrs1) (loc_of_shr_record mrs1))
    as [Hround _].
  set (m1 := round_nearest_even (shr_m mrs1) (loc_of_shr_record mrs1)) in *.
  assert (He1_ex : ex <= e1) by lia.
  assert (Hm1_pos : 0 < m1 /\ (e1 = ex -> Z.pos mx <= m1)).
  { destruct (Z.eq_dec e1 ex) as [Heq | Hne].
    - assert (Z.pos mx <= shr_m mrs1).
      { rewrite Hm1. replace (Z.max 0 (Z.max (Zdigits2 M + e - 53) (-1074) - e))
          with (ex - e) by lia.
        apply Z.div_le_lower_bound; lia. }
      lia.
    - assert (2 ^ 52 <= shr_m mrs1).
      { rewrite Hm1. replace (Z.max 0 (Z.max (Zdigits2 M + e - 53) (-1074) - e))
          with (Zdigits2 M - 53) by lia.
        apply Z.div_le_lower_bound; [apply Z.pow_pos_nonneg; lia|].
        rewrite <- Z.pow_add_r by lia.
        replace (Zdigits2 M - 53 + 52) with (Zdigits2 M - 1) by lia.
        exact HM_low. }
      split; [lia | intros; lia]. }
  destruct Hm1_pos as [Hm1_pos Hm1_ge].
  destruct (shr_fexp prec emax m1 e1 loc_Exact) as [mrs2 e2] eqn:E2.
  apply shr_fexp_spec in E2 as [Hm2 He2]; [|lia].
  pose proof (shift_keeps_positive m1 e1 Hm1_pos ltac:(lia)) as Hm2_pos.
  rewrite <- Hm2 in Hm2_pos.
  destruct (shr_m mrs2) as [|m2|m2] eqn:Em2; try lia.
  destruct (e2 <=? emax - prec); [left | right; reflexivity].
  exists m2, e2. split; [reflexivity|].
  destruct (Z.eq_dec e2 ex) as [Heq | Hne]; [right | left; lia].
  split; [exact Heq|].
  assert (Hn2 : Z.max 0 (fexp prec emax (Zdigits2 m1 + e1) - e1) = 0) by lia.
  rewrite Hn2, Z.pow_0_r, Z.div_1_r in Hm2. lia.
Qed.

Lemma binary_round_aux_lower M e l mx ex :
  bounded prec emax mx ex = true ->
  e <= ex ->
  Z.pos mx * 2 ^ (ex - e) <= M ->
  (exists m2 e2,
     binary_round_aux prec emax false M e l = S754_finite false m2 e2 /\
     (ex < e2 \/ (e2 = ex /\ Z.pos mx <= Z.pos m2))) \/
  binary_round_aux prec emax false M e l = S754_infinity false.
Proof. intros Hb. apply binary_round_aux_above, bounded_canonical, Hb. Qed.

Lemma binary_round_aux_sign sx M e l :
  0 <= M ->
  binary_round_aux prec emax sx M e l = S754_zero sx \/
  binary_round_aux prec emax sx M e l = S754_infinity sx \/
  exists m2 e2, binary_round_aux prec emax sx M e l = S754_finite sx m2 e2.
Proof.
  intros HM. unfold binary_round_aux.
  destruct (shr_fexp prec emax M e l) as [mrs1 e1] eqn:E1.
  apply shr_fexp_spec in E1 as [Hm1 _]; [|exact HM].
  pose proof (round_nearest_even_bounds (shr_m mrs1) (loc_of_shr_record mrs1))
    as [Hround _].
  assert (0 <= shr_m mrs1) by (rewrite Hm1; apply Z.div_pos; lia).
  set (m1 := round_nearest_even (shr_m mrs1) (loc_of_shr_record mrs1)) in *.
  destruct (shr_fexp prec emax m1 e1 loc_Exact) as [mrs2 e2] eqn:E2.
  apply shr_fexp_spec in E2 as [Hm2 _]; [|lia].
  assert (0 <= shr_m mrs2) by (rewrite Hm2; apply Z.div_pos; lia).
  destruct (shr_m mrs2) as [|m2|m2]; try lia; [left; reflexivity|].
  destruct (e2 <=? emax - prec); [right; right; eauto | right; left; reflexivity].
Qed.

Lemma iter_xO m d : Z.pos (Pos.iter xO m d) = Z.pos m * 2 ^ Z.pos d.
Proof.
  induction d as [|d IH] using Pos.peano_ind.
  - simpl. lia.
  - rewrite Pos.iter_succ, Pos2Z.inj_xO, IH, Pos2Z.inj_succ, Z.pow_succ_r by lia.
    lia.
Qed.

Lemma shl_align_spec m e e' :
  Z.pos (fst (shl_align m e e')) = Z.pos m * 2 ^ (e - Z.min e e') /\
  snd (shl_align m e e') = Z.min e e'.
Proof.
  unfold shl_align. destruct (e' - e) as [|d|d] eqn:Ed; cbn [fst snd].
  - replace (e - Z.min e e') with 0 by lia. rewrite Z.pow_0_r. lia.
  - replace (e - Z.min e e') with 0 by lia. rewrite Z.pow_0_r. lia.
  - rewrite iter_xO. replace (e - Z.min e e') with (Z.pos d) by lia. lia.
Qed.

(** Adding a positive number to a number of the format does not go below it. *)
Lemma SFadd_lower mx ex my ey :
  bounded prec emax mx ex = true ->
  (exists m2 e2,
     SF64add (S754_finite false mx ex) (S754_finite false my ey) =
       S754_finite false m2 e2 /\
     (ex < e2 \/ (e2 = ex /\ Z.pos mx <= Z.pos m2))) \/
  SF64add (S754_finite false mx ex) (S754_finite false my ey) =
    S754_infinity false.
Proof.
  intros Hb. unfold SF64add, SFadd, cond_Zopp.
  set (ez := Z.min ex ey).
  destruct (shl_align_spec mx ex ez) as [Hx _].
  destruct (shl_align_spec my ey ez) as [Hy _].
  replace (Z.min ex ez) with ez in Hx by lia.
  set (Mx := fst (shl_align mx ex ez)) in *.
  set (My := fst (shl_align my ey ez)) in *.
  change (Z.pos Mx + Z.pos My) with (Z.pos (Mx + My)).
  unfold binary_normalize, binary_round.
  destruct (shl_align (Mx + My) ez
              (fexp prec emax (Z.pos (digits2_pos (Mx + My)) + ez)))
    as [mz ez'] eqn:Ealign.
  destruct (shl_align_spec (Mx + My) ez
              (fexp prec emax (Z.pos (digits2_pos (Mx + My)) + ez)))
    as [Hmz Hez].
  rewrite Ealign in Hmz, Hez. cbn [fst snd] in Hmz, Hez.
  apply binary_round_aux_lower; [exact Hb | lia |].
  rewrite Hmz, <- Hez.
  replace (ex - ez') with ((ex - ez) + (ez - ez')) by lia.
  rewrite Z.pow_add_r by lia.
  assert (0 < 2 ^ (ez - ez')) by (apply Z.pow_pos_nonneg; lia).
  rewrite Pos2Z.inj_add. nia.
Qed.

Lemma SFmul_sign mx ex my ey :
  SF64mul (S754_finite false mx ex) (S754_finite false my ey) = S754_zero false \/
  SF64mul (S754_finite false mx ex) (S754_finite false my ey) =
    S754_infinity false \/
  exists m2 e2,
    SF64mul (S754_finite false mx ex) (S754_finite false my ey) =
      S754_finite false m2 e2.
Proof.
  unfold SF64mul, SFmul. cbn [xorb]. apply binary_round_aux_sign. lia.
Qed.

Lemma round_magnitude_scaled m e k :
  0 <= k -> 0 <= e + k ->
  Py.round_magnitude m e = Py.round_half_even (Z.pos m * 2 ^ (e + k)) (2 ^ k).
Proof.
  intros Hk Hek. unfold Py.round_magnitude.
  assert (0 < 2 ^ k) by (apply Z.pow_pos_nonneg; lia).
  destruct (0 <=? e) eqn:E.
  - apply Z.leb_le in E. rewrite Z.pow_add_r, Z.mul_assoc by lia.
    rewrite round_half_even_exact by lia. reflexivity.
  - apply Z.leb_gt in E.
    replace (2 ^ k) with (2 ^ (- e) * 2 ^ (e + k)).
    2:{ rewrite <- Z.pow_add_r by lia. f_equal. lia. }
    rewrite round_half_even_scale; [reflexivity | |];
      apply Z.pow_pos_nonneg; lia.
Qed.

Lemma round_magnitude_mono mx ex m2 e2 :
  bounded prec emax mx ex = true ->
  bounded prec emax m2 e2 = true ->
  ex < e2 \/ (e2 = ex /\ Z.pos mx <= Z.pos m2) ->
  Py.round_magnitude mx ex <= Py.round_magnitude m2 e2.
Proof.
  intros Hbx Hb2 Hle.
  destruct (bounded_facts _ _ Hbx) as (Hdx & Hex & _).
  destruct (bounded_facts _ _ Hb2) as (Hd2 & He2 & Hnorm2).
  pose proof (digits2_pos_bounds mx) as [_ Hmx].
  pose proof (digits2_pos_bounds m2) as [Hm2 _].
  set (k := Z.max 0 (- ex)).
  rewrite (round_magnitude_scaled mx ex k), (round_magnitude_scaled m2 e2 k) by lia.
  apply round_half_even_mono; [apply Z.pow_pos_nonneg; lia|].
  destruct Hle as [Hlt | [-> Hm]].
  - assert (Hd : Z.pos (digits2_pos m2) = 53) by lia. rewrite Hd in Hm2.
    assert (Z.pos mx < 2 ^ 53).
    { apply Z.lt_le_trans with (1 := Hmx). apply Z.pow_le_mono_r; lia. }
    replace (e2 + k) with ((ex + k) + (e2 - ex)) by lia.
    rewrite (Z.pow_add_r 2 (ex + k) (e2 - ex)) by lia.
    assert (0 < 2 ^ (ex + k)) by (apply Z.pow_pos_nonneg; lia).
    assert (2 ^ 1 <= 2 ^ (e2 - ex)) by (apply Z.pow_le_mono_r; lia).
    change (2 ^ 52) with 4503599627370496 in Hm2.
    change (2 ^ 53) with 9007199254740992 in H.
    change (2 ^ 1) with 2 in H1.
    apply Z.le_trans with (Z.pos m2 * 2 ^ (ex + k) * 2).
    + apply Z.le_trans with (2 * Z.pos m2 * 2 ^ (ex + k)); [|lia].
      apply Z.mul_le_mono_nonneg_r; lia.
    + rewrite Z.mul_assoc. apply Z.mul_le_mono_nonneg_l; [|exact H1].
      apply Z.mul_nonneg_nonneg; lia.
  - assert (0 < 2 ^ (ex + k)) by (apply Z.pow_pos_nonneg; lia). nia.
Qed.

Lemma round_positive f m e :
  Prim2SF f = S754_finite false m e -> Py.round f = ok (Py.round_magnitude m e).
Proof. intros H. unfold Py.round. rewrite H. reflexivity. Qed.

Lemma round_infinity f s r : Prim2SF f = S754_infinity s -> Py.round f <> ok r.
Proof. intros H. unfold Py.round. rewrite H. discriminate. Qed.

Lemma positive_float s :
  PrimFloat.ltb 0 s = true ->
  (exists m e, Prim2SF s = S754_finite false m e) \/
  Prim2SF s = S754_infinity false.
Proof.
  rewrite ltb_spec. change (Prim2SF 0) with (S754_zero false).
  destruct (Prim2SF s) as [[]|[]| |[] m e]; try discriminate; eauto.
Qed.

Lemma ltb_positive f m e :
  Prim2SF f = S754_finite false m e -> PrimFloat.ltb 0 f = true.
Proof.
  intros H. rewrite ltb_spec, H. change (Prim2SF 0) with (S754_zero false).
  reflexivity.
Qed.

Lemma ltb_infinity f :
  Prim2SF f = S754_infinity false -> PrimFloat.ltb 0 f = true.
Proof.
  intros H. rewrite ltb_spec, H. change (Prim2SF 0) with (S754_zero false).
  reflexivity.
Qed.

Lemma mul_zero s m e :
  Prim2SF s = S754_finite false m e -> (s * 0)%float = 0%float.
Proof.
  intros H. apply Prim2SF_inj. rewrite mul_spec, H.
  change (Prim2SF 0) with (S754_zero false). reflexivity.
Qed.

Lemma add_zero s m e :
  Prim2SF s = S754_finite false m e -> (s + 0)%float = s.
Proof.
  intros H. apply Prim2SF_inj. rewrite add_spec, H.
  change (Prim2SF 0) with (S754_zero false). reflexivity.
Qed.

(** A positive finite subtotal with its 40% margin added: the sum is the
    subtotal again, or a finite float that is not below it, or infinite. *)
Lemma add_margin s m e :
  Prim2SF s = S754_finite false m e ->
  (s + s * 0.4)%float = s \/
  Prim2SF (s + s * 0.4)%float = S754_infinity false \/
  exists m2 e2,
    Prim2SF (s + s * 0.4)%float = S754_finite false m2 e2 /\
    (e < e2 \/ (e2 = e /\ Z.pos m <= Z.pos m2)).
Proof.
  intros H.
  pose proof (Prim2SF_valid s) as Hvalid. rewrite H in Hvalid.
  assert (Hmul : Prim2SF (s * 0.4)%float =
                 SF64mul (S754_finite false m e)
                         (S754_finite false 7205759403792794 (-54))).
  { rewrite mul_spec, H. reflexivity. }
  destruct (SFmul_sign m e 7205759403792794 (-54)) as [Hz | [Hi | (mm & em & Hf)]].
  - left. rewrite Hz in Hmul.
    assert (Hzero : (s * 0.4)%float = 0%float)
      by (apply Prim2SF_inj; rewrite Hmul; reflexivity).
    rewrite Hzero. exact (add_zero _ _ _ H).
  - right. left. rewrite add_spec, Hmul, Hi, H. reflexivity.
  - right. rewrite add_spec, Hmul, Hf, H.
    destruct (SFadd_lower m e mm em Hvalid) as [(m2 & e2 & -> & Hle) | ->];
      [right; eauto | left; reflexivity].
Qed.

Lemma scaled_rebase m e z :
  -1074 <= z -> z <= e -> scaled m e = Z.pos m * 2 ^ (e - z) * 2 ^ (z + 1074).
Proof.
  intros Hz Hze. unfold scaled.
  rewrite <- Z.mul_assoc, <- Z.pow_add_r by lia. do 2 f_equal. lia.
Qed.

Lemma canonical_mantissa_bounds mx ex :
  canonical_mantissa prec emax mx ex = true ->
  -1074 <= ex /\ Z.pos mx < 2 ^ 53 /\ (-1074 < ex -> 2 ^ 52 <= Z.pos mx).
Proof.
  intros Hb. destruct (canonical_facts _ _ Hb) as (Hd & He & Hn).
  pose proof (digits2_pos_bounds mx) as [Hlo Hhi].
  split; [exact He|]. split.
  - eapply Z.lt_le_trans; [exact Hhi|]. apply Z.pow_le_mono_r; lia.
  - intros Hlt. destruct Hn as [Hn | Hn]; [|lia]. rewrite Hn in Hlo. exact Hlo.
Qed.

(** The order of the numbers in canonical form, on their values. *)
Lemma struct_le_scaled mx ex my ey :
  canonical_mantissa prec emax mx ex = true ->
  canonical_mantissa prec emax my ey = true ->
  ex < ey \/ (ey = ex /\ Z.pos mx <= Z.pos my) ->
  scaled mx ex <= scaled my ey.
Proof.
  intros Hx Hy [Hlt | [-> Hm]].
  - destruct (canonical_mantissa_bounds _ _ Hx) as (Hex & Hmx & _).
    destruct (canonical_mantissa_bounds _ _ Hy) as (_ & _ & Hmy).
    specialize (Hmy ltac:(lia)).
    rewrite (scaled_rebase my ey ex) by lia. unfold scaled.
    apply Z.mul_le_mono_nonneg_r; [apply Z.pow_nonneg; lia|].
    assert (H : 2 ^ 1 <= 2 ^ (ey - ex)) by (apply Z.pow_le_mono_r; lia).
    change (2 ^ 1) with 2 in H. change (2 ^ 53) with (2 * 2 ^ 52) in Hmx.
    apply Z.le_trans with (Z.pos my * 2); [lia|].
    apply Z.mul_le_mono_nonneg_l; lia.
  - unfold scaled. apply Z.mul_le_mono_nonneg_r; [apply Z.pow_nonneg; lia | lia].
Qed.

Lemma scaled_le_exponent mx ex my ey :
  canonical_mantissa prec emax mx ex = true ->
  canonical_mantissa prec emax my ey = true ->
  scaled mx ex <= scaled my ey -> ex <= ey.
Proof.
  intros Hx Hy Hle. destruct (Z.le_gt_cases ex ey) as [H | H]; [exact H | exfalso].
  destruct (canonical_mantissa_bounds _ _ Hy) as (Hey & Hmy & _).
  destruct (canonical_mantissa_bounds _ _ Hx) as (_ & _ & Hmx).
  specialize (Hmx ltac:(lia)).
  rewrite (scaled_rebase mx ex ey) in Hle by lia. unfold scaled in Hle.
  assert (Hp : 0 < 2 ^ (ey + 1074)) by (apply Z.pow_pos_nonneg; lia).
  assert (H2 : 2 ^ 1 <= 2 ^ (ex - ey)) by (apply Z.pow_le_mono_r; lia).
  change (2 ^ 1) with 2 in H2. change (2 ^ 53) with (2 * 2 ^ 52) in Hmy.
  assert (Hlt : Z.pos my < Z.pos mx * 2 ^ (ex - ey)).
  { apply Z.lt_le_trans with (Z.pos mx * 2); [lia|].
    apply Z.mul_le_mono_nonneg_l; lia. }
  apply (Z.mul_lt_mono_pos_r _ _ _ Hp) in Hlt. lia.
Qed.

Lemma round_magnitude_value m e :
  -1074 <= e -> Py.round_magnitude m e = Py.round_half_even (scaled m e) (2 ^ 1074).
Proof. intros He. unfold scaled. apply round_magnitude_scaled; lia. Qed.

Lemma round_half_even_below a d q :
  0 < d -> 2 * a < (2 * q + 1) * d -> Py.round_half_even a d <= q.
Proof.
  intros Hd H. unfold Py.round_half_even.
  pose proof (Z.div_mod a d ltac:(lia)) as Ha.
  pose proof (Z.mod_pos_bound a d Hd) as Hr.
  set (q0 := a / d) in *. set (r := a mod d) in *.
  assert (Hq : q0 <= q) by nia.
  destruct (2 * r <? d) eqn:E1; [exact Hq|].
  apply Z.ltb_ge in E1.
  assert (Hq' : q0 + 1 <= q) by nia.
  destruct (d <? 2 * r); [exact Hq'|]. destruct (Z.even q0); lia.
Qed.

Lemma round_half_even_above a d q :
  0 < d -> q * d <= a -> q <= Py.round_half_even a d.
Proof.
  intros Hd H. rewrite <- (round_half_even_exact q d Hd).
  apply round_half_even_mono; assumption.
Qed.

Lemma round_half_even_upper a d :
  0 < d -> 2 * Py.round_half_even a d * d <= 2 * a + d.
Proof.
  intros Hd. unfold Py.round_half_even.
  pose proof (Z.div_mod a d ltac:(lia)) as Ha.
  pose proof (Z.mod_pos_bound a d Hd) as Hr.
  set (q0 := a / d) in *. set (r := a mod d) in *.
  destruct (2 * r <? d) eqn:E1; [nia|].
  apply Z.ltb_ge in E1.
  destruct (d <? 2 * r); [nia|]. destruct (Z.even q0); nia.
Qed.

Lemma round_half_even_floor a d :
  0 < d -> a < (Py.round_half_even a d + 1) * d.
Proof.
  intros Hd. pose proof (round_half_even_bounds a d Hd) as [Hlo _].
  pose proof (Z.div_mod a d ltac:(lia)) as Ha.
  pose proof (Z.mod_pos_bound a d Hd) as Hr. nia.
Qed.

Lemma digits2_pos_unique p d :
  0 < d -> 2 ^ (d - 1) <= Z.pos p < 2 ^ d -> Z.pos (digits2_pos p) = d.
Proof.
  intros Hd [Hlo Hhi]. pose proof (digits2_pos_bounds p) as [Hl Hh].
  assert (Z.pos (digits2_pos p) - 1 < d) by (apply (Z.pow_lt_mono_r_iff 2); lia).
  assert (d - 1 < Z.pos (digits2_pos p)) by (apply (Z.pow_lt_mono_r_iff 2); lia).
  lia.
Qed.

(** A positive integer below [2 ^ 53] has a canonical form. *)
Lemma canonical_int N :
  0 < N < 2 ^ 53 ->
  exists mb eb,
    canonical_mantissa prec emax mb eb = true /\ scaled mb eb = N * 2 ^ 1074.
Proof.
  intros [H0 H53]. pose proof (Zdigits2_bounds N H0) as [Hlo Hhi].
  pose proof (Zdigits2_pos N H0) as Hd.
  set (d := Zdigits2 N) in *.
  assert (Hd53 : d <= 53).
  { destruct (Z.le_gt_cases d 53) as [H | H]; [exact H | exfalso].
    assert (2 ^ 53 <= 2 ^ (d - 1)) by (apply Z.pow_le_mono_r; lia). lia. }
  set (M := N * 2 ^ (53 - d)).
  assert (HM : 2 ^ 52 <= M < 2 ^ 53).
  { unfold M. split.
    - replace (2 ^ 52) with (2 ^ ((d - 1) + (53 - d))) by (f_equal; lia).
      rewrite Z.pow_add_r by lia.
      apply Z.mul_le_mono_nonneg_r; [apply Z.pow_nonneg; lia | exact Hlo].
    - replace (2 ^ 53) with (2 ^ (d + (53 - d))) by (f_equal; lia).
      rewrite Z.pow_add_r by lia.
      apply Z.mul_lt_mono_pos_r; [apply Z.pow_pos_nonneg; lia | exact Hhi]. }
  assert (HMpos : Z.pos (Z.to_pos M) = M).
  { apply Z2Pos.id. apply Z.lt_le_trans with (2 ^ 52); [reflexivity | lia]. }
  exists (Z.to_pos M), (d - 53). split.
  - unfold canonical_mantissa.
    rewrite (digits2_pos_unique _ 53)
      by (rewrite ?HMpos; change (53 - 1) with 52; lia).
    rewrite fexp_binary64. apply Z.eqb_eq. lia.
  - unfold scaled. rewrite HMpos. unfold M.
    rewrite <- Z.mul_assoc, <- Z.pow_add_r by lia. do 2 f_equal. lia.
Qed.

(** A product is not below a number of the format that the exact product is
    not below. *)
Lemma mul_lower (s c : float) m es mc ec mb eb :
  Prim2SF s = S754_finite false m es ->
  Prim2SF c = S754_finite false mc ec ->
  canonical_mantissa prec emax mb eb = true ->
  -1074 <= es + ec -> es + ec <= eb ->
  scaled mb eb <= Z.pos m * Z.pos mc * 2 ^ (es + ec + 1074) ->
  (exists m2 e2,
      Prim2SF (s * c)%float = S754_finite false m2 e2 /\
      scaled mb eb <= scaled m2 e2) \/
  Prim2SF (s * c)%float = S754_infinity false.
Proof.
  intros Hs Hc Hb Hlow Hle Hval.
  pose proof (Prim2SF_valid (s * c)) as Hv.
  rewrite mul_spec, Hs, Hc in Hv |- *.
  unfold SF64mul, SFmul in Hv |- *. cbn [xorb] in Hv |- *.
  destruct (binary_round_aux_above (Z.pos (m * mc)) (es + ec) loc_Exact mb eb Hb Hle)
    as [(m2 & e2 & E & Hst) | E].
  - rewrite (scaled_rebase mb eb (es + ec)) in Hval by lia.
    apply Z.mul_le_mono_pos_r in Hval; [|apply Z.pow_pos_nonneg; lia].
    rewrite Pos2Z.inj_mul. exact Hval.
  - left. exists m2, e2. rewrite E in Hv |- *. split; [reflexivity|].
    apply struct_le_scaled;
      [exact Hb | exact (bounded_canonical _ _ Hv) | exact Hst].
  - right. exact E.
Qed.

Lemma SFadd_above mx ex my ey mb eb :
  canonical_mantissa prec emax mb eb = true ->
  -1074 <= ex -> -1074 <= ey ->
  Z.min ex ey <= eb ->
  scaled mb eb <= scaled mx ex + scaled my ey ->
  (exists m2 e2,
     SF64add (S754_finite false mx ex) (S754_finite false my ey) =
       S754_finite false m2 e2 /\
     (eb < e2 \/ (e2 = eb /\ Z.pos mb <= Z.pos m2))) \/
  SF64add (S754_finite false mx ex) (S754_finite false my ey) =
    S754_infinity false.
Proof.
  intros Hb Hex Hey Hmin Hval. unfold SF64add, SFadd, cond_Zopp.
  set (ez := Z.min ex ey) in *.
  destruct (shl_align_spec mx ex ez) as [Hx _].
  destruct (shl_align_spec my ey ez) as [Hy _].
  replace (Z.min ex ez) with ez in Hx by lia.
  replace (Z.min ey ez) with ez in Hy by lia.
  set (Mx := fst (shl_align mx ex ez)) in *.
  set (My := fst (shl_align my ey ez)) in *.
  change (Z.pos Mx + Z.pos My) with (Z.pos (Mx + My)).
  unfold binary_normalize, binary_round.
  destruct (shl_align (Mx + My) ez
              (fexp prec emax (Z.pos (digits2_pos (Mx + My)) + ez)))
    as [mz ez'] eqn:Ealign.
  destruct (shl_align_spec (Mx + My) ez
              (fexp prec emax (Z.pos (digits2_pos (Mx + My)) + ez)))
    as [Hmz Hez].
  rewrite Ealign in Hmz, Hez. cbn [fst snd] in Hmz, Hez.
  apply binary_round_aux_above; [exact Hb | lia |].
  rewrite Hmz, <- Hez.
  assert (Hrel : Z.pos mb * 2 ^ (eb - ez) <= Z.pos (Mx + My)).
  { rewrite Pos2Z.inj_add, Hx, Hy.
    rewrite (scaled_rebase mb eb ez), (scaled_rebase mx ex ez),
      (scaled_rebase my ey ez), <- Z.mul_add_distr_r in Hval by lia.
    apply Z.mul_le_mono_pos_r in Hval; [exact Hval|].
    apply Z.pow_pos_nonneg; lia. }
  replace (eb - ez') with ((eb - ez) + (ez - ez')) by lia.
  rewrite Z.pow_add_r, Z.mul_assoc by lia.
  apply Z.mul_le_mono_nonneg_r; [apply Z.pow_nonneg; lia | exact Hrel].
Qed.

(** A sum is not below a number of the format that the exact sum is not
    below. *)
Lemma add_lower (x y : float) mx ex my ey mb eb :
  Prim2SF x = S754_finite false mx ex ->
  Prim2SF y = S754_finite false my ey ->
  canonical_mantissa prec emax mb eb = true ->
  ex <= eb ->
  scaled mb eb <= scaled mx ex + scaled my ey ->
  (exists m2 e2,
      Prim2SF (x + y)%float = S754_finite false m2 e2 /\
      scaled mb eb <= scaled m2 e2) \/
  Prim2SF (x + y)%float = S754_infinity false.
Proof.
  intros Hx Hy Hb Hle Hval.
  pose proof (Prim2SF_valid x) as Hvx. rewrite Hx in Hvx.
  pose proof (Prim2SF_valid y) as Hvy. rewrite Hy in Hvy.
  destruct (canonical_mantissa_bounds _ _ (bounded_canonical _ _ Hvx)) as (Hex & _).
  destruct (canonical_mantissa_bounds _ _ (bounded_canonical _ _ Hvy)) as (Hey & _).
  pose proof (Prim2SF_valid (x + y)) as Hv.
  rewrite add_spec, Hx, Hy in Hv |- *.
  destruct (SFadd_above mx ex my ey mb eb Hb Hex Hey ltac:(lia) Hval)
    as [(m2 & e2 & E & Hst) | E].
  - left. exists m2, e2. rewrite E in Hv |- *. split; [reflexivity|].
    apply struct_le_scaled;
      [exact Hb | exact (bounded_canonical _ _ Hv) | exact Hst].
  - right. exact E.
Qed.

Lemma leb_scaled (a s : float) ma ea m es :
  Prim2SF a = S754_finite false ma ea ->
  Prim2SF s = S754_finite false m es ->
  PrimFloat.leb a s = true -> scaled ma ea <= scaled m es.
Proof.
  intros Ha Hs H.
  pose proof (Prim2SF_valid a) as Hva. rewrite Ha in Hva.
  pose proof (Prim2SF_valid s) as Hvs. rewrite Hs in Hvs.
  rewrite leb_spec, Ha, Hs in H. unfold SFleb, SFcompare in H.
  apply struct_le_scaled;
    [exact (bounded_canonical _ _ Hva) | exact (bounded_canonical _ _ Hvs) |].
  destruct (Z.compare_spec ea es) as [Heq | Hlt | Hgt]; [|left; exact Hlt|discriminate H].
  right. split; [symmetry; exact Heq|].
  change (Z.pos ma <= Z.pos m) with (ma <= m)%positive.
  unfold Pos.le. fold (Pos.compare ma m) in H.
  destruct (ma ?= m)%positive; [discriminate | discriminate | discriminate H].
Qed.

(** The float after a normal one, in canonical form. *)
Lemma successor_canonical m e :
  canonical_mantissa prec emax m e = true -> 2 ^ 52 <= Z.pos m ->
  exists mb eb,
    canonical_mantissa prec emax mb eb = true /\ e <= eb /\
    scaled mb eb = (Z.pos m + 1) * 2 ^ (e + 1074).
Proof.
  intros Hc Hm. destruct (canonical_mantissa_bounds _ _ Hc) as (He & Hm53 & _).
  destruct (Z.lt_ge_cases (Z.pos m + 1) (2 ^ 53)) as [Hlt | Hge].
  - exists (m + 1)%positive, e. split; [|split; [lia|]].
    + unfold canonical_mantissa.
      rewrite (digits2_pos_unique _ 53)
        by (rewrite ?Pos2Z.inj_add; change (53 - 1) with 52; lia).
      rewrite fexp_binary64. apply Z.eqb_eq. lia.
    + unfold scaled. rewrite Pos2Z.inj_add. reflexivity.
  - exists 4503599627370496%positive, (e + 1). split; [|split; [lia|]].
    + unfold canonical_mantissa.
      change (Z.pos (digits2_pos 4503599627370496)) with 53.
      rewrite fexp_binary64. apply Z.eqb_eq. lia.
    + unfold scaled. replace (Z.pos m + 1) with (2 ^ 53) by lia.
      replace (e + 1 + 1074) with (1 + (e + 1074)) by lia.
      rewrite Z.pow_add_r by lia. change (2 ^ 53) with (4503599627370496 * 2 ^ 1).
      ring.
Qed.

(** The total with the margin is not below the rounding of a number in
    canonical form that the subtotal plus a lower bound of its margin is
    not below. *)
Lemma margin_sum_lower (s : float) m es mg eg mb eb mr t4 :
  Prim2SF s = S754_finite false m es ->
  canonical_mantissa prec emax mg eg = true ->
  canonical_mantissa prec emax mb eb = true ->
  -1020 <= es -> es - 54 <= eg -> es <= eb ->
  scaled mg eg * 2 ^ 54 <= scaled m es * 7205759403792794 ->
  scaled mb eb <= scaled m es + scaled mg eg ->
  Py.round (s * 0.4) = ok mr ->
  Py.round (s + s * 0.4) = ok t4 ->
  Py.round_magnitude mb eb <= t4.
Proof.
  intros Hs Hg Hb Hes Heg Heb Hmargin Hsum Emr Et4.
  assert (Hc : Prim2SF 0.4 = S754_finite false 7205759403792794 (-54))
    by reflexivity.
  destruct (mul_lower s 0.4 m es _ _ mg eg Hs Hc Hg ltac:(lia) ltac:(lia))
    as [(mm & em & Hmm & Hle) | Hinf].
  { apply (Z.mul_le_mono_pos_r _ _ (2 ^ 54)); [reflexivity|].
    eapply Z.le_trans; [exact Hmargin|]. unfold scaled.
    replace (es + 1074) with ((es + -54 + 1074) + 54) by lia.
    rewrite Z.pow_add_r by lia. lia. }
  2:{ exfalso. exact (round_infinity _ _ _ Hinf Emr). }
  destruct (add_lower s (s * 0.4) m es mm em mb eb Hs Hmm Hb Heb)
    as [(m2 & e2 & H2 & Hle2) | Hinf]; [lia | |].
  2:{ exfalso. exact (round_infinity _ _ _ Hinf Et4). }
  rewrite (round_positive _ _ _ H2) in Et4. apply ok_inj in Et4. subst t4.
  pose proof (Prim2SF_valid (s + s * 0.4)) as Hv2. rewrite H2 in Hv2.
  destruct (canonical_mantissa_bounds _ _ Hb) as (Hebl & _).
  destruct (canonical_mantissa_bounds _ _ (bounded_canonical _ _ Hv2)) as (He2 & _).
  rewrite !round_magnitude_value by assumption.
  apply round_half_even_mono; [apply Z.pow_pos_nonneg; lia | exact Hle2].
Qed.

(** From 2.5 cents on, the margin of 40% raises the rounded total. *)
Lemma margin_strict (s : float) m es t0 mr t4 :
  Prim2SF s = S754_finite false m es ->
  PrimFloat.leb 2.5 s = true ->
  Py.round s = ok t0 ->
  Py.round (s * 0.4) = ok mr ->
  Py.round (s + s * 0.4) = ok t4 ->
  t0 < t4.
Proof.
  intros Hs Hlow E0 Emr E4.
  pose proof (Prim2SF_valid s) as Hvs. rewrite Hs in Hvs.
  apply bounded_canonical in Hvs.
  destruct (canonical_mantissa_bounds _ _ Hvs) as (Hes & Hm53 & Hm52).
  rewrite (round_positive _ _ _ Hs) in E0. apply ok_inj in E0. subst t0.
  pose proof (leb_scaled 2.5 s 5629499534213120 (-51) m es eq_refl Hs Hlow) as H25.
  assert (Hes51 : -51 <= es).
  { apply (scaled_le_exponent 5629499534213120 (-51) m es);
      [reflexivity | exact Hvs | exact H25]. }
  specialize (Hm52 ltac:(lia)).
  destruct (Z.lt_ge_cases es 0) as [Hneg | Hnonneg].
  - (* the subtotal has a fractional part *)
    rewrite round_magnitude_value by exact Hes.
    assert (H52 : scaled m es < 4503599627370496 * 2 ^ 1074).
    { unfold scaled. change (2 ^ 1074) with (2 * 2 ^ 1073).
      change (2 ^ 53) with (2 * 4503599627370496) in Hm53.
      assert (Hp : 2 ^ (es + 1074) <= 2 ^ 1073) by (apply Z.pow_le_mono_r; lia).
      assert (Hp0 : 0 < 2 ^ (es + 1074)) by (apply Z.pow_pos_nonneg; lia).
      apply Z.lt_le_trans with (2 * 4503599627370496 * 2 ^ (es + 1074)).
      - apply Z.mul_lt_mono_pos_r; assumption.
      - lia. }
    assert (V25 : 2 * scaled 5629499534213120 (-51) = 5 * 2 ^ 1074)
      by (vm_compute; reflexivity).
    assert (V10 : scaled 4503599627370496 (-52) = 2 ^ 1074)
      by (vm_compute; reflexivity).
    assert (V125 : 4 * scaled 5629499534213120 (-52) = 5 * 2 ^ 1074)
      by (vm_compute; reflexivity).
    assert (V15 : 2 * scaled 6755399441055744 (-52) = 3 * 2 ^ 1074)
      by (vm_compute; reflexivity).
    assert (V35 : 2 * scaled 7881299347898368 (-51) = 7 * 2 ^ 1074)
      by (vm_compute; reflexivity).
    assert (V475 : 4 * scaled 5348024557502464 (-50) = 19 * 2 ^ 1074)
      by (vm_compute; reflexivity).
    assert (HU : 0 < 2 ^ 1074) by reflexivity.
    assert (P54 : 2 ^ 54 = 18014398509481984) by reflexivity.
    set (S := scaled m es) in *.
    remember (2 ^ 1074) as U eqn:EU.
    destruct (Z.lt_ge_cases (2 * S) (7 * U)) as [HA | HA].
    + (* below 3.5: the total with the margin is at least 4 *)
      assert (H3 : Py.round_half_even S U <= 3)
        by (apply round_half_even_below; lia).
      assert (H4 : Py.round_magnitude 7881299347898368 (-51) <= t4).
      { apply (margin_sum_lower s m es 4503599627370496 (-52)
                 7881299347898368 (-51) mr t4 Hs eq_refl eq_refl);
          try assumption; try lia.
        apply (scaled_le_exponent m es 7881299347898368 (-51));
          [exact Hvs | reflexivity | fold S; lia]. }
      change (Py.round_magnitude 7881299347898368 (-51)) with 4 in H4. lia.
    + destruct (Z.lt_ge_cases (2 * S) (9 * U)) as [HB | HB].
      * (* from 3.5, below 4.5: the total with the margin is at least 5 *)
        assert (H3 : Py.round_half_even S U <= 4)
          by (apply round_half_even_below; lia).
        assert (H4 : Py.round_magnitude 5348024557502464 (-50) <= t4).
        { apply (margin_sum_lower s m es 5629499534213120 (-52)
                   5348024557502464 (-50) mr t4 Hs eq_refl eq_refl);
            try assumption; try lia.
          apply (scaled_le_exponent m es 5348024557502464 (-50));
            [exact Hvs | reflexivity | fold S; lia]. }
        change (Py.round_magnitude 5348024557502464 (-50)) with 5 in H4. lia.
      * (* from 4.5: the margin is at least 1.5, and the sum reaches the
           integer after the rounded subtotal *)
        set (n := Py.round_half_even S U).
        pose proof (round_half_even_upper S U HU) as Hup. fold n in Hup.
        pose proof (round_half_even_floor S U HU) as Hfl. fold n in Hfl.
        assert (Hn4 : 4 <= n) by (apply round_half_even_above; lia).
        assert (Hn52 : n + 1 < 2 ^ 53).
        { change (2 ^ 53) with 9007199254740992.
          assert (2 * n * U < 9007199254740994 * U) by lia.
          assert (2 * n < 9007199254740994) by nia. lia. }
        destruct (canonical_int (n + 1) ltac:(lia)) as (mb & eb & Hb & Vb).
        rewrite <- EU in Vb.
        assert (H4 : Py.round_magnitude mb eb <= t4).
        { apply (margin_sum_lower s m es 6755399441055744 (-52) mb eb mr t4
                   Hs eq_refl Hb);
            try assumption; try lia.
          apply (scaled_le_exponent m es mb eb); [exact Hvs | exact Hb |].
          fold S. lia. }
        destruct (canonical_mantissa_bounds _ _ Hb) as (Hebl & _).
        rewrite round_magnitude_value, Vb, <- EU, round_half_even_exact in H4
          by assumption.
        lia.
  - (* the subtotal is an integer from [2 ^ 52] on: the margin is at least
       two units in its last place, and the sum reaches the next float *)
    unfold Py.round_magnitude at 1.
    rewrite (proj2 (Z.leb_le 0 es)) by lia.
    destruct (successor_canonical m es Hvs Hm52) as (mb & eb & Hb & Heb & Vb).
    assert (HW : 0 < 2 ^ (es + 1074)) by (apply Z.pow_pos_nonneg; lia).
    assert (Hg : canonical_mantissa prec emax 4503599627370496 (es - 51) = true).
    { unfold canonical_mantissa.
      change (Z.pos (digits2_pos 4503599627370496)) with 53.
      rewrite fexp_binary64. apply Z.eqb_eq. lia. }
    assert (Vg : scaled 4503599627370496 (es - 51) = 2 * 2 ^ (es + 1074)).
    { unfold scaled. replace (es + 1074) with ((es - 51 + 1074) + 51) by lia.
      rewrite (Z.pow_add_r 2 (es - 51 + 1074) 51) by lia.
      change (2 ^ 51) with 2251799813685248. lia. }
    assert (H4 : Py.round_magnitude mb eb <= t4).
    { apply (margin_sum_lower s m es 4503599627370496 (es - 51) mb eb mr t4
               Hs Hg Hb);
        try assumption; try lia.
      - rewrite Vg. unfold scaled. change (2 ^ 54) with 18014398509481984.
        change (2 ^ 52) with 4503599627370496 in Hm52.
        assert (2 * 18014398509481984 <= Z.pos m * 7205759403792794) by lia.
        nia.
      - rewrite Vb, Vg. unfold scaled. lia. }
    destruct (canonical_mantissa_bounds _ _ Hb) as (Hebl & _).
    rewrite round_magnitude_value, Vb in H4 by assumption.
    replace ((Z.pos m + 1) * 2 ^ (es + 1074))
      with ((Z.pos m + 1) * 2 ^ es * 2 ^ 1074) in H4
      by (rewrite Z.pow_add_r by lia; ring).
    rewrite round_half_even_exact in H4 by reflexivity.
    assert (0 < 2 ^ es) by (apply Z.pow_pos_nonneg; lia). lia.
Qed.

End RoundingProofs.

(** C5 (as amended). For all token and query counts whose float subtotal [s]
    is positive and for which [calculate] returns with margin 0 and with
    margin 0.4: the total without the margin is [round(s)] and the total with
    it is [round(s + s * 0.4)]; the total with the margin is never smaller;
    it is strictly greater exactly when the two roundings differ, and they
    do whenever the subtotal is at least 2.5 cents (below that they can
    coincide); the margin is charged as
    [max(1, round(s * 0.4))] cents where margin 0 charges none; and the
    embedding, language-model and vector costs are the same. *)
Theorem margin_raises_total e i o v s c0 c4 :
  CostBreakdown.subtotal e i o v = ok s ->
  PrimFloat.ltb 0 s = true ->
  CostBreakdown.calculate e i o v 0 = ok c0 ->
  CostBreakdown.calculate e i o v 0.4 = ok c4 ->
  Py.round s = ok (CostBreakdown.total_cents c0) /\
  Py.round (s + s * 0.4) = ok (CostBreakdown.total_cents c4) /\
  CostBreakdown.total_cents c0 <= CostBreakdown.total_cents c4 /\
  (CostBreakdown.total_cents c0 < CostBreakdown.total_cents c4 <->
   Py.round s <> Py.round (s + s * 0.4)) /\
  (PrimFloat.leb 2.5 s = true ->
   CostBreakdown.total_cents c0 < CostBreakdown.total_cents c4) /\
  CostBreakdown.margin_cents c0 = 0 /\
  (exists r, Py.round (s * 0.4) = ok r /\
             CostBreakdown.margin_cents c4 = Z.max 1 r) /\
  CostBreakdown.embedding_cost_cents c0 = CostBreakdown.embedding_cost_cents c4 /\
  CostBreakdown.llm_cost_cents c0 = CostBreakdown.llm_cost_cents c4 /\
  CostBreakdown.vector_cost_cents c0 = CostBreakdown.vector_cost_cents c4.
Proof.
  intros Hs Hpos H0 H4.
  unfold CostBreakdown.subtotal in Hs. unfold CostBreakdown.calculate in H0, H4.
  destruct (Py.int_truediv e 1000) as [x | fe]; [discriminate Hs|].
  rewrite exc_bind_ok in Hs. rewrite exc_bind_ok in H0, H4.
  destruct (Py.int_truediv i 1000) as [x | fi]; [discriminate Hs|].
  rewrite exc_bind_ok in Hs. rewrite exc_bind_ok in H0, H4.
  destruct (Py.int_truediv o 1000) as [x | fo]; [discriminate Hs|].
  rewrite exc_bind_ok in Hs. rewrite exc_bind_ok in H0, H4.
  destruct (Py.float_of_int v) as [x | fv]; [discriminate Hs|].
  rewrite exc_bind_ok in Hs. rewrite exc_bind_ok in H0, H4.
  cbv zeta in Hs, H0, H4. injection Hs as Hs. rewrite Hs in H0, H4.
  destruct (CostBreakdown.floor_cent (0 <? e) _) as [x | embedding_cost];
    [discriminate H0|].
  rewrite exc_bind_ok in H0, H4.
  destruct (CostBreakdown.floor_cent (0 <? i + o) _) as [x | llm_cost];
    [discriminate H0|].
  rewrite exc_bind_ok in H0, H4.
  destruct (CostBreakdown.floor_cent (0 <? v) _) as [x | vector_cost];
    [discriminate H0|].
  rewrite exc_bind_ok in H0, H4.
  change (PrimFloat.ltb 0 0) with false in H0.
  change (PrimFloat.ltb 0 0.4) with true in H4.
  rewrite Hpos in H4. cbn [andb CostBreakdown.floor_cent] in H0, H4.
  rewrite exc_bind_ok in H0.
  destruct (Py.round (s * 0.4)) as [x | margin_rounded] eqn:Emargin;
    [discriminate H4|].
  rewrite !exc_bind_ok in H4.
  assert (Hfinite : exists m es, Prim2SF s = S754_finite false m es).
  { destruct (positive_float s Hpos) as [Hf | Hinf]; [exact Hf | exfalso].
    apply (round_infinity (s * 0.4) false margin_rounded); [|exact Emargin].
    rewrite mul_spec, Hinf. reflexivity. }
  destruct Hfinite as (m & es & Hfinite).
  rewrite (mul_zero _ _ _ Hfinite), (add_zero _ _ _ Hfinite), Hpos in H0.
  assert (E0 : Py.round s = ok (Py.round_magnitude m es))
    by exact (round_positive _ _ _ Hfinite).
  rewrite E0, exc_bind_ok in H0. apply ok_inj in H0. subst c0.
  cbn [CostBreakdown.total_cents CostBreakdown.margin_cents
       CostBreakdown.embedding_cost_cents CostBreakdown.llm_cost_cents
       CostBreakdown.vector_cost_cents].
  assert (Htotal : exists t4,
             Py.round (s + s * 0.4) = ok t4 /\ Py.round_magnitude m es <= t4 /\
             c4 = CostBreakdown.mk e embedding_cost i o llm_cost v vector_cost
                    (Z.max 1 margin_rounded) t4 t4).
  { destruct (add_margin _ _ _ Hfinite) as [Hsame | [Hinf | (m2 & e2 & Hsum & Hle)]].
    - rewrite Hsame, Hpos, E0, exc_bind_ok in H4. apply ok_inj in H4.
      exists (Py.round_magnitude m es). rewrite Hsame.
      split; [exact E0|]. split; [lia | symmetry; exact H4].
    - rewrite (ltb_infinity _ Hinf) in H4.
      destruct (Py.round (s + s * 0.4)) as [x | total] eqn:Etotal;
        [discriminate H4|].
      exfalso. exact (round_infinity _ _ _ Hinf Etotal).
    - rewrite (ltb_positive _ _ _ Hsum), (round_positive _ _ _ Hsum), exc_bind_ok
        in H4.
      apply ok_inj in H4. exists (Py.round_magnitude m2 e2).
      split; [exact (round_positive _ _ _ Hsum)|].
      split; [|symmetry; exact H4].
      pose proof (Prim2SF_valid s) as Hvs. rewrite Hfinite in Hvs.
      pose proof (Prim2SF_valid (s + s * 0.4)) as Hv2. rewrite Hsum in Hv2.
      exact (round_magnitude_mono _ _ _ _ Hvs Hv2 Hle). }
  destruct Htotal as (t4 & E4 & Hle & ->).
  cbn [CostBreakdown.total_cents CostBreakdown.margin_cents
       CostBreakdown.embedding_cost_cents CostBreakdown.llm_cost_cents
       CostBreakdown.vector_cost_cents].
  clear H4. split; [exact E0|]. split; [exact E4|]. split; [exact Hle|].
  split.
  { rewrite E0, E4. split.
    - intros Hlt Heq. apply ok_inj in Heq. lia.
    - intros Hne. destruct (Z.eq_dec (Py.round_magnitude m es) t4) as [Heq | Hneq];
        [rewrite Heq in Hne; contradiction | lia]. }
  split; [intros Hlow; exact (margin_strict s m es _ _ _ Hfinite Hlow E0 Emargin E4)|].
  split; [reflexivity|]. split; [exists margin_rounded; split; reflexivity|].
  repeat split; reflexivity.
Qed.

Lemma margin_raises_total_witness :
  CostBreakdown.calculate 0 1000 500 0 0 =
    ok (CostBreakdown.mk 0 0 1000 500 2 0 0 0 2 2) /\
  CostBreakdown.calculate 0 1000 500 0 0.4 =
    ok (CostBreakdown.mk 0 0 1000 500 2 0 0 1 4 4) /\
  CostBreakdown.total_cents (CostBreakdown.mk 0 0 1000 500 2 0 0 0 2 2) <
  CostBreakdown.total_cents (CostBreakdown.mk 0 0 1000 500 2 0 0 1 4 4).
Proof.
  split; [vm_compute; reflexivity|]. split; [vm_compute; reflexivity|].
  destruct (margin_raises_total 0 1000 500 0 2.5%float
              (CostBreakdown.mk 0 0 1000 500 2 0 0 0 2 2)
              (CostBreakdown.mk 0 0 1000 500 2 0 0 1 4 4)
              ltac:(vm_compute; reflexivity) ltac:(vm_compute; reflexivity)
              ltac:(vm_compute; reflexivity) ltac:(vm_compute; reflexivity))
    as (_ & _ & _ & _ & Hstrict & _).
  apply Hstrict. vm_compute. reflexivity.
Defined.

(** C5 (as stated) fails: for 100 input tokens the subtotal is positive, and
    the total is 0 cents with the margin and without it. *)
Lemma margin_lost_in_rounding :
  exists s c0 c4,
    CostBreakdown.subtotal 0 100 0 0 = ok s /\
    PrimFloat.ltb 0 s = true /\
    CostBreakdown.calculate 0 100 0 0 0 = ok c0 /\
    CostBreakdown.calculate 0 100 0 0 0.4 = ok c4 /\
    ~ CostBreakdown.total_cents c0 < CostBreakdown.total_cents c4.
Proof.
  exists 0.10000000000000001%float,
    (CostBreakdown.mk 0 0 100 0 1 0 0 0 0 0),
    (CostBreakdown.mk 0 0 100 0 1 0 0 1 0 0).
  repeat split; try (vm_compute; reflexivity). cbn. lia.
Qed.
(** * The orchestrator: sources, errors and the cache write *)

Section Sources.

Local Abbreviation step :=
  (fun (seen_docs : list SourceReference.t) (chunk : Chunk.t) =>
     if existsb (fun s => String.eqb (SourceReference.document_id s)
                                     (Chunk.document_id chunk)) seen_docs
     then seen_docs
     else seen_docs ++ [source_of chunk]).

Lemma seen_doc_existsb (seen : list SourceReference.t) d :
  existsb (fun s => String.eqb (SourceReference.document_id s) d) seen = true <->
  d ∈ map SourceReference.document_id seen.
Proof.
  rewrite existsb_exists, list_elem_of_fmap. split.
  - intros (s & Hin & Heq). apply String.eqb_eq in Heq.
    exists s. split; [auto | apply list_elem_of_In; exact Hin].
  - intros (s & -> & Hin). exists s. split; [apply list_elem_of_In; exact Hin|].
    apply String.eqb_refl.
Qed.

Lemma aggregate_loop rest : forall done seen,
  sources_of done seen ->
  sources_of (done ++ rest) (fold_left step rest seen).
Proof.
  induction rest as [|c rest IH]; intros done seen Hinv; simpl fold_left.
  - rewrite app_nil_r. exact Hinv.
  - replace (done ++ c :: rest) with ((done ++ [c]) ++ rest)
      by (rewrite <- app_assoc; reflexivity).
    apply IH. destruct Hinv as (Hnd & Hsame & Hfirst).
    destruct (existsb _ seen) eqn:E.
    + apply seen_doc_existsb in E. split; [exact Hnd|]. split.
      * intros d. rewrite Hsame, fmap_app, elem_of_app. simpl.
        rewrite list_elem_of_singleton. split; [auto|].
        intros [H | ->]; [exact H | apply Hsame; exact E].
      * intros s Hs. destruct (Hfirst s Hs) as (l1 & c0 & l2 & -> & -> & Hl1).
        exists l1, c0, (l2 ++ [c]). rewrite <- app_assoc. simpl. auto.
    + assert (Hnew : Chunk.document_id c ∉ map SourceReference.document_id seen).
      { intros Hin. apply seen_doc_existsb in Hin. congruence. }
      split; [|split].
      * rewrite fmap_app. apply NoDup_app. split; [exact Hnd|]. split.
        -- intros d Hd. simpl. rewrite list_elem_of_singleton. intros ->. auto.
        -- simpl. apply NoDup_singleton.
      * intros d. rewrite !fmap_app, !elem_of_app, Hsame. reflexivity.
      * intros s Hs. apply elem_of_app in Hs as [Hs | Hs].
        -- destruct (Hfirst s Hs) as (l1 & c0 & l2 & -> & -> & Hl1).
           exists l1, c0, (l2 ++ [c]). rewrite <- app_assoc. simpl. auto.
        -- apply list_elem_of_singleton in Hs as ->.
           exists done, c, []. split; [reflexivity|]. split; [reflexivity|].
           apply Forall_forall. intros c' Hc' Heq. apply Hnew, Hsame.
           rewrite <- Heq. apply list_elem_of_fmap. eauto.
Qed.

(** X1. [_aggregate_sources] returns one source per distinct document of the
    chunks: no document id twice, exactly the document ids of the chunks, each
    source built from the first chunk of its document (name ["Unknown"] when
    the chunk has none). The number of sources is the number of distinct
    document ids, which is what [execute] reports as [documents_retrieved]. *)
Theorem aggregate_sources_distinct (chunks : list Chunk.t) :
  let sources := ExecuteQuery._aggregate_sources chunks in
  NoDup (map SourceReference.document_id sources) /\
  (forall d, d ∈ map SourceReference.document_id sources <->
             d ∈ map Chunk.document_id chunks) /\
  (forall s, s ∈ sources ->
     exists l1 c l2,
       chunks = l1 ++ c :: l2 /\ s = source_of c /\
       Forall (fun c' => Chunk.document_id c' <> Chunk.document_id c) l1) /\
  length_Z sources =
    Z.of_nat (size (list_to_set (map Chunk.document_id chunks) : gset string)).
Proof.
  intros sources.
  assert (Hinv : sources_of chunks sources).
  { apply (aggregate_loop chunks [] []). split; [constructor|]. split.
    - intros d. reflexivity.
    - intros s Hs. apply elem_of_nil in Hs. destruct Hs. }
  destruct Hinv as (Hnd & Hsame & Hfirst). repeat split; try assumption.
  - apply Hsame.
  - apply Hsame.
  - unfold length_Z. f_equal.
    rewrite <- (length_map SourceReference.document_id sources).
    rewrite <- (size_list_to_set (C := gset string)) by exact Hnd.
    f_equal. apply set_eq. intros d. rewrite !elem_of_list_to_set. apply Hsame.
Qed.

End Sources.

Lemma head_app_some {A} (l k : list A) x : head l = Some x -> head (l ++ k) = Some x.
Proof. destruct l; [discriminate | intros H; exact H]. Qed.

Lemma kinds_app tr1 tr2 : kinds (tr1 ++ tr2) = kinds tr1 ++ kinds tr2.
Proof. apply map_app. Qed.

Lemma no_cache_write_kinds tr : KCacheSet ∉ kinds tr -> omap cache_write tr = [].
Proof.
  induction tr as [|[X e x] tr IH]; [reflexivity|].
  cbn [kinds map event_kind]. intros Hno.
  assert (Hrest : KCacheSet ∉ kinds tr).
  { intros H. apply Hno. apply elem_of_cons. right. exact H. }
  assert (Hhead : kind_of e <> KCacheSet).
  { intros H. apply Hno. apply elem_of_cons. left. symmetry. exact H. }
  cbn [omap list_omap]. change (omap cache_write tr) with (omap cache_write tr).
  destruct e; simpl in *; try (apply IH; exact Hrest). congruence.
Qed.

Section OrchestratorRuns.

Context `{B : Builtins}.
Variable query_key : Query.t -> string.
Variable verifier : bool.
Variable cache_ttl_seconds : Z.
Variable cost_margin : float.

Local Abbreviation execute :=
  (ExecuteQuery.execute query_key verifier cache_ttl_seconds cost_margin).
Local Abbreviation pipeline :=
  (ExecuteQuery.pipeline verifier cache_ttl_seconds cost_margin).
Local Abbreviation verify_step := (ExecuteQuery.verify_step verifier).

Lemma gather_extractions_kinds (cts : list string) ctx intent tr res :
  runs (gather_exceptions
          (map (fun ct => await (ExtractorExtract ct ctx intent)) cts)) tr res ->
  kinds tr = replicate (length cts) KExtractor.
Proof.
  revert tr res. induction cts as [|ct cts IH]; intros tr res.
  - intros [-> _]. reflexivity.
  - rewrite map_cons, gather_exceptions_cons. intros H.
    apply runs_bind in H as (x & tr1 & tr2 & H1 & H2 & ->).
    apply runs_await in H1 as ->.
    apply runs_mbind in H2 as [(e & H2 & ->) | (xs & tr3 & tr4 & H2 & H3 & ->)].
    + simpl. f_equal. eapply IH. exact H2.
    + apply runs_mret in H3 as [-> ->]. rewrite app_nil_r. simpl. f_equal.
      eapply IH. exact H2.
Qed.

Lemma gather_all_kinds (cts : list string) ctx intent tr res :
  runs (ExecuteQuery.gather_all
          (map (fun ct => await (ExtractorExtract ct ctx intent)) cts)) tr res ->
  kinds tr = replicate (length cts) KExtractor.
Proof.
  unfold ExecuteQuery.gather_all. intros H.
  apply runs_mbind in H as [(e & H & ->) | (xs & tr1 & tr2 & H & H2 & ->)].
  - eapply gather_extractions_kinds. exact H.
  - apply runs_lift in H2 as [-> _]. rewrite app_nil_r.
    eapply gather_extractions_kinds. exact H.
Qed.

Lemma verify_step_kinds layout components context_texts tr res :
  runs (verify_step layout components context_texts) tr res ->
  kinds tr ∈ verification_kinds /\ (verifier = false -> kinds tr = []).
Proof.
  unfold ExecuteQuery.verify_step, verification_kinds. intros H.
  destruct verifier; simpl in H.
  - destruct context_texts as [|c cs].
    + destruct H as [-> _]. split; [|reflexivity]. apply elem_of_cons. auto.
    + apply runs_mbind in H as [(e & H & ->) | (v & tr1 & tr2 & H & H2 & ->)].
      * apply runs_await in H as ->. split; [|discriminate].
        apply elem_of_cons. right. apply elem_of_cons. auto.
      * apply runs_await in H as ->. split; [|discriminate].
        destruct (VerificationResult.is_valid v); simpl in H2.
        -- destruct H2 as [-> _]. apply elem_of_cons. right. apply elem_of_cons. auto.
        -- apply filter_unsupported_claims_runs in H2.
           destruct (has_error_claim v).
           ++ destruct H2 as (id & -> & _).
              apply elem_of_cons. right. apply elem_of_cons. right.
              apply elem_of_cons. auto.
           ++ destruct H2 as [-> _]. apply elem_of_cons. right. apply elem_of_cons. auto.
  - destruct H as [-> _]. split; [|reflexivity]. apply elem_of_cons. auto.
Qed.

Lemma verification_kinds_no_write vk : vk ∈ verification_kinds -> KCacheSet ∉ vk.
Proof.
  unfold verification_kinds. intros H Hin.
  repeat (apply elem_of_cons in H as [-> | H];
          [repeat (apply elem_of_cons in Hin as [Hin | Hin]; [discriminate Hin|]);
           apply elem_of_nil in Hin; exact Hin|]).
  apply elem_of_nil in H. exact H.
Qed.

Lemma replicate_no_write n : KCacheSet ∉ replicate n KExtractor.
Proof. intros H. apply elem_of_replicate in H as [H _]. discriminate H. Qed.

(** How a run of the body of [execute] ends: without a cache write (a stage
    failed, or retrieval was insufficient), or with the cache write as its
    last call. *)
Lemma pipeline_outcome query t0 key tr res :
  runs (pipeline query t0 key) tr res ->
  (omap cache_write tr = [] /\
   forall r, res = ok r -> ExecuteQueryResult.cost r = CostBreakdown.zero) \/
  exists intent pre vk value cost ans,
    tr = pre ++ [Ev (CacheSet key value cache_ttl_seconds) ans] /\
    head (omap planner_answer tr) = Some (ok intent) /\
    kinds pre =
      [KPlanner; KRetriever] ++
      replicate (length (IntentResult.expected_components intent)) KExtractor ++
      [KComposer] ++ vk ++ [KTime] /\
    vk ∈ verification_kinds /\ (verifier = false -> vk = []) /\
    RAGResult.cached value = false /\
    RAGResult.cost value = Some cost /\
    res = match ans with
          | inl e => inl e
          | inr _ => ok (ExecuteQueryResult.mk value cost)
          end.
Proof.
  intros Hrun. unfold ExecuteQuery.pipeline in Hrun.
  apply runs_mbind in Hrun as [(? & Hrun & ->) | (intent & tri & tr1 & Hi & Hrun & ->)].
  { apply runs_await in Hrun as ->. left. split; [reflexivity | discriminate]. }
  apply runs_await in Hi as ->.
  apply runs_mbind in Hrun as [(? & Hrun & ->) | (retrieval & trr & tr2 & Hr & Hrun & ->)].
  { apply runs_await in Hrun as ->. left. split; [reflexivity | discriminate]. }
  apply runs_await in Hr as ->.
  destruct (RetrievalResult.is_sufficient retrieval); simpl negb in Hrun;
    cbv iota in Hrun.
  2:{ left. unfold ExecuteQuery._insufficient_data_response, ExecuteQuery.elapsed_ms
        in Hrun.
      inv_runs; (split; [reflexivity|]); intros r [= <-]; reflexivity. }
  apply runs_mbind in Hrun as [(? & Hrun & ->) | (extractions & trx & tr3 & Hx & Hrun & ->)].
  { left. split; [|discriminate]. apply gather_all_kinds in Hrun.
    apply no_cache_write_kinds. cbn [kinds map event_kind kind_of app].
    fold (kinds tr2). rewrite Hrun. intros H.
    repeat (apply elem_of_cons in H as [H | H]; [discriminate H|]).
    exact (replicate_no_write _ H). }
  apply gather_all_kinds in Hx.
  assert (Hnox : omap cache_write trx = []).
  { apply no_cache_write_kinds. rewrite Hx. apply replicate_no_write. }
  apply runs_mbind in Hrun as [(? & Hrun & ->) | ([[layout components] usage] & trc & tr4 & Hc & Hrun & ->)].
  { apply runs_await in Hrun as ->. left. split; [|discriminate].
    simpl. rewrite omap_app, Hnox. reflexivity. }
  apply runs_await in Hc as ->.
  apply runs_mbind in Hrun as [(? & Hrun & ->) | (components' & trv & tr5 & Hv & Hrun & ->)].
  { left. split; [|discriminate]. apply verify_step_kinds in Hrun as [Hvk _].
    simpl. rewrite omap_app, Hnox. simpl.
    exact (no_cache_write_kinds tr4 (verification_kinds_no_write _ Hvk)). }
  apply verify_step_kinds in Hv as [Hvk Hoff].
  assert (Hnov : omap cache_write trv = [])
    by exact (no_cache_write_kinds trv (verification_kinds_no_write _ Hvk)).
  apply runs_mbind in Hrun as [(? & Hrun & ->) | (ms & trt & tr6 & Ht & Hrun & ->)].
  { left. split; [|discriminate]. unfold ExecuteQuery.elapsed_ms in Hrun.
    inv_runs. simpl. rewrite omap_app, Hnox. simpl. rewrite omap_app, Hnov.
    reflexivity. }
  unfold ExecuteQuery.elapsed_ms in Ht.
  apply runs_mbind in Ht as [(? & Ht & [=]) | (now & ? & ? & Hnow & Ht & ->)].
  apply runs_perform in Hnow as (now' & -> & [= <-]).
  apply runs_lift in Ht as [-> Hms].
  apply runs_mbind in Hrun as [(? & Hrun & ->) | (cost & trk & tr7 & Hcost & Hrun & ->)].
  { apply runs_lift in Hrun as [-> _]. left. split; [|discriminate].
    simpl. rewrite omap_app, Hnox. simpl. rewrite omap_app, Hnov. reflexivity. }
  apply runs_lift in Hcost as [-> Hcost].
  right.
  apply runs_mbind in Hrun as [(e & Hrun & ->) | (u & trs & tr8 & Hs & Hrun & ->)].
  - apply runs_await in Hrun as ->.
    exists intent,
      ([Ev (PlannerAnalyze (Query.text query)) (ok intent);
        Ev (RetrieverRetrieve (Query.text query) intent) (ok retrieval)] ++
       trx ++
       [Ev (ComposerCompose (Query.text query) intent extractions)
           (ok (layout, components, usage))] ++
       trv ++ [Ev TimeTime now]),
      (kinds trv).
    do 2 eexists. exists (inl e).
    split; [|split; [reflexivity|]].
    + repeat (progress (rewrite <- ?app_assoc; simpl)). reflexivity.
    + split; [|split; [exact Hvk|split; [exact Hoff|]]].
      * rewrite !kinds_app, Hx. reflexivity.
      * split; [reflexivity|]. split; reflexivity.
  - apply runs_await in Hs as ->. apply runs_mret in Hrun as [-> ->].
    exists intent,
      ([Ev (PlannerAnalyze (Query.text query)) (ok intent);
        Ev (RetrieverRetrieve (Query.text query) intent) (ok retrieval)] ++
       trx ++
       [Ev (ComposerCompose (Query.text query) intent extractions)
           (ok (layout, components, usage))] ++
       trv ++ [Ev TimeTime now]),
      (kinds trv).
    do 2 eexists. exists (inr u).
    split; [|split; [reflexivity|]].
    + repeat (progress (rewrite <- ?app_assoc; simpl)). reflexivity.
    + split; [|split; [exact Hvk|split; [exact Hoff|]]].
      * rewrite !kinds_app, Hx. reflexivity.
      * split; [reflexivity|]. split; reflexivity.
Qed.

Lemma elapsed_ms_runs t0 tr out :
  runs (ExecuteQuery.elapsed_ms t0) tr out ->
  exists t1, tr = [Ev TimeTime t1] /\ out = Py.int_of_float ((t1 - t0) * 1000)%float.
Proof.
  unfold ExecuteQuery.elapsed_ms. intros H.
  apply runs_mbind in H as [(e & H & ->) | (t1 & tr1 & tr2 & Ht & H & ->)].
  - apply runs_perform in H as (x & _ & [=]).
  - apply runs_perform in Ht as (t1' & -> & [= <-]).
    apply runs_lift in H as [-> ->]. exists t1. split; reflexivity.
Qed.

Lemma error_response_runs query msg t0 tr out :
  runs (ExecuteQuery._error_response query msg t0) tr out ->
  exists t1,
    match Py.int_of_float ((t1 - t0) * 1000)%float with
    | inl e => tr = [Ev TimeTime t1] /\ out = inl e
    | inr ms =>
      exists id,
        tr = [Ev TimeTime t1; Ev Uuid4 id] /\
        out = ok (ExecuteQueryResult.mk (error_result id ms) CostBreakdown.zero)
    end.
Proof.
  unfold ExecuteQuery._error_response. intros H.
  apply runs_mbind in H as [(e & H & ->) | (ms & tr1 & tr2 & H & H2 & ->)].
  - apply elapsed_ms_runs in H as (t1 & -> & H). exists t1. rewrite <- H.
    split; reflexivity.
  - apply elapsed_ms_runs in H as (t1 & -> & H). exists t1. rewrite <- H.
    unfold Component_.create in H2. inv_runs. eexists. split; reflexivity.
Qed.

(** A run of [execute], cut at its stages: the clock, the cache lookup, and,
    on a miss, the body followed, when the body raised, by the error
    response. *)
Lemma execute_runs query tr out :
  runs (execute query) tr out ->
  exists t0 ans,
    match ans with
    | inl e => tr = [Ev TimeTime t0; Ev (CacheGet (query_key query)) ans] /\
               out = inl e
    | inr (Some stored) =>
      tr = [Ev TimeTime t0; Ev (CacheGet (query_key query)) ans] /\
      out = ok (ExecuteQueryResult.mk stored CostBreakdown.zero)
    | inr None =>
      exists trp res,
        runs (pipeline query t0 (query_key query)) trp res /\
        match res with
        | inr r =>
          tr = [Ev TimeTime t0; Ev (CacheGet (query_key query)) ans] ++ trp /\
          out = ok r
        | inl e =>
          exists tre,
            runs (ExecuteQuery._error_response query (str_of_exn e) t0) tre out /\
            tr = [Ev TimeTime t0; Ev (CacheGet (query_key query)) ans] ++ trp ++ tre
        end
    end.
Proof.
  unfold ExecuteQuery.execute. intros H.
  apply runs_mbind in H as [(? & H & ->) | (t0 & ? & tr1 & Ht & H & ->)];
    [inv_runs|].
  apply runs_perform in Ht as (t0' & -> & [= <-]).
  apply runs_mbind in H as [(e & H & ->) | ([stored|] & ? & tr2 & Hc & H & ->)].
  - apply runs_await in H as ->. exists t0, (inl e). split; reflexivity.
  - apply runs_await in Hc as ->. apply runs_mret in H as [-> ->].
    exists t0, (inr (Some stored)). split; reflexivity.
  - apply runs_await in Hc as ->. exists t0, (inr None).
    apply runs_try_except in H as [(r & H & ->) | (e & trp & tre & H & He & ->)].
    + exists tr2, (inr r). split; [exact H|]. split; reflexivity.
    + exists trp, (inl e). split; [exact H|]. exists tre. split; [exact He|].
      reflexivity.
Qed.

(** Once the key is computed, [execute] raises only when the cache lookup
    raises or when the elapsed time cannot be converted by [int]. *)
Lemma execute_raises_after_key query tr e :
  runs (execute query) tr (inl e) ->
  head (omap cache_answer tr) = Some (inl e) \/
  exists t0 t1 middle,
    tr = Ev TimeTime t0 :: middle ++ [Ev TimeTime t1] /\
    Py.int_of_float ((t1 - t0) * 1000)%float = inl e /\
    (e = OverflowError \/ e = ValueError).
Proof.
  intros H. apply execute_runs in H as (t0 & [e' | [stored|]] & H).
  - destruct H as [-> [= ->]]. left. reflexivity.
  - destruct H as [_ [=]].
  - destruct H as (trp & [e'|r] & Hp & H).
    + destruct H as (tre & He & ->). right.
      apply error_response_runs in He as (t1 & He).
      destruct (Py.int_of_float ((t1 - t0) * 1000)) as [e''|ms] eqn:Eint.
      * destruct He as [-> [= ->]].
        exists t0, t1, (Ev (CacheGet (query_key query)) (ok None) :: trp).
        split; [reflexivity|]. split; [exact Eint|].
        unfold Py.int_of_float in Eint.
        destruct (Prim2SF _) as [| | |s m ex]; try discriminate;
          injection Eint as <-; auto.
      * destruct He as (id & _ & [=]).
    + destruct H as [_ [=]].
Qed.

Lemma stage_kinds_no_write n vk :
  vk ∈ verification_kinds ->
  KCacheSet ∉ [KPlanner; KRetriever] ++ replicate n KExtractor ++
              [KComposer] ++ vk ++ [KTime].
Proof.
  intros Hvk H. simpl in H.
  repeat (apply elem_of_cons in H as [H | H]; [discriminate H|]).
  apply elem_of_app in H as [H | H]; [exact (replicate_no_write _ H)|].
  apply elem_of_cons in H as [H | H]; [discriminate H|].
  apply elem_of_app in H as [H | H]; [exact (verification_kinds_no_write _ Hvk H)|].
  apply elem_of_cons in H as [H | H]; [discriminate H|].
  apply elem_of_nil in H. exact H.
Qed.

Lemma error_response_no_write query msg t0 tr out :
  runs (ExecuteQuery._error_response query msg t0) tr out ->
  omap cache_write tr = [] /\
  (kinds tr = [KTime] \/ kinds tr = [KTime; KUuid4]) /\
  forall r, out = ok r ->
    exists id ms, r = ExecuteQueryResult.mk (error_result id ms) CostBreakdown.zero.
Proof.
  intros H. apply error_response_runs in H as (t1 & H).
  destruct (Py.int_of_float _) as [e | ms].
  - destruct H as [-> ->]. split; [reflexivity|]. split; [auto | discriminate].
  - destruct H as (id & -> & ->). split; [reflexivity|]. split; [auto|].
    intros r [= <-]. eauto.
Qed.

(** The cache writes of a run of [execute]: none, or exactly one, made by the
    body as its last call. *)
Lemma execute_cache_writes query tr out :
  runs (execute query) tr out ->
  omap cache_write tr = [] \/
  exists t0 intent pre vk value cost ans tre,
    tr = [Ev TimeTime t0; Ev (CacheGet (query_key query)) (ok None)] ++
         pre ++ [Ev (CacheSet (query_key query) value cache_ttl_seconds) ans] ++ tre /\
    omap cache_write tr = [(query_key query, value, cache_ttl_seconds, ans)] /\
    head (omap planner_answer tr) = Some (ok intent) /\
    kinds pre =
      [KPlanner; KRetriever] ++
      replicate (length (IntentResult.expected_components intent)) KExtractor ++
      [KComposer] ++ vk ++ [KTime] /\
    vk ∈ verification_kinds /\ (verifier = false -> vk = []) /\
    RAGResult.cached value = false /\
    RAGResult.cost value = Some cost /\
    match ans with
    | inr _ => tre = [] /\ out = ok (ExecuteQueryResult.mk value cost)
    | inl e =>
      runs (ExecuteQuery._error_response query (str_of_exn e) t0) tre out
    end.
Proof.
  intros H. apply execute_runs in H as (t0 & [e | [stored|]] & H).
  - destruct H as [-> _]. left. reflexivity.
  - destruct H as [-> _]. left. reflexivity.
  - destruct H as (trp & res & Hp & H).
    destruct (pipeline_outcome _ _ _ _ _ Hp)
      as [[Hno Hcost] | (intent & pre & vk & value & cost & ans & -> & Hplan &
                         Hkinds & Hvk & Hoff & Hcached & Hc & ->)].
    + left. destruct res as [e | r].
      * destruct H as (tre & He & ->).
        apply error_response_no_write in He as (Hnoe & _).
        simpl. rewrite omap_app, Hno, Hnoe. reflexivity.
      * destruct H as [-> _]. simpl. exact Hno.
    + right. assert (Hnopre : omap cache_write pre = []).
      { apply no_cache_write_kinds. rewrite Hkinds.
        apply stage_kinds_no_write. exact Hvk. }
      destruct ans as [e | u].
      * destruct H as (tre & He & ->).
        exists t0, intent, pre, vk, value, cost, (inl e), tre.
        destruct (error_response_no_write _ _ _ _ _ He) as (Hnoe & _).
        split; [rewrite <- !app_assoc; reflexivity|].
        split; [simpl; rewrite !omap_app, Hnopre, Hnoe; reflexivity|].
        split; [simpl; rewrite omap_app; apply head_app_some; exact Hplan|].
        repeat (split; [assumption|]). exact He.
      * destruct H as [-> ->].
        exists t0, intent, pre, vk, value, cost, (inr u), [].
        split; [reflexivity|].
        split; [simpl; rewrite !omap_app, Hnopre; reflexivity|].
        split; [simpl; exact Hplan|].
        repeat (split; [assumption|]). split; reflexivity.
Qed.

(** X3. What [execute] stores is what it returns. A cache write that succeeds
    is the only write and the last call of the run; it is made under the key
    of the query with the configured time to live; the value written has
    [cached = false] and carries the cost, and [execute] returns exactly that
    value with that cost. *)
Theorem execute_returns_what_it_stores query tr out key value ttl u :
  runs (execute query) tr out ->
  (key, value, ttl, ok u) ∈ omap cache_write tr ->
  key = query_key query /\ ttl = cache_ttl_seconds /\
  omap cache_write tr = [(key, value, ttl, ok u)] /\
  last tr = Some (Ev (CacheSet key value ttl) (ok u)) /\
  RAGResult.cached value = false /\
  exists cost,
    RAGResult.cost value = Some cost /\
    out = ok (ExecuteQueryResult.mk value cost).
Proof.
  intros Hrun Hin.
  destruct (execute_cache_writes _ _ _ Hrun)
    as [Hno | (t0 & intent & pre & vk & value' & cost & ans & tre & -> & Hw & _ &
               _ & _ & _ & Hcached & Hcost & Hout)].
  { rewrite Hno in Hin. apply elem_of_nil in Hin. destruct Hin. }
  rewrite Hw in Hin. apply list_elem_of_singleton in Hin.
  injection Hin as -> -> -> <-. destruct Hout as [-> ->].
  split; [reflexivity|]. split; [reflexivity|]. split; [exact Hw|].
  split; [|split; [exact Hcached | eauto]].
  rewrite app_nil_r, !app_assoc. apply last_snoc.
Qed.

(** X4. A cache write that fails loses the answer: when [cache.set] raises,
    the response that was composed and costed is dropped, and what [execute]
    returns, if it returns, is the error response with the zero cost. *)
Theorem execute_cache_write_failure query tr out key value ttl e :
  runs (execute query) tr out ->
  (key, value, ttl, inl e) ∈ omap cache_write tr ->
  forall r, out = ok r ->
    exists id ms,
      r = ExecuteQueryResult.mk (error_result id ms) CostBreakdown.zero.
Proof.
  intros Hrun Hin.
  destruct (execute_cache_writes _ _ _ Hrun)
    as [Hno | (t0 & intent & pre & vk & value' & cost & ans & tre & -> & Hw & _ &
               _ & _ & _ & _ & _ & Hout)].
  { rewrite Hno in Hin. apply elem_of_nil in Hin. destruct Hin. }
  rewrite Hw in Hin. apply list_elem_of_singleton in Hin.
  injection Hin as -> -> -> <-.
  apply error_response_no_write in Hout as (_ & _ & Hr). exact Hr.
Qed.

(** X5. The order of the calls on the way to the cache write: every run of
    [execute] that writes to the cache has read the clock, looked the query up
    in the cache, called the planner, the retriever, the extractor once per
    expected component, the composer, then the verifier (at most once, with
    one identifier drawn when a notice is inserted; never when no verifier is
    configured), read the clock again and written the cache, in this order.
    Only the calls of the error response can follow. *)
Theorem execute_call_order query tr out :
  runs (execute query) tr out ->
  omap cache_write tr <> [] ->
  exists intent vk rest,
    head (omap planner_answer tr) = Some (ok intent) /\
    kinds tr =
      [KTime; KCacheGet; KPlanner; KRetriever] ++
      replicate (length (IntentResult.expected_components intent)) KExtractor ++
      [KComposer] ++ vk ++ [KTime; KCacheSet] ++ rest /\
    vk ∈ verification_kinds /\ (verifier = false -> vk = []) /\
    (rest = [] \/ rest = [KTime] \/ rest = [KTime; KUuid4]).
Proof.
  intros Hrun Hw.
  destruct (execute_cache_writes _ _ _ Hrun)
    as [Hno | (t0 & intent & pre & vk & value & cost & ans & tre & -> & _ & Hplan &
               Hkinds & Hvk & Hoff & _ & _ & Hout)]; [contradiction|].
  exists intent, vk, (kinds tre). split; [exact Hplan|]. split; [|split; [exact Hvk|]].
  - rewrite !kinds_app, Hkinds.
    repeat (progress (rewrite <- ?app_assoc; simpl)). reflexivity.
  - split; [exact Hoff|]. destruct ans as [e | u].
    + apply error_response_no_write in Hout as (_ & [-> | ->] & _); auto.
    + destruct Hout as [-> _]. auto.
Qed.

End OrchestratorRuns.

Lemma execute_from_key_ok `{B : Builtins} (query_key : Query.t -> Exc string)
      verifier cache_ttl_seconds cost_margin query key :
  query_key query = ok key ->
  execute_from_key query_key verifier cache_ttl_seconds cost_margin query =
  ExecuteQuery.execute (fun _ => key) verifier cache_ttl_seconds cost_margin query.
Proof.
  intros Hkey. unfold execute_from_key, ExecuteQuery.execute. rewrite Hkey.
  reflexivity.
Qed.

(** X2. [execute] contains the failures of its stages: it raises only when
    computing the key of the query raises (right after the first clock
    reading, before any other call), when the cache lookup itself raises, or
    when the time elapsed since the start (the difference of the last and
    the first clock reading) is not a finite number that [int] can convert,
    which happens while the error response is being built. A failing
    planner, retriever, extractor, composer, verifier, cost calculation or
    cache write never escapes. *)
Theorem execute_raises_only `{B : Builtins} (query_key : Query.t -> Exc string)
        verifier cache_ttl_seconds cost_margin query tr e :
  runs (execute_from_key query_key verifier cache_ttl_seconds cost_margin query)
       tr (inl e) ->
  (query_key query = throw e /\ exists t0, tr = [Ev TimeTime t0]) \/
  (exists key, query_key query = ok key /\
               head (omap cache_answer tr) = Some (inl e)) \/
  (exists key t0 t1 middle,
     query_key query = ok key /\
     tr = Ev TimeTime t0 :: middle ++ [Ev TimeTime t1] /\
     Py.int_of_float ((t1 - t0) * 1000)%float = inl e /\
     (e = OverflowError \/ e = ValueError)).
Proof.
  intros H. destruct (query_key query) as [e' | key] eqn:Hkey.
  - left. unfold execute_from_key in H. rewrite Hkey in H.
    apply runs_mbind in H as [(? & H & _) | (t0 & tr1 & tr2 & Ht & H & ->)];
      [apply runs_perform in H as (? & _ & [=])|].
    apply runs_perform in Ht as (t0' & -> & [= <-]).
    simpl in H. destruct H as [-> [= ->]]. eauto.
  - right. rewrite (execute_from_key_ok _ _ _ _ _ _ Hkey) in H.
    apply execute_raises_after_key in H as [H | (t0 & t1 & middle & H)].
    + left. eauto.
    + right. exists key, t0, t1, middle. split; [reflexivity | exact H].
Qed.

Lemma execute_raises_only_witness :
  let failing :=
    [Ev TimeTime 0%float;
     Ev (CacheGet sample_key) (throw (ExternalError "connection refused"))] in
  (ok sample_key = throw (ExternalError "connection refused") /\
   exists t0, failing = [Ev TimeTime t0]) \/
  (exists key, ok sample_key = ok key /\
     head (omap cache_answer failing) =
       Some (inl (ExternalError "connection refused"))) \/
  (exists key t0 t1 middle,
     ok sample_key = ok key /\
     failing = Ev TimeTime t0 :: middle ++ [Ev TimeTime t1] /\
     Py.int_of_float ((t1 - t0) * 1000)%float =
       inl (ExternalError "connection refused") /\
     (ExternalError "connection refused" = OverflowError \/
      ExternalError "connection refused" = ValueError)).
Proof.
  apply (execute_raises_only (B := sample_runtime)
           (fun q => ok (@RedisCache.query_key sample_runtime q))
           true 3600 0.4%float sample_query).
  run_trace.
Defined.

Lemma execute_returns_what_it_stores_witness :
  last sample_success_trace = Some (sample_write (ok tt)) /\
  exists cost,
    RAGResult.cost sample_stored = Some cost /\
    ok (ExecuteQueryResult.mk sample_stored sample_cost) =
    ok (ExecuteQueryResult.mk sample_stored cost).
Proof.
  destruct (execute_returns_what_it_stores (B := sample_runtime)
              (@RedisCache.query_key sample_runtime) true 3600 0.4%float
              sample_query sample_success_trace
              (ok (ExecuteQueryResult.mk sample_stored sample_cost))
              sample_key sample_stored 3600 tt)
    as (_ & _ & _ & Hlast & _ & Hcost).
  - run_trace.
  - change ((sample_key, sample_stored, 3600, @inr exn unit tt) ∈
            [(sample_key, sample_stored, 3600, @inr exn unit tt)]).
    apply list_elem_of_singleton. reflexivity.
  - split; [exact Hlast | exact Hcost].
Defined.

Lemma execute_cache_write_failure_witness :
  exists id ms,
    ExecuteQueryResult.mk (error_result "e1" 500) CostBreakdown.zero =
    ExecuteQueryResult.mk (error_result id ms) CostBreakdown.zero.
Proof.
  apply (execute_cache_write_failure (B := sample_runtime)
           (@RedisCache.query_key sample_runtime) true 3600 0.4%float
           sample_query sample_failed_write_trace
           (ok (ExecuteQueryResult.mk (error_result "e1" 500) CostBreakdown.zero))
           sample_key sample_stored 3600 (ExternalError "connection refused")).
  - run_trace.
  - change ((sample_key, sample_stored, 3600,
             @inl exn unit (ExternalError "connection refused")) ∈
            [(sample_key, sample_stored, 3600,
              @inl exn unit (ExternalError "connection refused"))]).
    apply list_elem_of_singleton. reflexivity.
  - reflexivity.
Defined.

Lemma execute_call_order_witness :
  exists intent vk rest,
    head (omap planner_answer sample_success_trace) = Some (ok intent) /\
    kinds sample_success_trace =
      [KTime; KCacheGet; KPlanner; KRetriever] ++
      replicate (length (IntentResult.expected_components intent)) KExtractor ++
      [KComposer] ++ vk ++ [KTime; KCacheSet] ++ rest /\
    vk ∈ verification_kinds /\ (true = false -> vk = []) /\
    (rest = [] \/ rest = [KTime] \/ rest = [KTime; KUuid4]).
Proof.
  apply (execute_call_order (B := sample_runtime)
           (@RedisCache.query_key sample_runtime) true 3600 0.4%float
           sample_query sample_success_trace
           (ok (ExecuteQueryResult.mk sample_stored sample_cost))).
  - run_trace.
  - change (omap cache_write sample_success_trace)
      with [(sample_key, sample_stored, 3600, @inr exn unit tt)].
    discriminate.
Defined.

(** * The retriever: sufficiency, single searches, failing searches *)

Section RetrieverRuns.

Variable default_top_k : Z.
Variable min_chunks_for_sufficiency : Z.

Local Abbreviation retrieve :=
  (IntentDrivenRetriever.retrieve default_top_k min_chunks_for_sufficiency).
Local Abbreviation _retrieve_multi_entity :=
  (IntentDrivenRetriever._retrieve_multi_entity default_top_k min_chunks_for_sufficiency).
Local Abbreviation merge_results :=
  (IntentDrivenRetriever.merge_results default_top_k).

(** X6. Whatever the strategy, a retrieval result names the strategy of the
    intent, is sufficient exactly when it holds at least
    [min_chunks_for_sufficiency] chunks, and carries no warning when it is
    sufficient and exactly one when it is not. *)
Theorem retrieve_reports_sufficiency query intent tr r :
  runs (retrieve query intent) tr (ok r) ->
  RetrievalResult.strategy_used r =
    RetrievalStrategy_.value (IntentResult.retrieval_strategy intent) /\
  RetrievalResult.is_sufficient r =
    (min_chunks_for_sufficiency <=? length_Z (RetrievalResult.chunks r)) /\
  (RetrievalResult.is_sufficient r = true -> RetrievalResult.warnings r = []) /\
  (RetrievalResult.is_sufficient r = false ->
   exists w, RetrievalResult.warnings r = [w]).
Proof.
  unfold IntentDrivenRetriever.retrieve. intros H.
  destruct (IntentResult.retrieval_strategy intent).
  - unfold IntentDrivenRetriever._retrieve_single_focus in H. inv_runs.
    unfold IntentDrivenRetriever.sufficient. cbn.
    destruct (_ <=? _); repeat split; eauto; discriminate.
  - unfold IntentDrivenRetriever._retrieve_multi_entity in H.
    apply runs_mbind in H as [(? & _ & [=]) | (results & tr1 & tr2 & _ & H & ->)].
    apply runs_mbind in H as [(? & _ & [=]) | ([[all_chunks seen] coverage] & tr3 & tr4 & _ & H & ->)].
    apply runs_mret in H as [-> [= ->]].
    unfold IntentDrivenRetriever.sufficient. cbn.
    destruct (_ <=? _); repeat split; eauto; discriminate.
  - unfold IntentDrivenRetriever._retrieve_chronological in H. inv_runs.
    unfold IntentDrivenRetriever.sufficient. cbn.
    destruct (_ <=? _); repeat split; eauto; discriminate.
  - unfold IntentDrivenRetriever._retrieve_broad in H. inv_runs.
    unfold IntentDrivenRetriever.sufficient. cbn.
    destruct (_ <=? _); repeat split; eauto; discriminate.
Qed.

(** X7. The single-focus, chronological and broad strategies embed the query
    itself (never the rewritten queries) and search once: with
    [default_top_k] and the filters of the intent, except that the broad
    strategy asks for ten more chunks and filters on document types only,
    never on dates. A failing embedding or search is not handled: it
    propagates to the caller. *)
Theorem single_search_strategies query intent tr out :
  IntentResult.retrieval_strategy intent <> MULTI_ENTITY ->
  runs (retrieve query intent) tr out ->
  let broad :=
    match IntentResult.retrieval_strategy intent with BROAD => true | _ => false end in
  let k := if broad then default_top_k + 10 else default_top_k in
  let filters :=
    if broad then
      match ExtractedEntities.document_types (IntentResult.entities intent) with
      | [] => None
      | ts => Some (Filters.mk (Some ts) None None)
      end
    else IntentDrivenRetriever._build_filters intent in
  (exists e, tr = [Ev (EmbedSingle query) (inl e)] /\ out = inl e) \/
  (exists vector answer,
     tr = [Ev (EmbedSingle query) (ok vector);
           Ev (VectorSearch vector k filters) answer] /\
     match answer with
     | inl e => out = inl e
     | inr chunks =>
       exists r, out = ok r /\ Permutation chunks (RetrievalResult.chunks r)
     end).
Proof.
  unfold IntentDrivenRetriever.retrieve. intros Hs H.
  destruct (IntentResult.retrieval_strategy intent); [|congruence| |]; cbn zeta.
  - unfold IntentDrivenRetriever._retrieve_single_focus in H. inv_runs.
    + left. eauto.
    + right. do 2 eexists. split; [reflexivity|]. reflexivity.
    + right. do 2 eexists. split; [reflexivity|]. cbn. eauto.
  - unfold IntentDrivenRetriever._retrieve_chronological in H. inv_runs.
    + left. eauto.
    + right. do 2 eexists. split; [reflexivity|]. reflexivity.
    + right. do 2 eexists. split; [reflexivity|]. cbn.
      eexists. split; [reflexivity|]. cbn. apply py_sorted_Permutation.
  - unfold IntentDrivenRetriever._retrieve_broad in H. inv_runs.
    + left. eauto.
    + right. do 2 eexists. split; [reflexivity|]. reflexivity.
    + right. do 2 eexists. split; [reflexivity|]. cbn. eauto.
Qed.

Lemma merge_results_all_failed rqs results acc :
  successes results = [] -> merge_results rqs results acc = ok acc.
Proof.
  revert results acc. induction rqs as [|rq rqs IH]; intros [|r results] acc;
    simpl; try reflexivity.
  destruct r as [e | chunks]; [|discriminate]. intros H. apply IH. exact H.
Qed.

Lemma merge_results_zero_k rqs results acc :
  default_top_k = 0 ->
  length rqs = length results ->
  successes results <> [] ->
  merge_results rqs results acc = throw ZeroDivisionError.
Proof.
  intros Hk. revert results acc.
  induction rqs as [|rq rqs IH]; intros [|r results] acc; simpl;
    try congruence; try discriminate.
  intros [= Hlen] Hs. destruct r as [e | chunks].
  - apply IH; [exact Hlen | exact Hs].
  - destruct acc as [chunks_seen coverage]. rewrite Hk. reflexivity.
Qed.

(** X8. The multi-entity strategy tolerates failing searches: when every
    search (or its embedding) fails, it does not raise but returns no chunk
    and an empty coverage. Yet with [default_top_k = 0] the first search that
    succeeds makes it raise [ZeroDivisionError], from the coverage ratio. *)
Theorem multi_entity_failing_searches query intent tr out :
  runs (_retrieve_multi_entity query intent) tr out ->
  (omap search_result tr = [] ->
   exists r,
     out = ok r /\ RetrievalResult.chunks r = [] /\
     RetrievalResult.coverage r = ∅ /\
     RetrievalResult.is_sufficient r = (min_chunks_for_sufficiency <=? 0)) /\
  (default_top_k = 0 -> omap search_result tr <> [] ->
   out = throw ZeroDivisionError).
Proof.
  unfold IntentDrivenRetriever._retrieve_multi_entity. intros H.
  apply runs_mbind in H as [(e & H & ->) | (results & tr1 & tr2 & Hg & H & ->)].
  { apply gather_search_runs in H as (? & [=] & _). }
  apply gather_search_runs in Hg as (results' & [= <-] & Hlen & _ & Hs).
  apply runs_mbind in H as [(e & H & ->) | (merged & tr3 & tr4 & Hm & H & ->)].
  - apply runs_lift in H as [-> Hm]. rewrite !app_nil_r, Hs. split.
    + intros Hnone. rewrite merge_results_all_failed in Hm by exact Hnone.
      discriminate Hm.
    + intros Hk Hsome.
      rewrite (merge_results_zero_k _ _ _ Hk Hlen Hsome) in Hm.
      injection Hm as ->. reflexivity.
  - apply runs_lift in Hm as [-> Hm]. destruct merged as [[all_chunks seen] coverage].
    apply runs_mret in H as [-> ->]. rewrite !app_nil_r, Hs. split.
    + intros Hnone. rewrite merge_results_all_failed in Hm by exact Hnone.
      injection Hm as -> -> ->. eexists. split; [reflexivity|]. cbn.
      unfold py_slice_to. destruct (0 <=? default_top_k * 2); simpl;
        rewrite ?take_nil; repeat split; reflexivity.
    + intros Hk Hsome.
      rewrite (merge_results_zero_k _ _ _ Hk Hlen Hsome) in Hm. discriminate Hm.
Qed.

End RetrieverRuns.

Lemma retrieve_reports_sufficiency_witness :
  RetrievalResult.strategy_used sample_chronological_result = "chronological" /\
  RetrievalResult.is_sufficient sample_chronological_result =
    (3 <=? length_Z (RetrievalResult.chunks sample_chronological_result)) /\
  (RetrievalResult.is_sufficient sample_chronological_result = true ->
   RetrievalResult.warnings sample_chronological_result = []) /\
  (RetrievalResult.is_sufficient sample_chronological_result = false ->
   exists w, RetrievalResult.warnings sample_chronological_result = [w]).
Proof.
  apply (retrieve_reports_sufficiency 10 3 "housing bill history" timeline_intent
           chronological_trace sample_chronological_result).
  run_trace.
Defined.

Lemma single_search_strategies_witness :
  exists vector answer,
    chronological_trace =
      [Ev (EmbedSingle "housing bill history") (ok vector);
       Ev (VectorSearch vector 10 None) answer].
Proof.
  assert (Hrun : exists r,
             runs (IntentDrivenRetriever.retrieve 10 3
                     "housing bill history" timeline_intent)
                  chronological_trace (ok r)).
  { eexists. run_trace. }
  destruct Hrun as [r Hrun].
  assert (Hsingle : IntentResult.retrieval_strategy timeline_intent <> MULTI_ENTITY)
    by discriminate.
  destruct (single_search_strategies 10 3 "housing bill history" timeline_intent
              chronological_trace (ok r) Hsingle Hrun)
    as [(e & _ & [=]) | (vector & answer & Htr & _)].
  exists vector, answer. exact Htr.
Defined.

Lemma multi_entity_failing_searches_witness :
  exists r,
    RetrievalResult.chunks r = [] /\ RetrievalResult.is_sufficient r = false.
Proof.
  assert (Hrun : exists r,
             runs (IntentDrivenRetriever._retrieve_multi_entity 10 3
                     "Compare Labor and Liberal climate policies" comparative_intent)
                  multi_entity_failed_trace (ok r)).
  { eexists. run_trace. }
  destruct Hrun as [r Hrun].
  destruct (multi_entity_failing_searches 10 3 _ _ _ _ Hrun) as [Hfail _].
  destruct (Hfail eq_refl) as (r' & [= <-] & Hchunks & _ & Hs).
  exists r. split; [exact Hchunks | exact Hs].
Defined.

(** * Component constraints: the other component types *)

(** * Strings: [strip], [lower] and [replace] *)

Lemma rstrip_cons_nonspace c r :
  Py.is_space c = false -> exists r', Py.rstrip (String c r) = String c r'.
Proof.
  intros Hc. simpl. rewrite Hc. destruct (Py.rstrip r); eauto.
Qed.

Lemma rstrip_idempotent s : Py.rstrip (Py.rstrip s) = Py.rstrip s.
Proof.
  induction s as [|c r IH]; [reflexivity|]. simpl.
  destruct (Py.rstrip r) as [|a t] eqn:Et.
  - destruct (Py.is_space c) eqn:Ec; [reflexivity|]. simpl. rewrite Ec. reflexivity.
  - change (Py.rstrip (String c (String a t)))
      with (match Py.rstrip (String a t) with
            | EmptyString =>
              if Py.is_space c then EmptyString else String c EmptyString
            | r' => String c r'
            end).
    rewrite IH. reflexivity.
Qed.

Lemma lstrip_head s :
  Py.lstrip s = EmptyString \/
  exists c r, Py.lstrip s = String c r /\ Py.is_space c = false.
Proof.
  induction s as [|c r IH]; [left; reflexivity|]. simpl.
  destruct (Py.is_space c) eqn:Ec; [exact IH | right; eauto].
Qed.

Lemma strip_idempotent s : Py.strip (Py.strip s) = Py.strip s.
Proof.
  unfold Py.strip. destruct (lstrip_head s) as [-> | (c & r & -> & Hc)];
    [reflexivity|].
  destruct (rstrip_cons_nonspace c r Hc) as [r' Hr]. rewrite Hr.
  simpl Py.lstrip. rewrite Hc, <- Hr. apply rstrip_idempotent.
Qed.

Lemma smap_smap f g s : Py.smap f (Py.smap g s) = Py.smap (fun c => f (g c)) s.
Proof. induction s as [|c r IH]; simpl; [|rewrite IH]; reflexivity. Qed.

Lemma smap_ext f g s : (forall c, f c = g c) -> Py.smap f s = Py.smap g s.
Proof.
  intros H. induction s as [|c r IH]; simpl; [|rewrite IH, H]; reflexivity.
Qed.

Lemma smap_lstrip f s :
  (forall c, Py.is_space (f c) = Py.is_space c) ->
  Py.smap f (Py.lstrip s) = Py.lstrip (Py.smap f s).
Proof.
  intros H. induction s as [|c r IH]; [reflexivity|]. simpl. rewrite H.
  destruct (Py.is_space c); [exact IH | reflexivity].
Qed.

Lemma smap_rstrip f s :
  (forall c, Py.is_space (f c) = Py.is_space c) ->
  Py.smap f (Py.rstrip s) = Py.rstrip (Py.smap f s).
Proof.
  intros H. induction s as [|c r IH]; [reflexivity|]. simpl.
  rewrite <- IH, H. destruct (Py.rstrip r) as [|a t]; simpl.
  - destruct (Py.is_space c); reflexivity.
  - reflexivity.
Qed.

Lemma smap_strip f s :
  (forall c, Py.is_space (f c) = Py.is_space c) ->
  Py.smap f (Py.strip s) = Py.strip (Py.smap f s).
Proof.
  intros H. unfold Py.strip. rewrite smap_rstrip, smap_lstrip by exact H.
  reflexivity.
Qed.

(** Pushes every value that a bind was waiting for into its continuation. *)
Ltac step_binds :=
  repeat match goal with
         | H : context [exc_bind (inr _) _] |- _ => rewrite exc_bind_ok in H
         | |- context [exc_bind (inr _) _] => rewrite exc_bind_ok
         end.

Section MoreComponents.

Context `{B : Builtins}.

Lemma admitted_content data t tr c content :
  has_type data t ->
  runs (Components.parse_component data) tr (ok (Some c)) ->
  Component.content c = content ->
  passes t data /\ Components.parse_content t data = ok (Some content).
Proof.
  intros Htype Hrun <-. exact (parse_component_admitted _ _ _ _ Htype Hrun).
Qed.

Lemma comprehension_length {A C} (c : A -> Exc bool) (f : A -> Exc C) l xs ys :
  Components.comprehension c f l = ok xs ->
  exc_filter c l = ok ys ->
  length xs = length ys.
Proof.
  intros Hx Hy. destruct (comprehension_filter _ _ _ _ Hx) as (ys' & Hy' & Hall).
  rewrite Hy in Hy'. injection Hy' as <-. symmetry. exact (Forall2_length _ _ _ Hall).
Qed.

(** X9. A timeline admitted to the output has at least two events: as many
    as the raw events that carry a date or a label. *)
Theorem timeline_shape data tr c timeline :
  has_type data "timeline" ->
  runs (Components.parse_component data) tr (ok (Some c)) ->
  Component.content c = CTimeline timeline ->
  2 <= length_Z (Timeline.events timeline) /\
  exists raw_events dated,
    raw_list data "events" = ok raw_events /\
    exc_filter (Constraints.has_either "date" "label") raw_events = ok dated /\
    length (Timeline.events timeline) = length dated.
Proof.
  intros Htype Hrun Hcontent.
  destruct (admitted_content _ _ _ _ _ Htype Hrun Hcontent) as [Hpass Hparse].
  change (Components.parse_content "timeline" data)
    with (Components.parse_timeline data) in Hparse.
  unfold passes, Constraints.validate_component in Hpass.
  simpl Py.assoc in Hpass. cbv iota in Hpass.
  unfold Constraints.validate_timeline in Hpass.
  unfold Components.parse_timeline in Hparse. unfold raw_list.
  destruct (Py.get data "events" (PList [])) as [e | events]; [discriminate|].
  step_binds.
  destruct (Py.iter events) as [e | es]; [discriminate|].
  step_binds.
  destruct (exc_filter _ es) as [e | valid_events] eqn:Hvalid; [discriminate|].
  step_binds.
  destruct (Components.comprehension _ Components.parse_event es)
    as [e | evs] eqn:Hevs; [discriminate|].
  step_binds.
  pose proof (comprehension_length _ _ _ _ _ Hevs Hvalid) as Hlen.
  destruct (length_Z valid_events <? Constraints.TIMELINE_MIN_EVENTS) eqn:Hmin;
    [discriminate Hpass|].
  apply Z.ltb_ge in Hmin. unfold Constraints.TIMELINE_MIN_EVENTS, length_Z in Hmin.
  destruct evs as [|ev evs]; [simpl in Hlen; lia|].
  destruct (Components.get_opt data "title") as [e | title]; [discriminate|].
  step_binds.
  destruct (Components.get_opt data "caption") as [e | caption]; [discriminate|].
  step_binds. injection Hparse as <-.
  cbn [Timeline.events]. unfold length_Z. split; [lia|].
  exists es, valid_events. split; [reflexivity|]. split; [exact Hvalid | exact Hlen].
Qed.

Lemma parse_rows_spec rs :
  length (Components.parse_rows rs) =
    length (List.filter (fun r => Py.is_dict r && Py.truthy r) rs) /\
  Forall (fun row => row <> []) (Components.parse_rows rs).
Proof.
  unfold Components.parse_rows.
  induction rs as [|r rs [IHlen IHall]]; [split; [reflexivity | constructor]|].
  destruct r as [| | | | | |[|kv d]]; simpl; try (split; assumption).
  split; [f_equal; exact IHlen|]. constructor; [discriminate | exact IHall].
Qed.

(** X10. A data table admitted to the output has at least two columns and at
    least two rows, and none of its rows is empty. *)
Theorem data_table_shape data tr c table :
  has_type data "data_table" ->
  runs (Components.parse_component data) tr (ok (Some c)) ->
  Component.content c = CDataTable table ->
  2 <= length_Z (DataTable.columns table) /\
  2 <= length_Z (DataTable.rows table) /\
  Forall (fun row => row <> []) (DataTable.rows table).
Proof.
  intros Htype Hrun Hcontent.
  destruct (admitted_content _ _ _ _ _ Htype Hrun Hcontent) as [Hpass Hparse].
  change (Components.parse_content "data_table" data)
    with (Components.parse_data_table data) in Hparse.
  unfold passes, Constraints.validate_component in Hpass.
  simpl Py.assoc in Hpass. cbv iota in Hpass.
  unfold Constraints.validate_data_table in Hpass.
  unfold Components.parse_data_table in Hparse.
  destruct (Py.get data "columns" (PList [])) as [e | columns]; [discriminate|].
  step_binds.
  destruct (Py.get data "rows" (PList [])) as [e | rows];
    [destruct (Py.iter columns) as [|cs];
     [discriminate Hparse | step_binds;
      destruct (Components.comprehension _ Components.parse_column cs);
      discriminate Hparse]|].
  step_binds.
  destruct (Py.iter columns) as [e | cs]; [discriminate|]. step_binds.
  destruct (exc_filter _ cs) as [e | valid_columns] eqn:Hvalid; [discriminate|].
  step_binds.
  destruct (Components.comprehension _ Components.parse_column cs)
    as [e | cols] eqn:Hcols; [discriminate|].
  step_binds.
  destruct (Py.iter rows) as [e | rs]; [discriminate|]. step_binds.
  pose proof (comprehension_length _ _ _ _ _ Hcols Hvalid) as Hlen.
  destruct (parse_rows_spec rs) as [Hrows Hnonempty].
  destruct (length_Z valid_columns <? Constraints.TABLE_MIN_COLUMNS) eqn:Hmin;
    [discriminate Hpass|].
  destruct (length_Z (List.filter _ rs) <? Constraints.TABLE_MIN_ROWS) eqn:Hminr;
    [discriminate Hpass|].
  apply Z.ltb_ge in Hmin, Hminr.
  unfold Constraints.TABLE_MIN_COLUMNS, length_Z in Hmin.
  unfold Constraints.TABLE_MIN_ROWS, length_Z in Hminr.
  destruct cols as [|col cols]; [simpl in Hlen; lia|].
  destruct (Components.parse_rows rs) as [|row parsed] eqn:Hparsed;
    [simpl in Hrows; lia|].
  destruct (Components.get_opt data "title") as [e | title]; [discriminate|].
  step_binds.
  destruct (Components.get_opt data "caption") as [e | caption]; [discriminate|].
  step_binds. injection Hparse as <-.
  cbn [DataTable.columns DataTable.rows]. unfold length_Z.
  split; [lia|]. split; [lia | exact Hnonempty].
Qed.

(** X11. A member-profiles component admitted to the output has at least one
    member: as many as the raw members that carry a name. *)
Theorem member_profiles_shape data tr c profiles :
  has_type data "member_profiles" ->
  runs (Components.parse_component data) tr (ok (Some c)) ->
  Component.content c = CMemberProfiles profiles ->
  1 <= length_Z (MemberProfiles.members profiles) /\
  exists raw_members named,
    raw_list data "members" = ok raw_members /\
    exc_filter (fun m => Constraints.has m "name") raw_members = ok named /\
    length (MemberProfiles.members profiles) = length named.
Proof.
  intros Htype Hrun Hcontent.
  destruct (admitted_content _ _ _ _ _ Htype Hrun Hcontent) as [Hpass Hparse].
  change (Components.parse_content "member_profiles" data)
    with (Components.parse_member_profiles data) in Hparse.
  unfold passes, Constraints.validate_component in Hpass.
  simpl Py.assoc in Hpass. cbv iota in Hpass.
  unfold Constraints.validate_member_profiles in Hpass.
  unfold Components.parse_member_profiles in Hparse. unfold raw_list.
  destruct (Py.get data "members" (PList [])) as [e | members]; [discriminate|].
  step_binds.
  destruct (Py.iter members) as [e | ms]; [discriminate|]. step_binds.
  destruct (exc_filter _ ms) as [e | valid_members] eqn:Hvalid; [discriminate|].
  step_binds.
  destruct (Components.comprehension _ Components.parse_member ms)
    as [e | parsed] eqn:Hparsed; [discriminate|].
  step_binds.
  pose proof (comprehension_length _ _ _ _ _ Hparsed Hvalid) as Hlen.
  destruct (length_Z valid_members <? Constraints.MEMBERS_MIN_COUNT) eqn:Hmin;
    [discriminate Hpass|].
  apply Z.ltb_ge in Hmin. unfold Constraints.MEMBERS_MIN_COUNT, length_Z in Hmin.
  destruct parsed as [|m parsed]; [simpl in Hlen; lia|].
  destruct (Components.get_opt data "title") as [e | title]; [discriminate|].
  step_binds.
  destruct (Components.get_opt data "caption") as [e | caption]; [discriminate|].
  step_binds. injection Hparse as <-.
  cbn [MemberProfiles.members]. unfold length_Z. split; [lia|].
  exists ms, valid_members. split; [reflexivity|]. split; [exact Hvalid | exact Hlen].
Qed.

Lemma passes_stripped data key t validator parsed :
  Py.assoc t Constraints.COMPONENT_VALIDATORS = Some validator ->
  (forall d, validator d =
     let? m := Py.get d key (PStr "") in
     let? stripped := py_strip m in
     if String.eqb stripped ""
     then ok (ValidationResult.invalid INSUFFICIENT_DATA parsed None)
     else ok ValidationResult.valid) ->
  forall s, Py.get data key (PStr "") = ok (PStr s) ->
  (passes t data <-> Py.strip s <> "").
Proof.
  intros Hassoc Hval s Hget. unfold passes, Constraints.validate_component.
  rewrite Hassoc, Hval, Hget. simpl.
  destruct (String.eqb_spec (Py.strip s) ""); simpl; split; congruence.
Qed.

(** X12. A text block whose content is an ASCII string is admitted exactly
    when the content is not blank, and then with the content stripped of
    leading and trailing whitespace, as markdown; a blank one is skipped.
    Stripping again changes nothing. *)
Theorem text_block_admission data s :
  has_type data "text_block" ->
  Py.get data "content" (PStr "") = ok (PStr s) ->
  is_ascii s = true ->
  (Py.strip s = "" ->
   forall tr out, runs (Components.parse_component data) tr out ->
                  tr = [] /\ out = ok None) /\
  (Py.strip s <> "" ->
   forall tr out, runs (Components.parse_component data) tr out ->
     exists id title size,
       tr = [Ev Uuid4 id] /\
       out = ok (Some (Component.mk id
                         (CTextBlock (TextBlock.mk (Py.strip s) title MARKDOWN []))
                         size))) /\
  Py.strip (Py.strip s) = Py.strip s.
Proof.
  intros Htype Hget _.
  assert (Hpass : passes "text_block" data <-> Py.strip s <> "").
  { apply (passes_stripped data "content" "text_block"
             Constraints.validate_text_block "Text block has no content");
      [reflexivity | reflexivity | exact Hget]. }
  split; [|split; [|apply strip_idempotent]].
  - intros Hblank tr out Hrun.
    apply (parse_component_rejected data "text_block"); [exact Htype | | exact Hrun].
    intros H. apply Hpass in H. contradiction.
  - intros Hsome tr out Hrun.
    destruct (get_dict _ _ _ _ Hget) as [kv ->].
    destruct (get_total kv "title" PNone) as [title Htitle].
    assert (Hparse : Components.parse_content "text_block" (PDict kv) =
                     ok (Some (CTextBlock
                                 (TextBlock.mk (Py.strip s) title MARKDOWN [])))).
    { change (Components.parse_content "text_block" (PDict kv))
        with (Components.parse_text_block (PDict kv)).
      unfold Components.parse_text_block, Components.get_opt.
      rewrite Hget, Htitle. reflexivity. }
    destruct (parse_component_accepted _ _ _ _ _ Htype (proj2 Hpass Hsome) Hparse Hrun)
      as (id & size & -> & ->).
    eauto.
Qed.

Lemma py_eq_str_spec v s : py_eq_str v s = true <-> v = PStr s.
Proof.
  destruct v; simpl; try (split; [discriminate | intros [=]]).
  rewrite String.eqb_eq. split; [intros -> | intros [= ->]]; reflexivity.
Qed.

(** X13. An unrecognised notice level does not reject the notice: a notice
    whose message is ASCII text that is not blank is admitted with its
    message stripped, with level warning or important when the raw level is
    that string, and with level info for every other raw level. *)
Theorem notice_level_mapping data message level_str :
  has_type data "notice" ->
  Py.get data "message" (PStr "") = ok (PStr message) ->
  is_ascii message = true ->
  Py.strip message <> "" ->
  Py.get data "level" (PStr "info") = ok level_str ->
  forall tr out, runs (Components.parse_component data) tr out ->
    exists id notice size,
      tr = [Ev Uuid4 id] /\
      out = ok (Some (Component.mk id (CNotice notice) size)) /\
      Notice.message notice = Py.strip message /\
      (level_str = PStr "warning" -> Notice.level notice = WARNING) /\
      (level_str = PStr "important" -> Notice.level notice = IMPORTANT) /\
      (level_str <> PStr "warning" -> level_str <> PStr "important" ->
       Notice.level notice = INFO).
Proof.
  intros Htype Hm _ Hmessage Hlevel tr out Hrun.
  destruct (get_dict _ _ _ _ Hlevel) as [kv ->].
  destruct (get_total kv "title" PNone) as [title Htitle].
  assert (Hpass : passes "notice" (PDict kv)).
  { apply (passes_stripped (PDict kv) "message" "notice"
             Constraints.validate_notice "Notice has no message" eq_refl
             (fun d => eq_refl) message Hm). exact Hmessage. }
  assert (Hparse :
            Components.parse_content "notice" (PDict kv) =
            ok (Some (CNotice
                        (Notice.mk (Py.strip message)
                           (if py_eq_str level_str "warning" then WARNING
                            else if py_eq_str level_str "important" then IMPORTANT
                            else INFO) title)))).
  { change (Components.parse_content "notice" (PDict kv))
      with (Components.parse_notice (PDict kv)).
    unfold Components.parse_notice, Components.get_opt.
    rewrite Hm, exc_bind_ok. cbn [py_strip]. rewrite exc_bind_ok.
    rewrite Hlevel, exc_bind_ok, Htitle. reflexivity. }
  destruct (parse_component_accepted _ _ _ _ _ Htype Hpass Hparse Hrun)
    as (id & size & -> & ->).
  do 3 eexists. split; [reflexivity|]. split; [reflexivity|].
  cbn [Notice.message Notice.level]. split; [reflexivity|].
  split; [intros ->; reflexivity|]. split; [intros ->; reflexivity|].
  intros Hw Hi.
  destruct (py_eq_str level_str "warning") eqn:Ew;
    [apply py_eq_str_spec in Ew; contradiction|].
  destruct (py_eq_str level_str "important") eqn:Ei;
    [apply py_eq_str_spec in Ei; contradiction|].
  reflexivity.
Qed.

Lemma exc_any_true {A} (f : A -> Exc bool) l :
  exc_any f l = ok true -> exists a, a ∈ l /\ f a = ok true.
Proof.
  induction l as [|a l IH]; simpl; [discriminate|].
  destruct (f a) as [e | [|]] eqn:Ea; simpl; try discriminate.
  - intros _. exists a. split; [apply elem_of_cons; auto | exact Ea].
  - intros H. destruct (IH H) as (a' & Hin & Ha').
    exists a'. split; [apply elem_of_cons; auto | exact Ha'].
Qed.

Lemma comprehension_member {A C} (c : A -> Exc bool) (f : A -> Exc C) l xs a :
  Components.comprehension c f l = ok xs ->
  a ∈ l -> c a = ok true ->
  exists x, x ∈ xs /\ f a = ok x.
Proof.
  revert xs. induction l as [|a' l IH]; intros xs Hx Hin Hc.
  - apply elem_of_nil in Hin. destruct Hin.
  - simpl in Hx. destruct (c a') as [e | b] eqn:Ec'; [discriminate|].
    rewrite exc_bind_ok in Hx. apply elem_of_cons in Hin as [-> | Hin].
    + rewrite Hc in Ec'. injection Ec' as <-.
      destruct (f a') as [e | x]; [discriminate|]. rewrite exc_bind_ok in Hx.
      destruct (Components.comprehension c f l) as [e | xs']; [discriminate|].
      rewrite exc_bind_ok in Hx. injection Hx as <-.
      exists x. split; [apply elem_of_cons; auto | reflexivity].
    + destruct b.
      * destruct (f a') as [e | x']; [discriminate|]. rewrite exc_bind_ok in Hx.
        destruct (Components.comprehension c f l) as [e | xs']; [discriminate|].
        rewrite exc_bind_ok in Hx. injection Hx as <-.
        destruct (IH _ eq_refl Hin Hc) as (x & Hxin & Hfx).
        exists x. split; [apply elem_of_cons; auto | exact Hfx].
      * exact (IH _ Hx Hin Hc).
Qed.

Lemma positive_count_get_int p k n :
  Components.get_int p k 0 = ok n ->
  Constraints.positive_count p k = ok (0 <? n).
Proof.
  unfold Components.get_int, Constraints.positive_count.
  destruct (Py.get p k (PInt 0)) as [e | v]; [discriminate|].
  rewrite !exc_bind_ok. intros ->. reflexivity.
Qed.

Lemma validate_voting_breakdown_valid data :
  passes "voting_breakdown" data ->
  exists total_for total_against party_data ps has_party_votes,
    Components.get_int data "total_for" 0 = ok total_for /\
    Components.get_int data "total_against" 0 = ok total_against /\
    Py.get data "party_breakdown" (PList []) = ok party_data /\
    Py.iter party_data = ok ps /\
    exc_any (fun p =>
               let? named := Constraints.has p "party" in
               if named then
                 let? f := Constraints.positive_count p "votes_for" in
                 if f then ok true
                 else Constraints.positive_count p "votes_against"
               else ok false) ps = ok has_party_votes /\
    ((0 <? total_for) || (0 <? total_against)) || has_party_votes = true.
Proof.
  unfold passes, Constraints.validate_component.
  simpl Py.assoc. cbv iota.
  destruct (Constraints.validate_voting_breakdown data) as [e | v] eqn:H;
    [discriminate|].
  intros Hv. unfold Constraints.validate_voting_breakdown in H.
  bind_inv H as tf Etf. bind_inv H as total_for Ef.
  bind_inv H as ta Eta. bind_inv H as total_against Ea.
  bind_inv H as party_data Ep. bind_inv H as ps Eps.
  bind_inv H as has_party_votes Eany.
  exists total_for, total_against, party_data, ps, has_party_votes.
  unfold Components.get_int. rewrite Etf, Eta, !exc_bind_ok.
  repeat (split; [first [reflexivity | assumption]|]).
  destruct ((0 <? total_for) || (0 <? total_against)); [reflexivity|].
  destruct has_party_votes; [reflexivity|].
  simpl in H. injection H as <-. discriminate Hv.
Qed.

(** X14. A voting breakdown admitted to the output records some vote: its
    total for or against is positive, or one of its parties has a positive
    count for or against. *)
Theorem voting_breakdown_has_votes data tr c votes :
  has_type data "voting_breakdown" ->
  runs (Components.parse_component data) tr (ok (Some c)) ->
  Component.content c = CVotingBreakdown votes ->
  has_votes votes.
Proof.
  intros Htype Hrun Hcontent.
  destruct (admitted_content _ _ _ _ _ Htype Hrun Hcontent) as [Hpass Hparse].
  change (Components.parse_content "voting_breakdown" data)
    with (Components.parse_voting_breakdown data) in Hparse.
  destruct (validate_voting_breakdown_valid _ Hpass)
    as (total_for & total_against & party_data & ps & has_party_votes &
        Hfor & Hagainst & Hdata & Hps & Hany & Hsome).
  unfold Components.parse_voting_breakdown in Hparse.
  rewrite Hdata, exc_bind_ok, Hps, exc_bind_ok in Hparse.
  bind_inv Hparse as parties Hparties.
  rewrite Hfor, exc_bind_ok, Hagainst, exc_bind_ok in Hparse.
  bind_inv Hparse as title Etitle. bind_inv Hparse as date Edate.
  bind_inv Hparse as total_abstentions Eabs.
  bind_inv Hparse as result Eresult. bind_inv Hparse as caption Ecaption.
  injection Hparse as <-. unfold has_votes.
  cbn [VotingBreakdown.total_for VotingBreakdown.total_against
       VotingBreakdown.party_breakdown].
  destruct (0 <? total_for) eqn:Efor; [apply Z.ltb_lt in Efor; auto|].
  destruct (0 <? total_against) eqn:Eagainst;
    [apply Z.ltb_lt in Eagainst; auto|].
  simpl in Hsome. subst has_party_votes.
  right. right. apply exc_any_true in Hany as (p & Hin & Hp).
  destruct (Constraints.has p "party") as [e | [|]] eqn:Hnamed;
    try discriminate Hp.
  rewrite exc_bind_ok in Hp.
  destruct (comprehension_member _ _ _ _ _ Hparties Hin Hnamed)
    as (pv & Hpv & Hpparse).
  apply Exists_exists. exists pv. split; [exact Hpv|].
  unfold Components.parse_party_vote in Hpparse.
  bind_inv Hpparse as party Eparty.
  bind_inv Hpparse as votes_for Hvf. bind_inv Hpparse as votes_against Hva.
  bind_inv Hpparse as abstentions Eab. bind_inv Hpparse as not_voting Env.
  injection Hpparse as <-.
  cbn [PartyVote.votes_for PartyVote.votes_against].
  rewrite (positive_count_get_int _ _ _ Hvf), exc_bind_ok in Hp.
  destruct (0 <? votes_for) eqn:Ef; [apply Z.ltb_lt in Ef; auto|].
  rewrite (positive_count_get_int _ _ _ Hva) in Hp. injection Hp as Hp.
  apply Z.ltb_lt in Hp. auto.
Qed.

(** X15. A raw component whose type is an ASCII string that, once
    normalized, is none of the eight component types is skipped without an
    error: no component is built and no identifier is drawn. *)
Theorem unknown_type_skipped data raw_type t tr out :
  Py.get data "type" (PStr "") = ok (PStr raw_type) ->
  is_ascii raw_type = true ->
  Components.normalize_type (PStr raw_type) = ok t ->
  t ∉ component_types ->
  runs (Components.parse_component data) tr out ->
  tr = [] /\ out = ok None.
Proof.
  intros Hraw _ Hnorm Hunknown Hrun.
  destruct (get_dict _ _ _ _ Hraw) as [kv ->].
  unfold Components.parse_component in Hrun.
  rewrite Hraw, mbind_lift_ok in Hrun. simpl Py.get in Hrun.
  rewrite mbind_lift_ok, Hnorm, mbind_lift_ok in Hrun.
  assert (Hne : forall s, s ∈ component_types -> String.eqb t s = false).
  { intros s Hs. apply String.eqb_neq. intros ->. contradiction. }
  assert (Hin : forall s, In s component_types -> s ∈ component_types)
    by (intros s; apply list_elem_of_In).
  unfold Constraints.validate_component, Constraints.COMPONENT_VALIDATORS,
    Components.parse_content in Hrun.
  cbn [Py.assoc] in Hrun.
  rewrite !Hne in Hrun by (apply Hin; simpl; tauto).
  simpl in Hrun. exact Hrun.
Qed.

End MoreComponents.

(** * Component type names *)

Lemma assoc_value {V} k (l : list (string * V)) v :
  Py.assoc k l = Some v -> In v (map snd l).
Proof.
  induction l as [|[k' v'] l IH]; simpl; [discriminate|].
  destruct (String.eqb k k'); [intros [= ->]; auto | auto].
Qed.

Lemma canonical_char_idempotent c :
  canonical_char (canonical_char c) =
  canonical_char c.
Proof. destruct c as [[] [] [] [] [] [] [] []]; reflexivity. Qed.

Lemma canonical_char_lower c :
  canonical_char (Py.lower_char c) = canonical_char c.
Proof. destruct c as [[] [] [] [] [] [] [] []]; reflexivity. Qed.

Lemma canonical_char_hyphen c :
  canonical_char (if Ascii.eqb c "-" then "_" else c)%char =
  canonical_char c.
Proof. destruct c as [[] [] [] [] [] [] [] []]; reflexivity. Qed.

Lemma canonical_char_space c :
  Py.is_space (canonical_char c) = Py.is_space c.
Proof. destruct c as [[] [] [] [] [] [] [] []]; reflexivity. Qed.

Lemma canonical_spec s :
  Py.strip (Py.replace_hyphens (Py.lower s)) =
  Py.strip (Py.smap canonical_char s).
Proof.
  unfold Py.replace_hyphens, Py.lower. rewrite smap_smap. reflexivity.
Qed.

Lemma canonical_idempotent s :
  let n := Py.strip (Py.replace_hyphens (Py.lower s)) in
  Py.strip (Py.replace_hyphens (Py.lower n)) = n.
Proof.
  cbv zeta. rewrite !canonical_spec.
  rewrite (smap_strip _ _ canonical_char_space), smap_smap.
  rewrite (smap_ext _ canonical_char _ canonical_char_idempotent).
  apply strip_idempotent.
Qed.

Lemma canonical_char_ascii c :
  is_ascii_char c = true -> is_ascii_char (canonical_char c) = true.
Proof. destruct c as [[] [] [] [] [] [] [] []]; intros H; first [exact H | reflexivity]. Qed.

Lemma is_ascii_smap f s :
  (forall c, is_ascii_char c = true -> is_ascii_char (f c) = true) ->
  is_ascii s = true -> is_ascii (Py.smap f s) = true.
Proof.
  intros Hf. induction s as [|c s IH]; simpl; [reflexivity|].
  intros H. apply andb_true_iff in H as [Hc Hs].
  rewrite (Hf c Hc), (IH Hs). reflexivity.
Qed.

Lemma is_ascii_lstrip s : is_ascii s = true -> is_ascii (Py.lstrip s) = true.
Proof.
  induction s as [|c s IH]; simpl; [reflexivity|].
  intros H. destruct (Py.is_space c); [|exact H].
  apply andb_true_iff in H as [_ Hs]. exact (IH Hs).
Qed.

Lemma is_ascii_rstrip s : is_ascii s = true -> is_ascii (Py.rstrip s) = true.
Proof.
  induction s as [|c s IH]; [reflexivity|].
  intros H. simpl in H. apply andb_true_iff in H as [Hc Hs]. specialize (IH Hs).
  simpl Py.rstrip. destruct (Py.rstrip s) as [|a t].
  - destruct (Py.is_space c); [reflexivity|]. simpl. rewrite Hc. reflexivity.
  - change (is_ascii (String c (String a t)))
      with (is_ascii_char c && is_ascii (String a t)).
    rewrite Hc, IH. reflexivity.
Qed.

Lemma is_ascii_canonical s :
  is_ascii s = true ->
  is_ascii (Py.strip (Py.replace_hyphens (Py.lower s))) = true.
Proof.
  intros Hs. rewrite canonical_spec. unfold Py.strip.
  apply is_ascii_rstrip, is_ascii_lstrip, is_ascii_smap; [|exact Hs].
  exact canonical_char_ascii.
Qed.

(** X16. Normalizing an ASCII component type name gives an ASCII name and is
    idempotent: the name it returns is returned unchanged when normalized
    again. The result does not depend on the case of the raw name, on hyphens
    written for underscores, or on whitespace around it. *)
Theorem normalize_type_canonical s t :
  is_ascii s = true ->
  Components.normalize_type (PStr s) = ok t ->
  is_ascii t = true /\
  Components.normalize_type (PStr t) = ok t /\
  Components.normalize_type (PStr (Py.lower s)) = ok t /\
  Components.normalize_type (PStr (Py.replace_hyphens s)) = ok t /\
  Components.normalize_type (PStr (Py.strip s)) = ok t.
Proof.
  intros Hascii H. unfold Components.normalize_type in *.
  assert (Ht : is_ascii t = true /\
               ok (match Py.assoc (Py.strip (Py.replace_hyphens (Py.lower t)))
                                  Components.TYPE_ALIASES with
                   | Some a => a
                   | None => Py.strip (Py.replace_hyphens (Py.lower t))
                   end) = ok t).
  { apply ok_inj in H.
    destruct (Py.assoc (Py.strip (Py.replace_hyphens (Py.lower s)))
                       Components.TYPE_ALIASES) as [a|] eqn:Ea.
    + subst a. apply assoc_value in Ea. simpl in Ea.
      repeat (destruct Ea as [<- | Ea]; [split; reflexivity|]). destruct Ea.
    + subst t. split; [exact (is_ascii_canonical s Hascii)|].
      rewrite canonical_idempotent, Ea. reflexivity. }
  destruct Ht as [Ht Hidem]. split; [exact Ht|]. split; [exact Hidem|].
  assert (E1 : Py.strip (Py.replace_hyphens (Py.lower (Py.lower s))) =
               Py.strip (Py.replace_hyphens (Py.lower s))).
  { rewrite !canonical_spec. unfold Py.lower. rewrite smap_smap.
    rewrite (smap_ext _ canonical_char _ canonical_char_lower).
    reflexivity. }
  assert (E2 : Py.strip (Py.replace_hyphens (Py.lower (Py.replace_hyphens s))) =
               Py.strip (Py.replace_hyphens (Py.lower s))).
  { rewrite !canonical_spec. unfold Py.replace_hyphens. rewrite smap_smap.
    rewrite (smap_ext _ canonical_char _ canonical_char_hyphen).
    reflexivity. }
  assert (E3 : Py.strip (Py.replace_hyphens (Py.lower (Py.strip s))) =
               Py.strip (Py.replace_hyphens (Py.lower s))).
  { rewrite !canonical_spec.
    rewrite <- (smap_strip _ _ canonical_char_space).
    rewrite strip_idempotent. apply smap_strip, canonical_char_space. }
  rewrite E1, E2, E3. auto.
Qed.

Lemma normalize_type_canonical_witness :
  is_ascii "chart" = true /\
  Components.normalize_type (PStr "chart") = ok "chart" /\
  Components.normalize_type (PStr (Py.lower " Bar-Chart ")) = ok "chart" /\
  Components.normalize_type (PStr (Py.replace_hyphens " Bar-Chart ")) = ok "chart" /\
  Components.normalize_type (PStr (Py.strip " Bar-Chart ")) = ok "chart".
Proof. apply (normalize_type_canonical " Bar-Chart "); reflexivity. Defined.

(** * The other component types on sample components *)

Lemma timeline_shape_witness :
  2 <= length_Z (Timeline.events sample_timeline) /\
  exists raw_events dated,
    raw_list raw_timeline "events" = ok raw_events /\
    exc_filter (Constraints.has_either "date" "label") raw_events = ok dated /\
    length (Timeline.events sample_timeline) = length dated.
Proof.
  apply (timeline_shape (B := sample_runtime) raw_timeline [Ev Uuid4 "c1"]
           (Component.mk "c1" (CTimeline sample_timeline) PNone) sample_timeline).
  - exists (PStr "Timeline"). split; reflexivity.
  - run_trace.
  - reflexivity.
Defined.

Lemma data_table_shape_witness :
  2 <= length_Z (DataTable.columns sample_data_table) /\
  2 <= length_Z (DataTable.rows sample_data_table) /\
  Forall (fun row => row <> []) (DataTable.rows sample_data_table).
Proof.
  apply (data_table_shape (B := sample_runtime) raw_data_table [Ev Uuid4 "c1"]
           (Component.mk "c1" (CDataTable sample_data_table) PNone)
           sample_data_table).
  - exists (PStr "table"). split; reflexivity.
  - run_trace.
  - reflexivity.
Defined.

Lemma text_block_admission_witness :
  (Py.strip "  Two bills passed.  " = "" ->
   forall tr out,
     runs (Components.parse_component (B := sample_runtime) raw_padded_text) tr out ->
     tr = [] /\ out = ok None) /\
  (Py.strip "  Two bills passed.  " <> "" ->
   forall tr out,
     runs (Components.parse_component (B := sample_runtime) raw_padded_text) tr out ->
     exists id title size,
       tr = [Ev Uuid4 id] /\
       out = ok (Some (Component.mk id
                         (CTextBlock
                            (TextBlock.mk (Py.strip "  Two bills passed.  ") title
                                          MARKDOWN []))
                         size))) /\
  Py.strip (Py.strip "  Two bills passed.  ") = Py.strip "  Two bills passed.  ".
Proof.
  apply (text_block_admission (B := sample_runtime) raw_padded_text
           "  Two bills passed.  ").
  - exists (PStr "text"). split; reflexivity.
  - reflexivity.
  - reflexivity.
Defined.

Lemma notice_level_mapping_witness :
  exists id notice size,
    [Ev Uuid4 "n1"] = [Ev Uuid4 id] /\
    ok (Some sample_notice) = ok (Some (Component.mk id (CNotice notice) size)) /\
    Notice.message notice = Py.strip "Check the sources" /\
    (PStr "critical" = PStr "warning" -> Notice.level notice = WARNING) /\
    (PStr "critical" = PStr "important" -> Notice.level notice = IMPORTANT) /\
    (PStr "critical" <> PStr "warning" -> PStr "critical" <> PStr "important" ->
     Notice.level notice = INFO).
Proof.
  apply (notice_level_mapping (B := sample_runtime) raw_notice "Check the sources"
           (PStr "critical")).
  - exists (PStr "alert"). split; reflexivity.
  - reflexivity.
  - reflexivity.
  - discriminate.
  - reflexivity.
  - run_trace.
Defined.

Lemma voting_breakdown_has_votes_witness : has_votes sample_voting_breakdown.
Proof.
  apply (voting_breakdown_has_votes (B := sample_runtime) raw_voting_breakdown
           [Ev Uuid4 "c1"]
           (Component.mk "c1" (CVotingBreakdown sample_voting_breakdown) PNone)).
  - exists (PStr "votes"). split; reflexivity.
  - run_trace.
  - reflexivity.
Defined.

Lemma unknown_type_skipped_witness :
  @nil Event = [] /\ @ok (option Component.t) None = ok None.
Proof.
  apply (unknown_type_skipped (B := sample_runtime) raw_map "Map" "map").
  - reflexivity.
  - reflexivity.
  - reflexivity.
  - rewrite list_elem_of_In. simpl. intuition discriminate.
  - run_trace.
Defined.

Lemma member_profiles_shape_witness :
  1 <= length_Z (MemberProfiles.members sample_member_profiles) /\
  exists raw_members named,
    raw_list raw_member_profiles "members" = ok raw_members /\
    exc_filter (fun m => Constraints.has m "name") raw_members = ok named /\
    length (MemberProfiles.members sample_member_profiles) = length named.
Proof.
  apply (member_profiles_shape (B := sample_runtime) raw_member_profiles
           [Ev Uuid4 "c1"]
           (Component.mk "c1" (CMemberProfiles sample_member_profiles) PNone)
           sample_member_profiles).
  - exists (PStr "members"). split; reflexivity.
  - run_trace.
  - reflexivity.
Defined.

(** * The composer: calls to the language model and token usage *)

Lemma draws_only_ids_runs {A} (p : Prog A) tr a :
  draws_only_ids p -> runs p tr a -> Forall (fun k => k = KUuid4) (kinds tr).
Proof.
  revert tr. induction p as [r | X e k IH]; simpl; intros tr Hp H.
  - destruct H as [-> _]. constructor.
  - destruct Hp as [He Hk]. destruct H as (x & tr' & -> & H).
    unfold kinds. simpl. constructor; [exact He | exact (IH x tr' (Hk x) H)].
Qed.

Lemma draws_bind {A C} (p : Prog A) (f : A -> Prog C) :
  draws_only_ids p -> (forall a, draws_only_ids (f a)) -> draws_only_ids (bind p f).
Proof.
  intros Hp Hf. induction p as [r | X e k IH]; simpl; [apply Hf|].
  destruct Hp as [He Hk]. split; [exact He|]. intros x. apply IH, Hk.
Qed.

Lemma draws_mbind {A C} (p : M A) (f : A -> M C) :
  draws_only_ids p -> (forall a, draws_only_ids (f a)) -> draws_only_ids (mbind p f).
Proof.
  intros Hp Hf. apply draws_bind; [exact Hp|]. intros [e | a]; [exact I | apply Hf].
Qed.

Lemma draws_try_except {A} (p : M A) (h : exn -> M A) :
  draws_only_ids p -> (forall e, draws_only_ids (h e)) ->
  draws_only_ids (try_except p h).
Proof.
  intros Hp Hh. apply draws_bind; [exact Hp|]. intros [e | a]; [apply Hh | exact I].
Qed.

Lemma draws_foldM {A S} (f : S -> A -> M S) l :
  (forall s a, draws_only_ids (f s a)) -> forall s, draws_only_ids (foldM f s l).
Proof.
  intros Hf. induction l as [|a l IH]; intros s; simpl; [exact I|].
  apply draws_mbind; [apply Hf | exact IH].
Qed.

Lemma create_draws content size : draws_only_ids (Component_.create content size).
Proof. split; [reflexivity | intros x; exact I]. Qed.

Lemma kinds_uuid_app tr1 tr2 :
  Forall (fun k => k = KUuid4) (kinds tr1) ->
  Forall (fun k => k = KUuid4) (kinds tr2) ->
  Forall (fun k => k = KUuid4) (kinds (tr1 ++ tr2)).
Proof. intros H1 H2. unfold kinds. rewrite map_app. apply Forall_app. auto. Qed.

Section ComposerRuns.

Context `{B : Builtins}.
Variable model : string.

Lemma parse_component_draws data : draws_only_ids (Components.parse_component data).
Proof.
  unfold Components.parse_component.
  apply draws_mbind; [exact I|]. intros raw_type.
  apply draws_mbind; [exact I|]. intros size.
  apply draws_mbind; [exact I|]. intros comp_type. cbv zeta.
  destruct (negb _); [exact I|].
  apply draws_mbind; [exact I|]. intros [c|]; [|exact I].
  apply draws_mbind; [apply create_draws | intros; exact I].
Qed.

Lemma add_component_draws acc comp_data :
  draws_only_ids (Composer.add_component acc comp_data).
Proof.
  destruct acc as [components ids]. unfold Composer.add_component.
  apply draws_mbind; [apply parse_component_draws|]. intros [c|]; exact I.
Qed.

Lemma add_section_draws acc section_data :
  draws_only_ids (Composer.add_section acc section_data).
Proof.
  destruct acc as [components sections]. unfold Composer.add_section.
  apply draws_mbind; [exact I|]. intros raw.
  apply draws_mbind; [exact I|]. intros comps.
  apply draws_mbind; [apply draws_foldM, add_component_draws|].
  intros [components' [|i ids]].
  - apply draws_mbind; [exact I|]. intros; exact I.
  - apply draws_mbind; [exact I|]. intros title.
    apply draws_mbind; [exact I|]. intros; exact I.
Qed.

Lemma build_layout_draws data :
  draws_only_ids (Composer._build_layout_from_data data).
Proof.
  unfold Composer._build_layout_from_data.
  apply draws_mbind; [exact I|]. intros raw.
  apply draws_mbind; [exact I|]. intros datas.
  apply draws_mbind; [apply draws_foldM, add_section_draws|].
  intros [components sections].
  apply draws_mbind; [exact I|]. intros title.
  apply draws_mbind; [exact I|]. intros; exact I.
Qed.

Lemma fallback_layout_draws content :
  draws_only_ids (Composer._fallback_layout content).
Proof.
  unfold Composer._fallback_layout.
  apply draws_mbind; [apply create_draws | intros; exact I].
Qed.

Lemma parse_response_draws content :
  draws_only_ids (Composer._parse_response content).
Proof.
  unfold Composer._parse_response. apply draws_try_except.
  - cbv zeta. apply draws_mbind; [exact I|]. intros data. apply build_layout_draws.
  - intros e. destruct e; try exact I; apply fallback_layout_draws.
Qed.

Lemma add_extraction_warnings_draws components extractions :
  draws_only_ids (Composer._add_extraction_warnings components extractions).
Proof.
  unfold Composer._add_extraction_warnings. cbv zeta.
  destruct (map _ _); [exact I|].
  apply draws_mbind; [apply create_draws | intros; exact I].
Qed.

(** What [compose] does with the reply of the language model. *)
Lemma after_reply_draws (extractions : list ExtractionResult.t)
      (token_usage : TokenUsage.t) content :
  draws_only_ids
    (let! r := Composer._parse_response content in
     let '(layout, components) := r in
     let! components' := Composer._add_extraction_warnings components extractions in
     mret (layout, components', token_usage)).
Proof.
  apply draws_mbind; [apply parse_response_draws|]. intros [layout components].
  apply draws_mbind; [apply add_extraction_warnings_draws | intros; exact I].
Qed.

Lemma fallback_response_runs query msg tr out :
  runs (Composer._fallback_response model query msg) tr out ->
  exists id, tr = [Ev Uuid4 id] /\ out = ok (composer_error_response model id).
Proof.
  unfold Composer._fallback_response. intros H. inv_runs.
  eexists. split; reflexivity.
Qed.

(** X17. [compose] calls the language model at most once, and only when some
    extraction is complete: without one it draws two identifiers and returns
    a warning notice and a text block with zero token usage. Otherwise its
    first call is the language model, prompted with the complete extractions
    only, and all it does afterwards is draw identifiers; it returns a
    response whose usage names the model and holds either the token counts
    the reply reports (zero where the reply reports none) or zero, and when
    the call raises the response is the error text block with zero usage. *)
Theorem compose_calls_model_once query intent extractions tr out :
  runs (Composer.compose model query intent extractions) tr out ->
  let valid := List.filter ExtractionResult.is_complete extractions in
  (valid = [] ->
   exists id1 id2 layout notice text,
     tr = [Ev Uuid4 id1; Ev Uuid4 id2] /\
     out = ok (layout,
               [Component.mk id1 (CNotice notice) PNone;
                Component.mk id2 (CTextBlock text) PNone],
               zero_usage model) /\
     Notice.level notice = WARNING) /\
  (valid <> [] ->
   exists answer rest layout components usage,
     tr = Ev (LLMInvoke Composer.SYSTEM_MESSAGE (build_prompt query intent valid))
             answer :: rest /\
     Forall (fun k => k = KUuid4) (kinds rest) /\
     out = ok (layout, components, usage) /\
     TokenUsage.model usage = Some model /\
     (forall e, answer = inl e ->
        exists id,
          rest = [Ev Uuid4 id] /\
          (layout, components, usage) = composer_error_response model id) /\
     (usage = zero_usage model \/
      exists response,
        answer = ok response /\
        usage =
          match LLMResponse.usage_metadata response with
          | Some (input, output) =>
            TokenUsage.mk (Some (default 0 input)) (Some (default 0 output))
                          (Some model)
          | None => zero_usage model
          end)).
Proof.
  intros H. cbv zeta. unfold Composer.compose in H.
  destruct (List.filter ExtractionResult.is_complete extractions)
    as [|v vs] eqn:Hvalid.
  - split; [intros _ | intros Hne; contradiction].
    unfold Composer._insufficient_data_response in H. inv_runs.
    do 5 eexists. split; [reflexivity|]. split; reflexivity.
  - split; [discriminate|]. intros _. cbv zeta in H.
    apply runs_try_except in H as [(r & H & ->) | (e & tr1 & tr2 & H & Hh & ->)].
    + apply runs_mbind in H
        as [(e & _ & [=]) | (response & tr1 & tr2 & Hllm & H & ->)].
      apply runs_await in Hllm. subst tr1.
      pose proof (draws_only_ids_runs _ _ _ (after_reply_draws _ _ _) H) as Hids.
      apply runs_mbind in H
        as [(e & _ & [=]) | ([layout comps] & tr3 & tr4 & Hp & H & ->)].
      apply runs_mbind in H
        as [(e & _ & [=]) | (comps' & tr5 & tr6 & Hw & H & ->)].
      apply runs_mret in H as [-> [= ->]].
      do 5 eexists. split; [reflexivity|]. split; [exact Hids|].
      split; [reflexivity|]. split; [reflexivity|].
      split; [intros e [=]|].
      right. exists response. split; [reflexivity|].
      destruct (LLMResponse.usage_metadata response) as [[input output]|];
        reflexivity.
    + apply fallback_response_runs in Hh as (id & -> & ->).
      apply runs_mbind in H
        as [(e' & Hllm & He) | (response & tr1' & tr2' & Hllm & H & ->)].
      * apply runs_await in Hllm. subst tr1. injection He as <-.
        do 5 eexists. split; [reflexivity|].
        split; [repeat constructor|].
        split; [reflexivity|]. split; [reflexivity|].
        split; [intros e' _; exists id; split; reflexivity|].
        left. reflexivity.
      * apply runs_await in Hllm. subst tr1'.
        pose proof (draws_only_ids_runs _ _ _ (after_reply_draws _ _ _) H) as Hids.
        do 5 eexists. split; [rewrite <- app_assoc; reflexivity|].
        split; [apply kinds_uuid_app; [exact Hids | repeat constructor]|].
        split; [reflexivity|]. split; [reflexivity|].
        split; [intros e' [=]|].
        left. reflexivity.
Qed.

Lemma add_extraction_warnings_single text extractions tr out :
  runs (Composer._add_extraction_warnings [text] extractions) tr out ->
  exists notices,
    out = ok (text :: notices) /\
    kinds tr = map (fun _ => KUuid4) notices /\
    (length notices <= 1)%nat /\
    (notices = [] <-> low_completeness extractions = false) /\
    Forall (fun n => exists notice,
                Component.content n = CNotice notice /\
                Notice.level notice = INFO) notices.
Proof.
  unfold Composer._add_extraction_warnings, low_completeness. cbv zeta.
  pose proof (filter_nil_existsb
                (fun e => PrimFloat.ltb (ExtractionResult.completeness e) 0.5)
                extractions) as Hlow.
  destruct (List.filter _ extractions) as [|e es]; cbn [map]; intros H.
  - apply runs_mret in H as [-> ->]. exists []. split; [reflexivity|].
    split; [reflexivity|]. split; [simpl; lia|]. split; [|constructor].
    split; [intros _; apply Hlow; reflexivity | reflexivity].
  - inv_runs. eexists [_]. split; [reflexivity|].
    split; [reflexivity|]. split; [simpl; lia|]. split.
    + split; [discriminate|]. intros Hnone. apply Hlow in Hnone. discriminate.
    + constructor; [|constructor]. eexists. split; reflexivity.
Qed.

Lemma parse_response_no_json content tr out :
  json_loads (Composer._extract_json content) = None ->
  runs (Composer._parse_response content) tr out ->
  exists id,
    tr = [Ev Uuid4 id] /\
    out = ok (raw_content_layout id,
              [Component.mk id
                 (CTextBlock (TextBlock.mk content PNone MARKDOWN [])) PNone]).
Proof.
  intros Hjson H. unfold Composer._parse_response in H. cbv zeta in H.
  rewrite Hjson in H.
  apply runs_try_except in H as [(r & H & _) | (e & tr1 & tr2 & H & Hf & ->)].
  - apply runs_mbind in H as [(e & H & [=]) | (d & ? & ? & H & _)];
      apply runs_lift in H as [_ [=]].
  - apply runs_mbind in H as [(e' & H & [= <-]) | (d & ? & ? & H & _)];
      [|apply runs_lift in H as [_ [=]]].
    apply runs_lift in H as [-> [= ->]].
    unfold Composer._fallback_layout in Hf. inv_runs.
    eexists. split; reflexivity.
Qed.

Lemma parse_response_not_object content d tr out :
  json_loads (Composer._extract_json content) = Some d ->
  Py.is_dict d = false ->
  runs (Composer._parse_response content) tr out ->
  tr = [] /\ out = throw AttributeError.
Proof.
  intros Hjson Hd H. unfold Composer._parse_response in H. cbv zeta in H.
  rewrite Hjson in H.
  assert (Hbuild : forall tr' out',
             runs (Composer._build_layout_from_data d) tr' out' ->
             tr' = [] /\ out' = throw AttributeError).
  { intros tr' out' Hb. unfold Composer._build_layout_from_data in Hb.
    apply runs_mbind in Hb as [(e & Hb & ->) | (raw & ? & ? & Hb & _)];
      apply runs_lift in Hb as [-> Hget];
      destruct d; try discriminate Hd; try discriminate Hget;
      injection Hget as <-; split; reflexivity. }
  apply runs_try_except in H as [(r & H & ->) | (e & tr1 & tr2 & H & Hf & ->)].
  - apply runs_mbind in H as [(e & H & [=]) | (d' & ? & ? & H & Hb & _)].
    apply runs_lift in H as [_ [= <-]].
    apply Hbuild in Hb as [_ [=]].
  - apply runs_mbind in H as [(e' & H & _) | (d' & ? & ? & H & Hb & ->)];
      [apply runs_lift in H as [_ [=]]|].
    apply runs_lift in H as [-> [= <-]].
    apply Hbuild in Hb as [-> [= ->]].
    apply runs_lift in Hf as [-> ->]. split; reflexivity.
Qed.


End ComposerRuns.

Lemma compose_calls_model_once_witness :
  exists answer rest layout components usage,
    sample_reply_trace =
      Ev (LLMInvoke Composer.SYSTEM_MESSAGE "What is a money bill?") answer :: rest /\
    Forall (fun k => k = KUuid4) (kinds rest) /\
    ok sample_raw_content_response = ok (layout, components, usage) /\
    TokenUsage.model usage = Some "gpt-4o" /\
    (forall e, answer = inl e ->
       exists id,
         rest = [Ev Uuid4 id] /\
         (layout, components, usage) = composer_error_response "gpt-4o" id) /\
    (usage = zero_usage "gpt-4o" \/
     exists response,
       answer = ok response /\
       usage =
         match LLMResponse.usage_metadata response with
         | Some (input, output) =>
           TokenUsage.mk (Some (default 0 input)) (Some (default 0 output))
                         (Some "gpt-4o")
         | None => zero_usage "gpt-4o"
         end).
Proof.
  apply (compose_calls_model_once (B := sample_runtime) "gpt-4o"
           "What is a money bill?" sample_intent [sample_extraction]
           sample_reply_trace (ok sample_raw_content_response)).
  - run_trace.
  - discriminate.
Defined.


(** * Cost line items *)

Lemma round_magnitude_nonneg m e : 0 <= Py.round_magnitude m e.
Proof.
  unfold Py.round_magnitude. destruct (0 <=? e) eqn:E.
  - apply Z.leb_le in E. apply Z.mul_nonneg_nonneg; [lia|]. apply Z.pow_nonneg. lia.
  - apply Z.leb_gt in E.
    assert (Hd : 0 < 2 ^ (- e)) by (apply Z.pow_pos_nonneg; lia).
    pose proof (round_half_even_bounds (Z.pos m) (2 ^ (- e)) Hd) as [Hlo _].
    assert (0 <= Z.pos m / 2 ^ (- e)) by (apply Z.div_pos; lia).
    lia.
Qed.

Lemma round_of_positive f r :
  PrimFloat.ltb 0 f = true -> Py.round f = ok r -> 0 <= r.
Proof.
  intros Hpos Hr. destruct (positive_float f Hpos) as [(m & e & Hf) | Hinf].
  - rewrite (round_positive f m e Hf) in Hr. apply ok_inj in Hr. subst r.
    apply round_magnitude_nonneg.
  - exfalso. exact (round_infinity f false r Hinf Hr).
Qed.

Lemma floor_cent_spec cond x r :
  CostBreakdown.floor_cent cond x = ok r -> if cond then 1 <= r else r = 0.
Proof.
  unfold CostBreakdown.floor_cent. destruct cond.
  - destruct (Py.round x) as [e | z]; [discriminate|].
    rewrite exc_bind_ok. intros Hr. apply ok_inj in Hr. lia.
  - intros Hr. apply ok_inj in Hr. auto.
Qed.

(** X19. A cost breakdown that [calculate] returns records the counts it was
    given; each of the embedding, language model and vector line items is at
    least one cent when its count is positive and zero otherwise; the margin
    and the total are never negative; the credits equal the total in cents. *)
Theorem calculate_line_items e i o v margin c :
  CostBreakdown.calculate e i o v margin = ok c ->
  (CostBreakdown.embedding_tokens c = e /\
   CostBreakdown.llm_input_tokens c = i /\
   CostBreakdown.llm_output_tokens c = o /\
   CostBreakdown.vector_queries c = v) /\
  (0 < e -> 1 <= CostBreakdown.embedding_cost_cents c) /\
  (e <= 0 -> CostBreakdown.embedding_cost_cents c = 0) /\
  (0 < i + o -> 1 <= CostBreakdown.llm_cost_cents c) /\
  (i + o <= 0 -> CostBreakdown.llm_cost_cents c = 0) /\
  (0 < v -> 1 <= CostBreakdown.vector_cost_cents c) /\
  (v <= 0 -> CostBreakdown.vector_cost_cents c = 0) /\
  0 <= CostBreakdown.margin_cents c /\
  0 <= CostBreakdown.total_cents c /\
  CostBreakdown.total_credits c = CostBreakdown.total_cents c.
Proof.
  unfold CostBreakdown.calculate. intros H.
  destruct (Py.int_truediv e 1000) as [x | ef]; [discriminate|].
  rewrite exc_bind_ok in H. cbv zeta in H.
  destruct (Py.int_truediv i 1000) as [x | inf]; [discriminate|].
  rewrite exc_bind_ok in H.
  destruct (Py.int_truediv o 1000) as [x | outf]; [discriminate|].
  rewrite exc_bind_ok in H.
  destruct (Py.float_of_int v) as [x | vf]; [discriminate|].
  rewrite exc_bind_ok in H.
  destruct (CostBreakdown.floor_cent (0 <? e) _) as [x | ec] eqn:Hec;
    [discriminate|].
  rewrite exc_bind_ok in H.
  destruct (CostBreakdown.floor_cent (0 <? i + o) _) as [x | lc] eqn:Hlc;
    [discriminate|].
  rewrite exc_bind_ok in H.
  destruct (CostBreakdown.floor_cent (0 <? v) _) as [x | vc] eqn:Hvc;
    [discriminate|].
  rewrite exc_bind_ok in H.
  destruct (CostBreakdown.floor_cent (_ && _) _) as [x | mc] eqn:Hmc;
    [discriminate|].
  rewrite exc_bind_ok in H.
  apply floor_cent_spec in Hec, Hlc, Hvc, Hmc.
  match type of H with
  | exc_bind (if PrimFloat.ltb 0 ?t then _ else _) _ = _ =>
    destruct (PrimFloat.ltb 0 t) eqn:Hpos
  end.
  - destruct (Py.round _) as [x | total] eqn:Hround; [discriminate|].
    rewrite exc_bind_ok in H. apply ok_inj in H. subst c.
    cbn [CostBreakdown.embedding_tokens CostBreakdown.llm_input_tokens
         CostBreakdown.llm_output_tokens CostBreakdown.vector_queries
         CostBreakdown.embedding_cost_cents CostBreakdown.llm_cost_cents
         CostBreakdown.vector_cost_cents CostBreakdown.margin_cents
         CostBreakdown.total_cents CostBreakdown.total_credits].
    pose proof (round_of_positive _ _ Hpos Hround).
    destruct (0 <? e) eqn:E1; destruct (0 <? i + o) eqn:E2;
      destruct (0 <? v) eqn:E3; destruct (_ && _);
      rewrite ?Z.ltb_lt, ?Z.ltb_ge in *; repeat split; lia.
  - rewrite exc_bind_ok in H. apply ok_inj in H. subst c.
    cbn [CostBreakdown.embedding_tokens CostBreakdown.llm_input_tokens
         CostBreakdown.llm_output_tokens CostBreakdown.vector_queries
         CostBreakdown.embedding_cost_cents CostBreakdown.llm_cost_cents
         CostBreakdown.vector_cost_cents CostBreakdown.margin_cents
         CostBreakdown.total_cents CostBreakdown.total_credits].
    destruct (0 <? e) eqn:E1; destruct (0 <? i + o) eqn:E2;
      destruct (0 <? v) eqn:E3; destruct (_ && _);
      rewrite ?Z.ltb_lt, ?Z.ltb_ge in *; repeat split; lia.
Qed.

Lemma calculate_line_items_witness :
  (CostBreakdown.embedding_tokens sample_cost = 5 /\
   CostBreakdown.llm_input_tokens sample_cost = 1000 /\
   CostBreakdown.llm_output_tokens sample_cost = 500 /\
   CostBreakdown.vector_queries sample_cost = 1) /\
  (0 < 5 -> 1 <= CostBreakdown.embedding_cost_cents sample_cost) /\
  (5 <= 0 -> CostBreakdown.embedding_cost_cents sample_cost = 0) /\
  (0 < 1000 + 500 -> 1 <= CostBreakdown.llm_cost_cents sample_cost) /\
  (1000 + 500 <= 0 -> CostBreakdown.llm_cost_cents sample_cost = 0) /\
  (0 < 1 -> 1 <= CostBreakdown.vector_cost_cents sample_cost) /\
  (1 <= 0 -> CostBreakdown.vector_cost_cents sample_cost = 0) /\
  0 <= CostBreakdown.margin_cents sample_cost /\
  0 <= CostBreakdown.total_cents sample_cost /\
  CostBreakdown.total_credits sample_cost = CostBreakdown.total_cents sample_cost.
Proof.
  apply (calculate_line_items 5 1000 500 1 0.4%float sample_cost).
  vm_compute. reflexivity.
Defined.

(** X20. With no tokens and no vector queries the cost is zero in every
    field, whatever the margin: also for an infinite margin or one that is
    not a number, for which [calculate] does not raise. *)
Theorem calculate_nothing_used margin :
  CostBreakdown.calculate 0 0 0 0 margin = ok CostBreakdown.zero.
Proof.
  assert (Hz : PrimFloat.ltb 0 (0 + 0 * margin) = false).
  { rewrite ltb_spec, add_spec, mul_spec.
    change (Prim2SF 0) with (S754_zero false).
    destruct (Prim2SF margin) as [[]|[]| |[] m e]; reflexivity. }
  unfold CostBreakdown.calculate.
  change (Py.int_truediv 0 1000) with (ok 0%float).
  assert (Hv : Py.float_of_int 0 = ok 0%float) by (vm_compute; reflexivity).
  rewrite Hv, !exc_bind_ok. cbv zeta.
  unfold CostBreakdown.EMBEDDING_RATE_CENTS, CostBreakdown.LLM_INPUT_RATE_CENTS,
    CostBreakdown.LLM_OUTPUT_RATE_CENTS, CostBreakdown.VECTOR_QUERY_RATE_CENTS.
  change (0 * 0.01 + (0 * 1.0 + 0 * 3.0) + 0 * 0.01)%float with 0%float.
  change (PrimFloat.ltb 0 0) with false. rewrite andb_false_r, Hz.
  reflexivity.
Qed.

(** * Anonymous sessions: the free tier *)

Section Sessions.

Variable datetime : Type.
Variable ge : datetime -> datetime -> bool.
Variable next_midnight : datetime -> datetime.

Local Abbreviation check_and_reset := (AnonymousSession.check_and_reset ge next_midnight).
Local Abbreviation perform_call := (AnonymousSession.perform_call ge next_midnight).
Local Abbreviation perform_calls := (AnonymousSession.perform_calls ge next_midnight).

Lemma perform_calls_cons c cs (s : AnonymousSession.t datetime) :
  perform_calls (c :: cs) s =
  (fst (perform_call c s) :: fst (perform_calls cs (snd (perform_call c s))),
   snd (perform_calls cs (snd (perform_call c s)))).
Proof.
  simpl. destruct (perform_call c s) as [b s']. simpl.
  destruct (perform_calls cs s') as [bs s'']. reflexivity.
Qed.

(** X21. Queries consumed one after the other from a session with [r]
    queries left are granted exactly while some are left: of [k] calls the
    first [min k r] answer true and take one query each, the others answer
    false and leave the session as it is. *)
Theorem consume_queries_budget (nows : list datetime)
        (s : AnonymousSession.t datetime) :
  0 <= AnonymousSession.free_tier_remaining s ->
  let r := AnonymousSession.free_tier_remaining s in
  let k := length_Z nows in
  let result := perform_calls (map AnonymousSession.ConsumeQuery nows) s in
  fst result = replicate (Z.to_nat (Z.min k r)) true ++
               replicate (Z.to_nat (k - Z.min k r)) false /\
  AnonymousSession.free_tier_remaining (snd result) = r - Z.min k r /\
  AnonymousSession.can_query (snd result) = (k <? r).
Proof.
  cbv zeta. revert s. induction nows as [|now nows IH]; intros s Hr.
  - unfold AnonymousSession.can_query, length_Z.
    cbn [map length AnonymousSession.perform_calls fst snd].
    change (Z.of_nat 0) with 0. rewrite Z.min_l by lia.
    split; [reflexivity|]. split; [lia | reflexivity].
  - rewrite map_cons, perform_calls_cons.
    cbn [fst snd AnonymousSession.perform_call].
    unfold AnonymousSession.consume_query.
    unfold length_Z in *. cbn [length]. rewrite Nat2Z.inj_succ.
    destruct (AnonymousSession.free_tier_remaining s <=? 0) eqn:E.
    + apply Z.leb_le in E. cbn [fst snd].
      destruct (IH s Hr) as (Ha & Hrem & Hcan). rewrite Ha, Hrem, Hcan.
      assert (Hz : AnonymousSession.free_tier_remaining s = 0) by lia.
      rewrite Hz. rewrite !Z.min_r by lia. simpl Z.to_nat.
      rewrite !Z.sub_0_r, Z2Nat.inj_succ by lia. simpl.
      split; [reflexivity|]. split; [reflexivity|].
      transitivity false; [|symmetry]; apply Z.ltb_ge; lia.
    + apply Z.leb_gt in E. cbn [fst snd].
      set (s' := AnonymousSession.mk _ _ _ _ _).
      assert (Hr' : 0 <= AnonymousSession.free_tier_remaining s')
        by (subst s'; simpl; lia).
      destruct (IH s' Hr') as (Ha & Hrem & Hcan). rewrite Ha, Hrem, Hcan.
      subst s'. cbn [AnonymousSession.free_tier_remaining].
      set (r := AnonymousSession.free_tier_remaining s) in *.
      set (k := Z.of_nat (length nows)).
      assert (0 <= k) by (subst k; lia).
      replace (Z.min (Z.succ k) r) with (Z.succ (Z.min k (r - 1))) by lia.
      rewrite Z2Nat.inj_succ by lia. simpl.
      split; [do 3 f_equal; lia|]. split; [lia|].
      destruct (k <? r - 1) eqn:E1; destruct (Z.succ k <? r) eqn:E2;
        rewrite ?Z.ltb_lt, ?Z.ltb_ge in *; first [reflexivity | lia].
Qed.

Lemma perform_call_invariant bound now sid c (s : AnonymousSession.t datetime) :
  10 <= bound ->
  0 <= AnonymousSession.free_tier_remaining s <= bound /\
  AnonymousSession.session_id s = sid /\
  AnonymousSession.created_at s = now /\
  AnonymousSession.free_tier_reset_at s <> None ->
  let s' := snd (perform_call c s) in
  0 <= AnonymousSession.free_tier_remaining s' <= bound /\
  AnonymousSession.session_id s' = sid /\
  AnonymousSession.created_at s' = now /\
  AnonymousSession.free_tier_reset_at s' <> None.
Proof.
  intros Hb (Hr & Hsid & Hcreated & Hreset). cbv zeta.
  destruct c as [now' | now']; simpl.
  - unfold AnonymousSession.consume_query.
    destruct (AnonymousSession.free_tier_remaining s <=? 0) eqn:E; simpl.
    + repeat split; first [assumption | lia].
    + apply Z.leb_gt in E. repeat split; first [assumption | lia].
  - unfold AnonymousSession.check_and_reset.
    destruct (AnonymousSession.free_tier_reset_at s) as [reset_at|] eqn:Er;
      [|contradiction].
    destruct (ge now' reset_at); simpl.
    + repeat split; first [assumption | discriminate | lia].
    + rewrite Er. repeat split; first [assumption | discriminate | lia].
Qed.

(** X22. Whatever calls are made on a session created with a daily limit
    that is not negative, in whatever order and at whatever times, the number
    of free queries left stays between zero and the larger of that limit and
    ten, and the session keeps its identifier, its creation time and a reset
    time. A reset that is performed leaves exactly ten queries, whatever the
    daily limit was, and a query is granted exactly when [can_query] holds. *)
Theorem session_quota_invariant now sid daily_limit cs :
  0 <= daily_limit ->
  let s := snd (perform_calls cs
                  (AnonymousSession.create next_midnight now sid daily_limit)) in
  (0 <= AnonymousSession.free_tier_remaining s <= Z.max daily_limit 10 /\
   AnonymousSession.session_id s = sid /\
   AnonymousSession.created_at s = now /\
   AnonymousSession.free_tier_reset_at s <> None) /\
  (forall now',
      fst (check_and_reset now' s) = true ->
      AnonymousSession.free_tier_remaining (snd (check_and_reset now' s)) = 10) /\
  (forall now',
      fst (AnonymousSession.consume_query now' s) = AnonymousSession.can_query s).
Proof.
  intros Hlimit. cbv zeta.
  set (inv := fun s : AnonymousSession.t datetime =>
                0 <= AnonymousSession.free_tier_remaining s <= Z.max daily_limit 10 /\
                AnonymousSession.session_id s = sid /\
                AnonymousSession.created_at s = now /\
                AnonymousSession.free_tier_reset_at s <> None).
  assert (Hkeep : forall cs s, inv s -> inv (snd (perform_calls cs s))).
  { clear cs. intros cs. induction cs as [|c cs IH]; intros s Hs; [exact Hs|].
    rewrite perform_calls_cons. cbn [snd]. apply IH.
    apply (perform_call_invariant (Z.max daily_limit 10) now sid c s); [lia|].
    exact Hs. }
  split; [|split].
  - apply Hkeep. subst inv. simpl. repeat split; first [lia | discriminate].
  - intros now'. unfold AnonymousSession.check_and_reset.
    destruct (AnonymousSession.free_tier_reset_at _) as [reset_at|];
      [|discriminate].
    destruct (ge now' reset_at); [reflexivity | discriminate].
  - intros now'. unfold AnonymousSession.consume_query, AnonymousSession.can_query.
    destruct (_ <=? 0) eqn:E; simpl; symmetry;
      [apply Z.ltb_ge; apply Z.leb_le in E | apply Z.ltb_lt; apply Z.leb_gt in E];
      lia.
Qed.

End Sessions.

Lemma consume_queries_budget_witness :
  let s := AnonymousSession.create (fun t => (t / 86400 + 1) * 86400) 100 "a1" 2 in
  let result :=
    AnonymousSession.perform_calls Z.geb (fun t => (t / 86400 + 1) * 86400)
      (map AnonymousSession.ConsumeQuery [101; 102; 103]) s in
  fst result = replicate (Z.to_nat (Z.min 3 2)) true ++
               replicate (Z.to_nat (3 - Z.min 3 2)) false /\
  AnonymousSession.free_tier_remaining (snd result) = 2 - Z.min 3 2 /\
  AnonymousSession.can_query (snd result) = (3 <? 2).
Proof.
  apply (consume_queries_budget Z Z.geb (fun t => (t / 86400 + 1) * 86400)
           [101; 102; 103]
           (AnonymousSession.create (fun t => (t / 86400 + 1) * 86400) 100 "a1" 2)).
  simpl. lia.
Defined.

Lemma session_quota_invariant_witness :
  let s :=
    snd (AnonymousSession.perform_calls Z.geb (fun t => (t / 86400 + 1) * 86400)
           [AnonymousSession.ConsumeQuery 101; AnonymousSession.CheckAndReset 90000;
            AnonymousSession.ConsumeQuery 90001]
           (AnonymousSession.create (fun t => (t / 86400 + 1) * 86400) 100 "a1" 25)) in
  (0 <= AnonymousSession.free_tier_remaining s <= Z.max 25 10 /\
   AnonymousSession.session_id s = "a1" /\
   AnonymousSession.created_at s = 100 /\
   AnonymousSession.free_tier_reset_at s <> None) /\
  (forall now',
      fst (AnonymousSession.check_and_reset Z.geb
             (fun t => (t / 86400 + 1) * 86400) now' s) = true ->
      AnonymousSession.free_tier_remaining
        (snd (AnonymousSession.check_and_reset Z.geb
                (fun t => (t / 86400 + 1) * 86400) now' s)) = 10) /\
  (forall now',
      fst (AnonymousSession.consume_query now' s) = AnonymousSession.can_query s).
Proof.
  apply (session_quota_invariant Z Z.geb (fun t => (t / 86400 + 1) * 86400)
           100 "a1" 25
           [AnonymousSession.ConsumeQuery 101; AnonymousSession.CheckAndReset 90000;
            AnonymousSession.ConsumeQuery 90001]).
  lia.
Defined.

(** * Reading the reply: code fences *)

Lemma prefix_append s r : String.prefix s (s +:+ r) = true.
Proof.
  induction s as [|a s IH]; [destruct r; reflexivity|].
  change (String.prefix (String a s) (String a s +:+ r))
    with (match ascii_dec a a with
          | left _ => String.prefix s (s +:+ r)
          | right _ => false
          end).
  destruct (ascii_dec a a); [exact IH | contradiction].
Qed.

Lemma prefix_backtick_other fence c r :
  Ascii.eqb c "`" = false -> String.prefix (String "`" fence) (String c r) = false.
Proof.
  intros Hc.
  change (String.prefix (String "`" fence) (String c r))
    with (match ascii_dec "`" c with
          | left _ => String.prefix fence r
          | right _ => false
          end).
  destruct (ascii_dec "`" c) as [<- | _]; [discriminate Hc | reflexivity].
Qed.

Lemma index_0_cons s1 c s2 :
  String.index 0 s1 (String c s2) =
  if String.prefix s1 (String c s2) then Some 0%nat
  else match String.index 0 s1 s2 with
       | Some n => Some (S n)
       | None => None
       end.
Proof. reflexivity. Qed.

Lemma index_after_plain_text fence pre tail :
  no_backtick pre = true ->
  String.prefix (String "`" fence) tail = true ->
  String.index 0 (String "`" fence) (pre +:+ tail) = Some (String.length pre).
Proof.
  intros Hpre Htail. induction pre as [|c pre IH].
  - change ("" +:+ tail) with tail. destruct tail as [|c tail].
    + discriminate Htail.
    + rewrite index_0_cons, Htail. reflexivity.
  - simpl in Hpre. apply andb_true_iff in Hpre as [Hc Hpre].
    apply negb_true_iff in Hc.
    change (String c pre +:+ tail) with (String c (pre +:+ tail)).
    rewrite index_0_cons, (prefix_backtick_other _ _ _ Hc), (IH Hpre).
    reflexivity.
Qed.

Lemma index_plain_text fence s :
  no_backtick s = true -> String.index 0 (String "`" fence) s = None.
Proof.
  intros Hs. induction s as [|c s IH]; [reflexivity|].
  simpl in Hs. apply andb_true_iff in Hs as [Hc Hs]. apply negb_true_iff in Hc.
  rewrite index_0_cons, (prefix_backtick_other _ _ _ Hc), (IH Hs). reflexivity.
Qed.

Lemma substring_prefix_part a b :
  String.substring 0 (String.length a) (a +:+ b) = a.
Proof.
  induction a as [|c a IH]; simpl; [destruct b; reflexivity|].
  rewrite IH. reflexivity.
Qed.

Lemma substring_whole s : String.substring 0 (String.length s) s = s.
Proof. induction s as [|c s IH]; simpl; [|rewrite IH]; reflexivity. Qed.

Lemma substring_suffix_part a b n :
  n = String.length b ->
  String.substring (String.length a) n (a +:+ b) = b.
Proof.
  intros ->. induction a as [|c a IH]; simpl; [apply substring_whole | exact IH].
Qed.

Lemma string_length_app a b :
  String.length (a +:+ b) = (String.length a + String.length b)%nat.
Proof. induction a as [|c a IH]; simpl; [|rewrite IH]; reflexivity. Qed.

Lemma append_assoc a b c : (a +:+ b) +:+ c = a +:+ b +:+ c.
Proof.
  induction a as [|x a IH]; [reflexivity|].
  change (String x ((a +:+ b) +:+ c) = String x (a +:+ b +:+ c)).
  f_equal. exact IH.
Qed.

Lemma split_first_fence fence pre r :
  no_backtick pre = true ->
  split_first (String "`" fence) (pre +:+ String "`" fence +:+ r) = (pre, Some r).
Proof.
  intros Hpre. unfold split_first.
  rewrite (index_after_plain_text _ _ _ Hpre (prefix_append _ _)).
  rewrite substring_prefix_part. f_equal. f_equal.
  rewrite <- append_assoc, <- (string_length_app pre (String "`" fence)).
  apply substring_suffix_part.
  rewrite (string_length_app _ r). lia.
Qed.



(** * Exceptions while parsing a component *)

Section ComponentExceptions.

Context `{B : Builtins}.

(** X24. An exception raised while a raw component is validated is
    swallowed: the component is skipped, no identifier is drawn and nothing
    is raised. An exception raised while a component that passed validation
    is built is not caught: [parse_component] raises it, without drawing an
    identifier. *)
Theorem parse_component_exceptions data t tr out :
  has_type data t ->
  runs (Components.parse_component data) tr out ->
  (forall validator e,
      Py.assoc t Constraints.COMPONENT_VALIDATORS = Some validator ->
      validator data = throw e ->
      tr = [] /\ out = ok None) /\
  (forall e,
      passes t data ->
      Components.parse_content t data = throw e ->
      tr = [] /\ out = throw e).
Proof.
  intros Htype Hrun. split.
  - intros validator e Hassoc Hraises.
    apply (parse_component_rejected data t); [exact Htype | | exact Hrun].
    unfold passes, Constraints.validate_component.
    rewrite Hassoc, Hraises. discriminate.
  - intros e Hpass Hcontent.
    destruct Htype as (raw_type & Hraw & Hnorm).
    destruct (get_dict _ _ _ _ Hraw) as [kv ->].
    unfold Components.parse_component in Hrun. unfold passes in Hpass.
    rewrite Hraw, mbind_lift_ok in Hrun. simpl Py.get in Hrun.
    rewrite mbind_lift_ok, Hnorm, mbind_lift_ok, Hpass in Hrun.
    simpl negb in Hrun. cbv iota in Hrun.
    rewrite Hcontent in Hrun. exact Hrun.
Qed.

End ComponentExceptions.

Lemma parse_component_exceptions_witness :
  (forall validator e,
      Py.assoc "timeline" (Constraints.COMPONENT_VALIDATORS (B := sample_runtime))
      = Some validator ->
      validator raw_timeline_bad_significance = throw e ->
      @nil Event = [] /\ @throw (option Component.t) ValueError = ok None) /\
  (forall e,
      passes (B := sample_runtime) "timeline" raw_timeline_bad_significance ->
      Components.parse_content (B := sample_runtime) "timeline"
        raw_timeline_bad_significance = throw e ->
      @nil Event = [] /\ @throw (option Component.t) ValueError = throw e).
Proof.
  apply (parse_component_exceptions (B := sample_runtime)
           raw_timeline_bad_significance "timeline" [] (throw ValueError)).
  - exists (PStr "timeline"). split; reflexivity.
  - run_trace.
Defined.
